(** * Tic Tac Toe: board model, win detection and move sources

    A shallow embedding of the three variants of the game
    ([functional.py], [oop.py], [oop_npc.py]) and the properties their
    specification states about them.

    Python values are modelled as follows.
    - [int] is [Z]; [//] is [Z.div] and [%] is [Z.modulo] (both floor, as
      in Python).
    - A [list] is a Rocq [list]; subscripting takes a [Z] index, wraps a
      negative index once by the length and raises [IndexError] outside
      the list, as Python does.
    - A raised exception is the [Raise] case of [result]; the exception
      messages are not modelled.
    - A [str] is the list of its code points.  The methods used on the
      typed line are written out for the ASCII characters; the Unicode
      tables and the digit limit of [int] belong to the interpreter that
      runs the program and are taken as a parameter.
    - The grid is a list of row lists.  Every grid is built by a nested
      comprehension, so its rows are distinct objects and a store to one
      row never shows through another: the value model below is faithful
      to that. *)

From Stdlib Require Import ZArith Ascii String Lia.
From stdpp Require Import base numbers list strings relations.

Local Open Scope Z_scope.

(** ** Python primitives *)

Module Py.

Inductive exn : Set :=
| UserExit
| InvalidInput
| InputOutOfBounds
| WinnerWinnerChickenDinner
| YouAllLose
| IndexError
| UnboundLocalError
| ValueError.

Inductive result (A : Type) : Type :=
| Ok (a : A)
| Raise (e : exn).
Arguments Ok {A} a.
Arguments Raise {A} e.

#[export] Instance result_ret : MRet result := fun A a => Ok a.
#[export] Instance result_bind : MBind result := fun A B f m =>
  match m with
  | Ok a => f a
  | Raise e => Raise e
  end.

#[export] Instance exn_eq_dec : EqDecision exn.
Proof. solve_decision. Defined.

(** [range(n)] for a literal bound. *)
Definition range (n : nat) : list Z := Z.of_nat <$> seq 0 n.

(** Index normalisation of [list.__getitem__] and [list.__setitem__]. *)
Definition py_index (len : nat) (i : Z) : result nat :=
  let j := if i <? 0 then i + Z.of_nat len else i in
  if (j <? 0) || (Z.of_nat len <=? j) then Raise IndexError
  else Ok (Z.to_nat j).

(** [l[i]] *)
Definition getitem {A} (l : list A) (i : Z) : result A :=
  n ← py_index (length l) i;
  match l !! n with
  | Some x => Ok x
  | None => Raise IndexError
  end.

(** [l[i] = x] *)
Definition setitem {A} (l : list A) (i : Z) (x : A) : result (list A) :=
  n ← py_index (length l) i;
  Ok (<[n:=x]> l).

(** [g[row][col]] *)
Definition getitem2 {A} (g : list (list A)) (row col : Z) : result A :=
  r ← getitem g row;
  getitem r col.

(** [g[row][col] = x]: the row object is fetched and updated in place. *)
Definition setitem2 {A} (g : list (list A)) (row col : Z) (x : A)
  : result (list (list A)) :=
  r ← getitem g row;
  r' ← setitem r col x;
  setitem g row r'.

(** *** Mutable state

    A computation over a mutable store [S] returns its result together
    with the store it leaves behind: what was written before an
    exception is raised stays written, as in Python. *)

Definition M (S A : Type) : Type := S -> result A * S.

#[export] Instance M_ret {S} : MRet (M S) := fun A a s => (Ok a, s).
#[export] Instance M_bind {S} : MBind (M S) := fun A B f m s =>
  match m s with
  | (Ok a, s') => f a s'
  | (Raise e, s') => (Raise e, s')
  end.

(** A read of the store that may raise. *)
Definition reads {S A} (f : S -> result A) : M S A := fun s => (f s, s).

(** [raise e] *)
Definition raise {S A} (e : exn) : M S A := fun s => (Raise e, s).

(** *** Strings

    A Python string is the list of its code points.  On the ASCII
    characters the string methods are written out below; what the
    interpreter holds about the other characters, and its limit on the
    digits that [int] converts, are the fields of [interpreter]. *)

Definition str : Type := list N.

(** The string whose characters are those of an ASCII literal. *)
Definition text (s : string) : str := N_of_ascii <$> list_ascii_of_string s.

(** The numeric type of a character: a decimal digit with its value, a
    numeric character that is no decimal digit (a superscript, a fraction,
    a roman numeral), or none. *)
Inductive numeric_kind : Set :=
| Decimal (d : Z)
| Numeric
| NotNumeric.

(** - [unicode_numeric]: the numeric type of a character outside ASCII;
    - [unicode_casefold]: the case folding of a character outside ASCII;
    - [int_max_str_digits]: [sys.get_int_max_str_digits()], 0 for no
      limit;
    - a decimal digit has a value within 0..9;
    - no character outside ASCII folds to the empty string or to the
      letter q. *)
Record interpreter : Type := Interpreter {
  unicode_numeric : N -> numeric_kind;
  unicode_casefold : N -> str;
  int_max_str_digits : N;
  unicode_decimal_range :
    forall c d, unicode_numeric c = Decimal d -> 0 <= d <= 9;
  unicode_casefold_q :
    forall c, (128 <= c)%N ->
      unicode_casefold c <> [] /\ unicode_casefold c <> [113%N];
  int_max_str_digits_threshold :
    int_max_str_digits = 0%N \/ (640 <= int_max_str_digits)%N
}.

Definition numeric_type (py : interpreter) (c : N) : numeric_kind :=
  if (c <? 128)%N then
    if ((48 <=? c) && (c <=? 57))%N then Decimal (Z.of_N c - 48)
    else NotNumeric
  else unicode_numeric py c.

Definition casefold_char (py : interpreter) (c : N) : str :=
  if (c <? 128)%N then
    [if ((65 <=? c) && (c <=? 90))%N then (c + 32)%N else c]
  else unicode_casefold py c.

(** [s.casefold()] *)
Fixpoint casefold (py : interpreter) (s : str) : str :=
  match s with
  | [] => []
  | c :: s' => casefold_char py c ++ casefold py s'
  end.

Definition is_numeric_char (py : interpreter) (c : N) : bool :=
  match numeric_type py c with
  | NotNumeric => false
  | _ => true
  end.

(** [s.isnumeric()] *)
Definition isnumeric (py : interpreter) (s : str) : bool :=
  match s with
  | [] => false
  | _ => forallb (is_numeric_char py) s
  end.

(** The string has more characters than [int] converts. *)
Definition too_long (py : interpreter) (s : str) : bool :=
  ((0 <? int_max_str_digits py)
   && (int_max_str_digits py <? N.of_nat (length s)))%N.

Fixpoint int_acc (py : interpreter) (acc : Z) (s : str) : result Z :=
  match s with
  | [] => Ok acc
  | c :: s' =>
      match numeric_type py c with
      | Decimal d => int_acc py (10 * acc + d) s'
      | _ => Raise ValueError
      end
  end.

(** [int(s)] for a string without sign, blanks and underscores, as a
    string is for which [isnumeric] holds: the decimal value of its
    digits, and [ValueError] when it is empty, holds a character that is
    no decimal digit, or has more digits than the limit. *)
Definition int (py : interpreter) (s : str) : result Z :=
  match s with
  | [] => Raise ValueError
  | _ => if too_long py s then Raise ValueError else int_acc py 0 s
  end.

(** *** Standard output

    Printing is a computation over the text written so far:
    [print(s, end=e)] appends [s] and then [e]. *)

Definition newline : string := String (ascii_of_nat 10) EmptyString.

Definition print (s e : string) : M string () :=
  fun out => (Ok (), (out ++ s ++ e)%string).

End Py.

Import Py.

(** ** [functional.py]

    The module keeps the board and the move counter in two globals.  A
    cell holds [None], [True] (player X) or [False] (player O); a player
    is a [bool]. *)

Module Functional.

Definition _BOARD_ROWS : nat := 3.
Definition _BOARD_COLS : nat := 3.

(** A cell: [None], [True] or [False]. *)
Definition cell : Type := option bool.

(** The globals [board] and [turn]. *)
Record globals : Type := Globals {
  board : list (list cell);
  turn : Z
}.

(** The globals as the module initialises them. *)
Definition init : globals :=
  {| board := (fun _ => (fun _ => None) <$> range _BOARD_COLS)
                <$> range _BOARD_ROWS;
     turn := 0 |}.

(** [input_string] is the line [input] has read.  The [ValueError] of
    [int] is not caught here. *)
Definition get_user_input_as_int (py : interpreter) (input_string : str)
    : result Z :=
  if bool_decide (casefold py input_string = text "q") then Raise UserExit
  else if negb (isnumeric py input_string) then Raise InvalidInput
  else
    input_num ← int py input_string;
    if (input_num <? 1) || (input_num >? 9) then Raise InputOutOfBounds
    else Ok input_num.

Definition linear_position_to_coords (position : Z) : Z * Z :=
  let position := position - 1 in
  let row := position / 3 in
  let col := position in
  let col := if col >? 2 then col mod 3 else col in
  (row, col).

Definition is_taken (coords : Z * Z) : M globals bool :=
  let '(row, col) := coords in
  reads (fun g =>
    c ← getitem2 (board g) row col;
    Ok (bool_decide (c ≠ None))).

Definition add_to_board (coords : Z * Z) (player : bool) : M globals () :=
  let '(row, col) := coords in
  fun g =>
    match setitem2 (board g) row col (Some player) with
    | Ok b => (Ok (), {| board := b; turn := turn g |})
    | Raise e => (Raise e, g)
    end.

(** The inner loop of [check_rows]: the value of [retval] when the loop
    over the cells of one row ends. *)
Fixpoint row_scan (player : bool) (row : list cell) : bool :=
  match row with
  | [] => true
  | c :: row' =>
      if bool_decide (c ≠ Some player) then false
      else row_scan player row'
  end.

(** The outer loop of [check_rows]; [retval] is [None] while the
    variable is not bound. *)
Fixpoint check_rows_loop (player : bool) (retval : option bool)
    (rows : list (list cell)) : result bool :=
  match rows with
  | [] =>
      match retval with
      | Some v => Ok v
      | None => Raise UnboundLocalError
      end
  | row :: rows' =>
      let retval := row_scan player row in
      if retval then Ok true
      else check_rows_loop player (Some retval) rows'
  end.

Definition check_rows (player : bool) : M globals bool :=
  reads (fun g => check_rows_loop player None (board g)).

(** The inner loop of [check_cols] over the row indices. *)
Fixpoint col_scan (b : list (list cell)) (player : bool) (col : Z)
    (rows : list Z) : result bool :=
  match rows with
  | [] => Ok true
  | row :: rows' =>
      c ← getitem2 b row col;
      if bool_decide (c ≠ Some player) then Ok false
      else col_scan b player col rows'
  end.

Fixpoint check_cols_loop (b : list (list cell)) (player : bool)
    (retval : option bool) (cols : list Z) : result bool :=
  match cols with
  | [] =>
      match retval with
      | Some v => Ok v
      | None => Raise UnboundLocalError
      end
  | col :: cols' =>
      retval ← col_scan b player col (range _BOARD_ROWS);
      if retval : bool then Ok retval
      else check_cols_loop b player (Some retval) cols'
  end.

Definition check_cols (player : bool) : M globals bool :=
  reads (fun g =>
    check_cols_loop (board g) player None (range _BOARD_COLS)).

(** [a == b == player] compares [a] with [b] and then [b] with
    [player]; the second pair of cells is read only when the first
    diagonal fails. *)
Definition check_diags (player : bool) : M globals bool :=
  reads (fun g =>
    let b := board g in
    centre ← getitem2 b 1 1;
    if negb (bool_decide (centre = Some player)) then Ok false
    else
      c00 ← getitem2 b 0 0;
      c22 ← getitem2 b 2 2;
      if bool_decide (c00 = c22) && bool_decide (c22 = Some player)
      then Ok true
      else
        c02 ← getitem2 b 0 2;
        c20 ← getitem2 b 2 0;
        if bool_decide (c02 = c20) && bool_decide (c20 = Some player)
        then Ok true
        else Ok false).

Definition check_tie : M globals bool :=
  fun g =>
    let g' := {| board := board g; turn := turn g + 1 |} in
    (Ok (turn g' =? Z.of_nat _BOARD_ROWS * Z.of_nat _BOARD_COLS), g').

Definition chicken_dinner (player : bool) : M globals bool :=
  r ← check_rows player;
  if r : bool then mret true
  else
    c ← check_cols player;
    if c : bool then mret true
    else check_diags player.

(** *** The loop of [main]

    One iteration reads one input line.  It ends with [Continue] (the
    loop goes round again) or with [Break] and the reason the loop was
    left. *)

Inductive ending : Set := Win | Tie | Exit.

Inductive control : Set :=
| Continue
| Break (why : ending).

(** The body of the [try] block; the second component is the local
    [player] when the block ends. *)
Definition try_block (py : interpreter) (line : str) (player : bool)
    : M globals (control * bool) :=
  location ← reads (fun _ => get_user_input_as_int py line);
  let coords := linear_position_to_coords location in
  taken ← is_taken coords;
  if taken : bool then mret (Continue, player)
  else
    _ ← add_to_board coords player;
    win ← chicken_dinner player;
    if win : bool then mret (Break Win, player)
    else
      tie ← check_tie;
      if tie : bool then mret (Break Tie, player)
      else mret (Continue, negb player).

(** The [try] statement with its two [except] clauses; any other
    exception leaves [main]. *)
Definition iteration (py : interpreter) (line : str) (player : bool)
    : M globals (control * bool) :=
  fun g =>
    match try_block py line player g with
    | (Raise UserExit, g') => (Ok (Break Exit, player), g')
    | (Raise InvalidInput, g') => (Ok (Continue, player), g')
    | (Raise InputOutOfBounds, g') => (Ok (Continue, player), g')
    | other => other
    end.

(** The state of [main] between two iterations, or after the loop. *)
Record loop_state : Type := LoopState {
  globs : globals;
  player : bool;
  ctl : control
}.

Definition start : loop_state :=
  {| globs := init; player := true; ctl := Continue |}.

(** [main] run on the given input lines: it stops at the first [break]
    or when the lines run out, and is [Raise e] when an exception leaves
    the loop. *)
Fixpoint run (py : interpreter) (lines : list str) (ls : loop_state)
    : result loop_state :=
  match lines with
  | [] => Ok ls
  | line :: lines' =>
      match ctl ls with
      | Break _ => Ok ls
      | Continue =>
          match iteration py line (player ls) (globs ls) with
          | (Ok (c, p), g) =>
              run py lines' {| globs := g; player := p; ctl := c |}
          | (Raise e, _) => Raise e
          end
      end
  end.

(** *** [display_board] *)

(** The dictionary [player_map]; its keys are the three values a cell can
    hold, so a lookup never fails. *)
Definition player_map (c : cell) : string :=
  match c with
  | None => "-"
  | Some true => "X"
  | Some false => "O"
  end.

Fixpoint display_cols (b : list (list cell)) (row : Z) (cols : list Z)
    : M string () :=
  match cols with
  | [] => mret ()
  | col :: cols' =>
      c ← reads (fun _ => getitem2 b row col);
      _ ← print (player_map c) " ";
      display_cols b row cols'
  end.

Fixpoint display_rows (b : list (list cell)) (rows : list Z) : M string () :=
  match rows with
  | [] => mret ()
  | row :: rows' =>
      _ ← display_cols b row (range _BOARD_COLS);
      _ ← print "" newline;
      display_rows b rows'
  end.

Definition display_board (g : globals) : M string () :=
  _ ← print "" newline;
  _ ← display_rows (board g) (range _BOARD_ROWS);
  print "" newline.

End Functional.

(** ** [oop.py]

    The board is an object with a grid of [Player] values and a move
    counter; the rotation state is the class attribute
    [Players._current].  A win and a tie are raised as exceptions. *)

Module Oop.

Inductive Player : Set := EMPTY | PRIMARY | SECONDARY.

#[global] Instance Player_eq_dec : EqDecision Player.
Proof. solve_decision. Defined.

(** The [value] of a member of the enumeration. *)
Definition value (p : Player) : string :=
  match p with
  | EMPTY => "-"
  | PRIMARY => "X"
  | SECONDARY => "O"
  end.

(** A two-item tuple subscripted by a [bool]: [False] selects item 0
    and [True] item 1. *)
Definition tuple_item {A} (t : A * A) (i : bool) : A :=
  if i then t.2 else t.1.

Module Players.

(** The class attributes that change: [_current]. *)
Record state : Set := State { _current : bool }.

Definition init : state := {| _current := true |}.

Definition _players : Player * Player := (SECONDARY, PRIMARY).

(** [switch] returns its value with the class state it leaves. *)
Definition switch (cls : state) : Player * state :=
  let cls' := {| _current := negb (_current cls) |} in
  (tuple_item _players (_current cls'), cls').

Definition current (cls : state) : Player :=
  tuple_item _players (_current cls).

End Players.

Module Board.

Definition _ROWS : nat := 3.
Definition _COLS : nat := 3.

Record t : Type := Make {
  grid : list (list Player);
  turn : Z
}.

(** [Board()] *)
Definition __init__ : t :=
  {| grid := (fun _ => (fun _ => EMPTY) <$> range _COLS) <$> range _ROWS;
     turn := 0 |}.

Definition get_coords (position : Z) : Z * Z :=
  let position := position - 1 in
  let row := position / 3 in
  let col := position in
  let col := if col >? 2 then col mod 3 else col in
  (row, col).

Definition add (position : Z) (player : Player) : M t () :=
  let '(row, col) := get_coords position in
  fun self =>
    match setitem2 (grid self) row col player with
    | Ok g => (Ok (), {| grid := g; turn := turn self |})
    | Raise e => (Raise e, self)
    end.

(** The inner loop of [_check_rows]: [checked_full_row] when the loop
    over one row ends. *)
Fixpoint row_scan (player : Player) (row : list Player) : bool :=
  match row with
  | [] => true
  | c :: row' =>
      if bool_decide (c ≠ player) then false
      else row_scan player row'
  end.

Fixpoint _check_rows_loop (player : Player) (rows : list (list Player))
    : bool :=
  match rows with
  | [] => false
  | row :: rows' =>
      if row_scan player row then true
      else _check_rows_loop player rows'
  end.

Definition _check_rows (player : Player) : M t bool :=
  reads (fun self => Ok (_check_rows_loop player (grid self))).

Fixpoint col_scan (g : list (list Player)) (player : Player) (col : Z)
    (rows : list Z) : result bool :=
  match rows with
  | [] => Ok true
  | row :: rows' =>
      c ← getitem2 g row col;
      if bool_decide (c ≠ player) then Ok false
      else col_scan g player col rows'
  end.

Fixpoint _check_cols_loop (g : list (list Player)) (player : Player)
    (cols : list Z) : result bool :=
  match cols with
  | [] => Ok false
  | col :: cols' =>
      checked_full_col ← col_scan g player col (range _ROWS);
      if checked_full_col : bool then Ok true
      else _check_cols_loop g player cols'
  end.

Definition _check_cols (player : Player) : M t bool :=
  reads (fun self => _check_cols_loop (grid self) player (range _COLS)).

Definition _check_diags (player : Player) : M t bool :=
  reads (fun self =>
    let g := grid self in
    centre ← getitem2 g 1 1;
    if negb (bool_decide (centre = player)) then Ok false
    else
      c00 ← getitem2 g 0 0;
      c22 ← getitem2 g 2 2;
      if bool_decide (c00 = c22) && bool_decide (c22 = player)
      then Ok true
      else
        c02 ← getitem2 g 0 2;
        c20 ← getitem2 g 2 0;
        if bool_decide (c02 = c20) && bool_decide (c20 = player)
        then Ok true
        else Ok false).

Definition is_winner (player : Player) : M t () :=
  retval ← (r ← _check_rows player;
            if r : bool then mret true
            else
              c ← _check_cols player;
              if c : bool then mret true
              else _check_diags player);
  if retval : bool then raise WinnerWinnerChickenDinner
  else mret ().

Definition is_tie : M t () :=
  fun self =>
    let self' := {| grid := grid self; turn := turn self + 1 |} in
    let retval := turn self' =? Z.of_nat _ROWS * Z.of_nat _COLS in
    if retval then (Raise YouAllLose, self')
    else (Ok (), self').

Definition is_taken (position : Z) : M t bool :=
  let '(row, col) := get_coords position in
  reads (fun self =>
    c ← getitem2 (grid self) row col;
    Ok (bool_decide (c ≠ EMPTY))).

(** [display] writes to the standard output and leaves the board alone. *)
Fixpoint display_cols (g : list (list Player)) (row : Z) (cols : list Z)
    : M string () :=
  match cols with
  | [] => mret ()
  | col :: cols' =>
      c ← reads (fun _ => getitem2 g row col);
      _ ← print (value c) " ";
      display_cols g row cols'
  end.

Fixpoint display_rows (g : list (list Player)) (rows : list Z)
    : M string () :=
  match rows with
  | [] => mret ()
  | row :: rows' =>
      _ ← display_cols g row (range _COLS);
      _ ← print "" newline;
      display_rows g rows'
  end.

Definition display (self : t) : M string () :=
  _ ← print "" newline;
  _ ← display_rows (grid self) (range _ROWS);
  print "" newline.

End Board.

(** [input_string] is the line [input] has read.  The [ValueError] of
    [int] is not caught here. *)
Definition get_user_input (py : interpreter) (input_string : str)
    : result Z :=
  if bool_decide (casefold py input_string = text "q") then Raise UserExit
  else if negb (isnumeric py input_string) then Raise InvalidInput
  else
    input_num ← int py input_string;
    if negb ((1 <=? input_num) && (input_num <=? 9))
    then Raise InputOutOfBounds
    else Ok input_num.

(** *** The loop of [main] *)

(** What [main] can change: the class state of [Players] and its
    [board]. *)
Record world : Type := World {
  players : Players.state;
  board : Board.t
}.

Definition on_board {A} (m : M Board.t A) : M world A :=
  fun w =>
    let '(r, b) := m (board w) in
    (r, {| players := players w; board := b |}).

Definition on_players {A} (m : Players.state -> A * Players.state)
    : M world A :=
  fun w =>
    let '(a, cls) := m (players w) in
    (Ok a, {| players := cls; board := board w |}).

Inductive ending : Set := Win | Tie | Exit.

Inductive control : Set :=
| Continue
| Break (why : ending).

(** The body of the [try] block; it returns the local [current_player]
    as the block leaves it. *)
Definition try_block (py : interpreter) (line : str)
    (current_player : Player) : M world Player :=
  location ← reads (fun _ => get_user_input py line);
  taken ← on_board (Board.is_taken location);
  if taken : bool then mret current_player
  else
    _ ← on_board (Board.add location current_player);
    _ ← on_board (Board.is_winner current_player);
    _ ← on_board Board.is_tie;
    on_players Players.switch.

Definition iteration (py : interpreter) (line : str)
    (current_player : Player) : M world (control * Player) :=
  fun w =>
    match try_block py line current_player w with
    | (Ok p, w') => (Ok (Continue, p), w')
    | (Raise UserExit, w') => (Ok (Break Exit, current_player), w')
    | (Raise InvalidInput, w') => (Ok (Continue, current_player), w')
    | (Raise InputOutOfBounds, w') => (Ok (Continue, current_player), w')
    | (Raise WinnerWinnerChickenDinner, w') =>
        (Ok (Break Win, current_player), w')
    | (Raise YouAllLose, w') => (Ok (Break Tie, current_player), w')
    | (Raise e, w') => (Raise e, w')
    end.

Record loop_state : Type := LoopState {
  wld : world;
  current_player : Player;
  ctl : control
}.

(** [main] up to its loop: [Players.current()] and [Board()] on a
    freshly loaded module. *)
Definition start : loop_state :=
  {| wld := {| players := Players.init; board := Board.__init__ |};
     current_player := Players.current Players.init;
     ctl := Continue |}.

Fixpoint run (py : interpreter) (lines : list str) (ls : loop_state)
    : result loop_state :=
  match lines with
  | [] => Ok ls
  | line :: lines' =>
      match ctl ls with
      | Break _ => Ok ls
      | Continue =>
          match iteration py line (current_player ls) (wld ls) with
          | (Ok (c, p), w) =>
              run py lines' {| wld := w; current_player := p; ctl := c |}
          | (Raise e, _) => Raise e
          end
      end
  end.

End Oop.

(** ** [oop_npc.py]

    As [oop.py], with the board size held in [_SIZE], the row check
    written as a list membership test, and a computer player that draws
    its positions at random. *)

Module OopNpc.

Inductive Player : Set := EMPTY | PLAYER | COMPUTER.

#[global] Instance Player_eq_dec : EqDecision Player.
Proof. solve_decision. Defined.

(** The [value] of a member of the enumeration. *)
Definition value (p : Player) : string :=
  match p with
  | EMPTY => "-"
  | PLAYER => "X"
  | COMPUTER => "O"
  end.

Module Players.

Record state : Set := State { _current : bool }.

Definition init : state := {| _current := true |}.

Definition _players : Player * Player := (COMPUTER, PLAYER).

Definition current (cls : state) : Player :=
  Oop.tuple_item _players (_current cls).

Definition switch (cls : state) : Player * state :=
  let cls' := {| _current := negb (_current cls) |} in
  (current cls', cls').

End Players.

Module Board.

Definition _SIZE : nat := 3.

Record t : Type := Make {
  grid : list (list Player);
  turn : Z
}.

Definition __init__ : t :=
  {| grid := (fun _ => (fun _ => EMPTY) <$> range _SIZE) <$> range _SIZE;
     turn := 0 |}.

Definition get_coords (position : Z) : Z * Z :=
  let position := position - 1 in
  let row := position / Z.of_nat _SIZE in
  let col := position in
  let col := if col >? 2 then col mod Z.of_nat _SIZE else col in
  (row, col).

Definition add (position : Z) (player : Player) : M t () :=
  let '(row, col) := get_coords position in
  fun self =>
    match setitem2 (grid self) row col player with
    | Ok g => (Ok (), {| grid := g; turn := turn self |})
    | Raise e => (Raise e, self)
    end.

(** [[player] * Board._SIZE in self.grid] *)
Definition _check_rows (player : Player) : M t bool :=
  reads (fun self =>
    Ok (bool_decide (replicate _SIZE player ∈ grid self))).

Fixpoint col_scan (g : list (list Player)) (player : Player) (col : Z)
    (rows : list Z) : result bool :=
  match rows with
  | [] => Ok true
  | row :: rows' =>
      c ← getitem2 g row col;
      if bool_decide (c ≠ player) then Ok false
      else col_scan g player col rows'
  end.

Fixpoint _check_cols_loop (g : list (list Player)) (player : Player)
    (cols : list Z) : result bool :=
  match cols with
  | [] => Ok false
  | col :: cols' =>
      checked_full_col ← col_scan g player col (range _SIZE);
      if checked_full_col : bool then Ok true
      else _check_cols_loop g player cols'
  end.

Definition _check_cols (player : Player) : M t bool :=
  reads (fun self => _check_cols_loop (grid self) player (range _SIZE)).

Definition _check_diags (player : Player) : M t bool :=
  let center_point := Z.of_nat _SIZE / 2 in
  let corner := Z.of_nat _SIZE - 1 in
  reads (fun self =>
    let g := grid self in
    centre ← getitem2 g center_point center_point;
    if negb (bool_decide (centre = player)) then Ok false
    else
      c00 ← getitem2 g 0 0;
      ccc ← getitem2 g corner corner;
      if bool_decide (c00 = ccc) && bool_decide (ccc = player)
      then Ok true
      else
        c0c ← getitem2 g 0 corner;
        cc0 ← getitem2 g corner 0;
        if bool_decide (c0c = cc0) && bool_decide (cc0 = player)
        then Ok true
        else Ok false).

Definition is_winner (player : Player) : M t () :=
  retval ← (r ← _check_rows player;
            if r : bool then mret true
            else
              c ← _check_cols player;
              if c : bool then mret true
              else _check_diags player);
  if retval : bool then raise WinnerWinnerChickenDinner
  else mret ().

Definition is_tie : M t () :=
  fun self =>
    let self' := {| grid := grid self; turn := turn self + 1 |} in
    let retval := turn self' =? Z.of_nat _SIZE * Z.of_nat _SIZE in
    if retval then (Raise YouAllLose, self')
    else (Ok (), self').

Definition is_taken (position : Z) : M t bool :=
  let '(row, col) := get_coords position in
  reads (fun self =>
    c ← getitem2 (grid self) row col;
    Ok (bool_decide (c ≠ EMPTY))).

(** [display] writes to the standard output and leaves the board alone. *)
Fixpoint display_cols (g : list (list Player)) (row : Z) (cols : list Z)
    : M string () :=
  match cols with
  | [] => mret ()
  | col :: cols' =>
      c ← reads (fun _ => getitem2 g row col);
      _ ← print (value c) " ";
      display_cols g row cols'
  end.

Fixpoint display_rows (g : list (list Player)) (rows : list Z)
    : M string () :=
  match rows with
  | [] => mret ()
  | row :: rows' =>
      _ ← display_cols g row (range _SIZE);
      _ ← print "" newline;
      display_rows g rows'
  end.

Definition display (self : t) : M string () :=
  _ ← print "" newline;
  _ ← display_rows (grid self) (range _SIZE);
  print "" newline.

End Board.

(** [input_string] is the line [input] has read.  The [ValueError] of
    [int] is not caught here. *)
Definition get_user_input (py : interpreter) (input_string : str)
    : result Z :=
  if bool_decide (casefold py input_string = text "q") then Raise UserExit
  else if negb (isnumeric py input_string) then Raise InvalidInput
  else
    input_num ← int py input_string;
    if negb ((1 <=? input_num) && (input_num <=? 9))
    then Raise InputOutOfBounds
    else Ok input_num.

(** The [while] loop of [get_location].  [samples] are the values the
    coming calls of [random.randint(1, 9)] return; the loop is [None]
    when it is still running after the last of them, and otherwise
    returns with the samples it has not drawn. *)
Fixpoint sample_loop (board : Board.t) (location : Z) (samples : list Z)
    : option (result Z * list Z) :=
  match (Board.is_taken location board).1 with
  | Raise e => Some (Raise e, samples)
  | Ok false => Some (Ok location, samples)
  | Ok true =>
      match samples with
      | [] => None
      | location' :: samples' => sample_loop board location' samples'
      end
  end.

Definition get_location (py : interpreter) (board : Board.t)
    (player : Player) (samples : list Z) (line : str)
    : option (result Z * list Z) :=
  if bool_decide (player = COMPUTER) then
    match samples with
    | [] => None
    | location :: samples' => sample_loop board location samples'
    end
  else Some (get_user_input py line, samples).

(** *** The loop of [main] *)

Record world : Type := World {
  players : Players.state;
  board : Board.t
}.

Definition on_board {A} (m : M Board.t A) : M world A :=
  fun w =>
    let '(r, b) := m (board w) in
    (r, {| players := players w; board := b |}).

Definition on_players {A} (m : Players.state -> A * Players.state)
    : M world A :=
  fun w =>
    let '(a, cls) := m (players w) in
    (Ok a, {| players := cls; board := board w |}).

Inductive ending : Set := Win | Tie | Exit.

Inductive control : Set :=
| Continue
| Break (why : ending).

(** What one iteration takes from outside: the values the calls of
    [random.randint(1, 9)] made during it return, and the line typed when
    the player is asked. *)
Record input : Type := Input {
  samples : list Z;
  line : str
}.

(** The body of the [try] block.  It is [None] when [get_location] is
    still drawing after the last sample. *)
Definition try_block (py : interpreter) (i : input)
    (current_player : Player) (w : world)
    : option (result Player * world) :=
  match get_location py (board w) current_player (samples i) (line i) with
  | None => None
  | Some (r, _) =>
      Some ((location ← reads (fun _ => r);
             taken ← on_board (Board.is_taken location);
             if taken : bool then mret current_player
             else
               _ ← on_board (Board.add location current_player);
               _ ← on_board (Board.is_winner current_player);
               _ ← on_board Board.is_tie;
               on_players Players.switch) w)
  end.

Definition iteration (py : interpreter) (i : input)
    (current_player : Player) (w : world)
    : option (result (control * Player) * world) :=
  match try_block py i current_player w with
  | None => None
  | Some (Ok p, w') => Some (Ok (Continue, p), w')
  | Some (Raise UserExit, w') => Some (Ok (Break Exit, current_player), w')
  | Some (Raise InvalidInput, w') => Some (Ok (Continue, current_player), w')
  | Some (Raise InputOutOfBounds, w') =>
      Some (Ok (Continue, current_player), w')
  | Some (Raise WinnerWinnerChickenDinner, w') =>
      Some (Ok (Break Win, current_player), w')
  | Some (Raise YouAllLose, w') => Some (Ok (Break Tie, current_player), w')
  | Some (Raise e, w') => Some (Raise e, w')
  end.

Record loop_state : Type := LoopState {
  wld : world;
  current_player : Player;
  ctl : control
}.

Definition start : loop_state :=
  {| wld := {| players := Players.init; board := Board.__init__ |};
     current_player := Players.current Players.init;
     ctl := Continue |}.

(** [main] run on the given inputs, one for each iteration. *)
Fixpoint run (py : interpreter) (inputs : list input) (ls : loop_state)
    : option (result loop_state) :=
  match inputs with
  | [] => Some (Ok ls)
  | i :: inputs' =>
      match ctl ls with
      | Break _ => Some (Ok ls)
      | Continue =>
          match iteration py i (current_player ls) (wld ls) with
          | None => None
          | Some (Ok (c, p), w) =>
              run py inputs' {| wld := w; current_player := p; ctl := c |}
          | Some (Raise e, _) => Some (Raise e)
          end
      end
  end.

End OopNpc.

(** ** Notions the properties are stated with *)

(** A grid of three rows of three cells. *)
Definition shape3 {A} (g : list (list A)) : Prop :=
  length g = 3%nat ∧ Forall (fun row => length row = 3%nat) g.

Definition valid_position (p : Z) : Prop := 1 ≤ p ≤ 9.

Definition valid_coords (rc : Z * Z) : Prop :=
  0 ≤ rc.1 ≤ 2 ∧ 0 ≤ rc.2 ≤ 2.

(** A conversion [f] maps the nine positions one-to-one onto the nine
    grid coordinates, by quotient and remainder. *)
Definition position_mapping (f : Z → Z * Z) : Prop :=
  (∀ p, valid_position p →
     f p = ((p - 1) / 3, (p - 1) mod 3) ∧ valid_coords (f p)) ∧
  (∀ p q, valid_position p → valid_position q → f p = f q → p = q) ∧
  (∀ rc, valid_coords rc → ∃ p, valid_position p ∧ f p = rc).

(** The grid [g'] is the three by three grid [g] with the mark [x] stored
    at the coordinates [rc] and every other cell as it was. *)
Definition stores_only_at {A} (g g' : list (list A)) (rc : Z * Z) (x : A)
    : Prop :=
  shape3 g' ∧
  getitem2 g' rc.1 rc.2 = Ok x ∧
  ∀ rc', valid_coords rc' → rc' ≠ rc →
    getitem2 g' rc'.1 rc'.2 = getitem2 g rc'.1 rc'.2.

(** The number of cells of a grid that do not hold the mark [empty]. *)
Definition row_marks {A} `{EqDecision A} (empty : A) (row : list A) : Z :=
  Z.of_nat (length (filter (fun c => c ≠ empty) row)).

Definition marks {A} `{EqDecision A} (empty : A) (g : list (list A)) : Z :=
  foldr Z.add 0 (row_marks empty <$> g).

(** The move counter against the marks on the board, by the way the loop
    stands: still running or left by a tie or an exit, the two agree;
    left by a win, the winning move has not been counted. *)
Definition functional_counter_rule (ls : Functional.loop_state) : Prop :=
  let g := Functional.globs ls in
  match Functional.ctl ls with
  | Functional.Break Functional.Win =>
      Functional.turn g + 1 = marks None (Functional.board g)
  | _ => Functional.turn g = marks None (Functional.board g)
  end.

Definition oop_counter_rule (ls : Oop.loop_state) : Prop :=
  let b := Oop.board (Oop.wld ls) in
  match Oop.ctl ls with
  | Oop.Break Oop.Win =>
      Oop.Board.turn b + 1 = marks Oop.EMPTY (Oop.Board.grid b)
  | _ => Oop.Board.turn b = marks Oop.EMPTY (Oop.Board.grid b)
  end.

(** A position of 1..9 whose cell is free, and a board that has one. *)
Definition open_position (board : OopNpc.Board.t) (p : Z) : Prop :=
  valid_position p ∧ OopNpc.Board.is_taken p board = (Ok false, board).

Definition non_full (board : OopNpc.Board.t) : Prop :=
  ∃ p, open_position board p.

(** An interpreter with the default limit of 4300 digits and a few rows
    of the Unicode tables: the superscripts two, three and one and the
    fractions of Latin-1 are numeric without being decimal digits, the
    Arabic-Indic digits and the fullwidth digits are decimal digits.  The
    examples run on it. *)
Definition sample_numeric (c : N) : numeric_kind :=
  if bool_decide (c = 178 ∨ c = 179 ∨ c = 185 ∨ c = 188 ∨ c = 189
                  ∨ c = 190)%N then Numeric
  else if ((1632 <=? c) && (c <=? 1641))%N then Decimal (Z.of_N c - 1632)
  else if ((65296 <=? c) && (c <=? 65305))%N then Decimal (Z.of_N c - 65296)
  else NotNumeric.

Definition sample_interpreter : interpreter.
Proof.
  refine {| unicode_numeric := sample_numeric;
            unicode_casefold := fun c => [c];
            int_max_str_digits := 4300 |}.
  - intros c d. unfold sample_numeric.
    case_bool_decide; [discriminate|].
    destruct (N.leb_spec 1632 c), (N.leb_spec c 1641); simpl;
      try (intros [= <-]; lia);
      destruct (N.leb_spec 65296 c), (N.leb_spec c 65305); simpl;
      try discriminate; intros [= <-]; lia.
  - intros c Hc. split; [discriminate|]. intros [= ->]. lia.
  - right. lia.
Defined.

(** The superscript two, the fullwidth digit five, and a line of 4300
    zeros and a five. *)
Definition superscript_two : str := [178%N].
Definition fullwidth_five : str := [65301%N].


(** Lines of a grid [g] that hold the mark [x] in all three cells. *)
Definition full_row {A} (g : list (list A)) (x : A) : Prop :=
  ∃ r, 0 ≤ r ≤ 2 ∧ ∀ c, 0 ≤ c ≤ 2 → getitem2 g r c = Ok x.

Definition full_col {A} (g : list (list A)) (x : A) : Prop :=
  ∃ c, 0 ≤ c ≤ 2 ∧ ∀ r, 0 ≤ r ≤ 2 → getitem2 g r c = Ok x.

Definition full_diag {A} (g : list (list A)) (x : A) : Prop :=
  (∀ i, 0 ≤ i ≤ 2 → getitem2 g i i = Ok x) ∨
  (∀ i, 0 ≤ i ≤ 2 → getitem2 g i (2 - i) = Ok x).

Definition three_in_line {A} (g : list (list A)) (x : A) : Prop :=
  full_row g x ∨ full_col g x ∨ full_diag g x.

(** The diagonal check as the specification words it, without the test of
    the centre cell first: either diagonal holds [x] in all three cells. *)
Definition plain_diags {A} `{EqDecision A} (g : list (list A)) (x : A)
    : result bool :=
  c00 ← getitem2 g 0 0;
  c11 ← getitem2 g 1 1;
  c22 ← getitem2 g 2 2;
  c02 ← getitem2 g 0 2;
  c20 ← getitem2 g 2 0;
  Ok (bool_decide (c00 = x ∧ c11 = x ∧ c22 = x)
      || bool_decide (c02 = x ∧ c11 = x ∧ c20 = x)).

(** ** The game as a transition system

    What one iteration of [main] can do to the board, the move counter,
    the player whose turn it is and the way the loop stands, whichever
    variant runs it.  [empty] is the mark of a free cell and [other] gives
    the opponent of a player. *)

Inductive phase : Set := Running | Won | Tied | Exited.

Record game (A : Type) : Type := Game {
  g_grid : list (list A);
  g_turn : Z;
  g_player : A;
  g_phase : phase
}.
Arguments Game {A} _ _ _ _.
Arguments g_grid {A} _.
Arguments g_turn {A} _.
Arguments g_player {A} _.
Arguments g_phase {A} _.

Inductive move {A} (empty : A) (other : A → A) : game A → game A → Prop :=
| move_rejected g n p :
    move empty other (Game g n p Running) (Game g n p Running)
| move_exit g n p :
    move empty other (Game g n p Running) (Game g n p Exited)
| move_win g n p rc g' :
    valid_coords rc →
    getitem2 g rc.1 rc.2 = Ok empty →
    setitem2 g rc.1 rc.2 p = Ok g' →
    three_in_line g' p →
    move empty other (Game g n p Running) (Game g' n p Won)
| move_tie g n p rc g' :
    valid_coords rc →
    getitem2 g rc.1 rc.2 = Ok empty →
    setitem2 g rc.1 rc.2 p = Ok g' →
    ¬ three_in_line g' p →
    n + 1 = 9 →
    move empty other (Game g n p Running) (Game g' (n + 1) p Tied)
| move_next g n p rc g' :
    valid_coords rc →
    getitem2 g rc.1 rc.2 = Ok empty →
    setitem2 g rc.1 rc.2 p = Ok g' →
    ¬ three_in_line g' p →
    n + 1 ≠ 9 →
    move empty other (Game g n p Running) (Game g' (n + 1) (other p) Running).

(** The number of cells of a grid that hold the mark [x]. *)
Definition count_row {A} `{EqDecision A} (x : A) (row : list A) : Z :=
  Z.of_nat (length (filter (fun c => c = x) row)).

Definition count_mark {A} `{EqDecision A} (x : A) (g : list (list A)) : Z :=
  foldr Z.add 0 (count_row x <$> g).

(** The counter while the game runs, and when it has ended. *)
Definition counter_bound {A} (v : game A) : Prop :=
  match g_phase v with
  | Running | Exited | Won => 0 ≤ g_turn v < 9
  | Tied => g_turn v = 9
  end.

(** The marks of the first player [x] against those of the second
    player [o]: equal when [x] is to move, one more when [o] is to move;
    after a win the winner has placed last, and a tie is completed by
    [x]. *)
Definition balance_rule {A} `{EqDecision A} (x o : A) (v : game A) : Prop :=
  let cx := count_mark x (g_grid v) in
  let co := count_mark o (g_grid v) in
  match g_phase v with
  | Running | Exited =>
      g_turn v = cx + co ∧
      ((g_player v = x ∧ cx = co) ∨ (g_player v = o ∧ cx = co + 1))
  | Won =>
      g_turn v + 1 = cx + co ∧
      ((g_player v = x ∧ cx = co + 1) ∨ (g_player v = o ∧ cx = co))
  | Tied => g_player v = x ∧ cx = 5 ∧ co = 4
  end.

(** Three in line against the way the loop stands. *)
Definition lines_rule {A} `{EqDecision A} (empty x o : A) (v : game A)
    : Prop :=
  match g_phase v with
  | Running | Exited =>
      ¬ three_in_line (g_grid v) x ∧ ¬ three_in_line (g_grid v) o
  | Won =>
      (g_player v = x ∧ three_in_line (g_grid v) x ∧
       ¬ three_in_line (g_grid v) o) ∨
      (g_player v = o ∧ three_in_line (g_grid v) o ∧
       ¬ three_in_line (g_grid v) x)
  | Tied =>
      marks empty (g_grid v) = 9 ∧
      ¬ three_in_line (g_grid v) x ∧ ¬ three_in_line (g_grid v) o
  end.

(** The counter against all marks on the board, as for the two variants
    above. *)
Definition counter_rule {A} `{EqDecision A} (empty : A) (v : game A)
    : Prop :=
  match g_phase v with
  | Won => g_turn v + 1 = marks empty (g_grid v)
  | _ => g_turn v = marks empty (g_grid v)
  end.

Definition game_inv {A} `{EqDecision A} (empty x o : A) (v : game A)
    : Prop :=
  shape3 (g_grid v) ∧ counter_rule empty v ∧ counter_bound v ∧
  balance_rule x o v ∧ lines_rule empty x o v.

(** Every mark on the board of [v] is still there on the board of [v']. *)
Definition marks_kept {A} (empty : A) (v v' : game A) : Prop :=
  ∀ rc c, valid_coords rc → c ≠ empty →
    getitem2 (g_grid v) rc.1 rc.2 = Ok c →
    getitem2 (g_grid v') rc.1 rc.2 = Ok c.

(** *** The three variants seen as games *)

Definition functional_phase (c : Functional.control) : phase :=
  match c with
  | Functional.Continue => Running
  | Functional.Break Functional.Win => Won
  | Functional.Break Functional.Tie => Tied
  | Functional.Break Functional.Exit => Exited
  end.

Definition functional_view (ls : Functional.loop_state)
    : game Functional.cell :=
  Game (Functional.board (Functional.globs ls))
       (Functional.turn (Functional.globs ls))
       (Some (Functional.player ls))
       (functional_phase (Functional.ctl ls)).

Definition functional_other (c : Functional.cell) : Functional.cell :=
  negb <$> c.

Definition oop_phase (c : Oop.control) : phase :=
  match c with
  | Oop.Continue => Running
  | Oop.Break Oop.Win => Won
  | Oop.Break Oop.Tie => Tied
  | Oop.Break Oop.Exit => Exited
  end.

Definition oop_view (ls : Oop.loop_state) : game Oop.Player :=
  Game (Oop.Board.grid (Oop.board (Oop.wld ls)))
       (Oop.Board.turn (Oop.board (Oop.wld ls)))
       (Oop.current_player ls)
       (oop_phase (Oop.ctl ls)).

Definition oop_other (p : Oop.Player) : Oop.Player :=
  match p with
  | Oop.PRIMARY => Oop.SECONDARY
  | Oop.SECONDARY => Oop.PRIMARY
  | Oop.EMPTY => Oop.EMPTY
  end.

Definition npc_phase (c : OopNpc.control) : phase :=
  match c with
  | OopNpc.Continue => Running
  | OopNpc.Break OopNpc.Win => Won
  | OopNpc.Break OopNpc.Tie => Tied
  | OopNpc.Break OopNpc.Exit => Exited
  end.

Definition npc_view (ls : OopNpc.loop_state) : game OopNpc.Player :=
  Game (OopNpc.Board.grid (OopNpc.board (OopNpc.wld ls)))
       (OopNpc.Board.turn (OopNpc.board (OopNpc.wld ls)))
       (OopNpc.current_player ls)
       (npc_phase (OopNpc.ctl ls)).

Definition npc_other (p : OopNpc.Player) : OopNpc.Player :=
  match p with
  | OopNpc.PLAYER => OopNpc.COMPUTER
  | OopNpc.COMPUTER => OopNpc.PLAYER
  | OopNpc.EMPTY => OopNpc.EMPTY
  end.

(** *** Printed boards and typed lines *)

(** The text [display] writes for a grid: an empty line, a line for each
    row with a space after each glyph, and an empty line. *)
Definition rendered_row {A} (glyph : A → string) (row : list A) : string :=
  foldr (fun c rest => glyph c ++ " " ++ rest)%string newline row.

Definition rendered {A} (glyph : A → string) (g : list (list A)) : string :=
  (newline
   ++ foldr (fun row rest => rendered_row glyph row ++ rest) newline g)%string.

(** [k] zeros. *)
Definition zeros (k : nat) : str := replicate k 48%N.

(** A character of [s] that is not a decimal digit. *)
Definition has_non_decimal (py : interpreter) (s : str) : Prop :=
  ∃ c, c ∈ s ∧ ∀ d, numeric_type py c ≠ Decimal d.

(** What an input routine [f] returns and raises: a number for a numeric
    line only, the number [int] gives for it, within 1..9; the three
    exceptions of the program and [ValueError]; and [ValueError] for the
    numeric lines that hold a character that is no decimal digit or that
    are longer than [int] converts, and for no other line. *)
Definition returns_validated (py : interpreter) (f : str → result Z)
    : Prop :=
  ∀ s,
    (∀ n, f s = Ok n →
       isnumeric py s = true ∧ int py s = Ok n ∧ 1 ≤ n ≤ 9) ∧
    (∀ e, f s = Raise e →
       e = UserExit ∨ e = InvalidInput ∨ e = InputOutOfBounds
       ∨ e = ValueError) ∧
    (f s = Raise ValueError ↔
     isnumeric py s = true ∧
     (has_non_decimal py s ∨ too_long py s = true)).

Definition quits_on_q_only (py : interpreter) (f : str → result Z) : Prop :=
  ∀ s, f s = Raise UserExit ↔ s = text "q" ∨ s = text "Q".

Definition out_of_bounds_values (py : interpreter) (f : str → result Z)
    : Prop :=
  ∀ s, f s = Raise InputOutOfBounds ↔
       isnumeric py s = true ∧ ∃ n, int py s = Ok n ∧ (n = 0 ∨ 10 ≤ n).

(** Zeros in front of a numeric line: nothing changes while [int]
    converts the longer line, and [ValueError] is raised when it does
    not. *)
Definition ignores_leading_zeros (py : interpreter) (f : str → result Z)
    : Prop :=
  ∀ k s, isnumeric py s = true →
    (too_long py (zeros k ++ s) = false → f (zeros k ++ s) = f s) ∧
    (too_long py (zeros k ++ s) = true →
     f (zeros k ++ s) = Raise ValueError).

(** No line of [lines] makes the input routine raise [ValueError], and
    some line does. *)
Definition converted (py : interpreter) (lines : list str) : Prop :=
  Forall (fun s => Oop.get_user_input py s ≠ Raise ValueError) lines.

Definition refused (py : interpreter) (lines : list str) : Prop :=
  Exists (fun s => Oop.get_user_input py s = Raise ValueError) lines.

(** Inputs whose samples are all values [random.randint(1, 9)] can
    return. *)
Definition valid_inputs (inputs : list OopNpc.input) : Prop :=
  Forall (fun i => Forall valid_position (OopNpc.samples i)) inputs.

(** Every position of 1..9 is taken. *)
Definition full_board (board : OopNpc.Board.t) : Prop :=
  ∀ p, valid_position p → OopNpc.Board.is_taken p board = (Ok true, board).

(** ** Subscripting *)

Section Subscript.
Context {A : Type}.
Implicit Types (l : list A) (g : list (list A)) (i : Z) (n : nat).

Lemma py_index_Ok len i n :
  py_index len i = Ok n →
  (n < len)%nat ∧ (i = Z.of_nat n ∨ i = Z.of_nat n - Z.of_nat len).
Proof.
  unfold py_index. cbv zeta.
  destruct (Z.ltb_spec i 0) as [Hi|Hi]; cbv beta iota.
  - destruct (Z.ltb_spec (i + Z.of_nat len) 0); [discriminate|].
    destruct (Z.leb_spec (Z.of_nat len) (i + Z.of_nat len)); [discriminate|].
    simpl. intros [= <-]. lia.
  - destruct (Z.ltb_spec i 0); [lia|].
    destruct (Z.leb_spec (Z.of_nat len) i); [discriminate|].
    simpl. intros [= <-]. lia.
Qed.

Lemma py_index_nonneg len i :
  0 ≤ i < Z.of_nat len → py_index len i = Ok (Z.to_nat i).
Proof.
  intros Hi. unfold py_index. cbv zeta.
  destruct (Z.ltb_spec i 0); [lia|]. cbv beta iota.
  destruct (Z.ltb_spec i 0); [lia|].
  destruct (Z.leb_spec (Z.of_nat len) i); [lia|]. reflexivity.
Qed.

Lemma py_index_outside len i :
  i < - Z.of_nat len ∨ Z.of_nat len ≤ i → py_index len i = Raise IndexError.
Proof.
  intros Hi. unfold py_index. cbv zeta.
  destruct (Z.ltb_spec i 0); cbv beta iota.
  - destruct (Z.ltb_spec (i + Z.of_nat len) 0); [reflexivity|lia].
  - destruct (Z.ltb_spec i 0); [lia|].
    destruct (Z.leb_spec (Z.of_nat len) i); [reflexivity|lia].
Qed.

Lemma getitem_nonneg l i x :
  0 ≤ i → getitem l i = Ok x ↔ l !! Z.to_nat i = Some x.
Proof.
  intros Hi. unfold getitem. split.
  - destruct (py_index (length l) i) as [n|e] eqn:E; [|discriminate].
    apply py_index_Ok in E as [Hn [->| ->]]; [|lia].
    rewrite Nat2Z.id. simpl. destruct (l !! n); [|discriminate]. congruence.
  - intros Hl. pose proof (lookup_lt_Some _ _ _ Hl).
    rewrite py_index_nonneg by lia. simpl. rewrite Hl. reflexivity.
Qed.

Lemma setitem_nonneg l i x :
  0 ≤ i < Z.of_nat (length l) → setitem l i x = Ok (<[Z.to_nat i:=x]> l).
Proof.
  intros Hi. unfold setitem. rewrite py_index_nonneg by done. reflexivity.
Qed.

Lemma shape3_inv g :
  shape3 g →
  ∃ a b c d e f h j k, g = [[a; b; c]; [d; e; f]; [h; j; k]].
Proof.
  intros [Hlen Hrows].
  destruct g as [|r1 [|r2 [|r3 [|? ?]]]]; try discriminate.
  apply Forall_cons in Hrows as [H1 Hrows].
  apply Forall_cons in Hrows as [H2 Hrows].
  apply Forall_cons in Hrows as [H3 _].
  destruct r1 as [|? [|? [|? [|? ?]]]]; try discriminate.
  destruct r2 as [|? [|? [|? [|? ?]]]]; try discriminate.
  destruct r3 as [|? [|? [|? [|? ?]]]]; try discriminate.
  eauto 10.
Qed.

End Subscript.

(** ** Position to coordinates *)

Lemma valid_position_cases p :
  valid_position p →
  p = 1 ∨ p = 2 ∨ p = 3 ∨ p = 4 ∨ p = 5 ∨ p = 6 ∨ p = 7 ∨ p = 8 ∨ p = 9.
Proof. unfold valid_position. lia. Qed.

Lemma get_coords_div_mod p :
  0 ≤ p - 1 →
  Oop.Board.get_coords p = ((p - 1) / 3, (p - 1) mod 3).
Proof.
  intros Hp. unfold Oop.Board.get_coords. cbv zeta. f_equal.
  destruct (Z.gtb_spec (p - 1) 2) as [Hgt|Hle]; [reflexivity|].
  symmetry. apply Z.mod_small. lia.
Qed.

Lemma get_coords_position_mapping : position_mapping Oop.Board.get_coords.
Proof.
  split; [|split].
  - intros p Hp. unfold valid_position in Hp.
    rewrite get_coords_div_mod by lia. split; [reflexivity|].
    unfold valid_coords. simpl.
    pose proof (Z.mod_pos_bound (p - 1) 3).
    assert (0 ≤ (p - 1) / 3) by (apply Z.div_pos; lia).
    assert ((p - 1) / 3 < 3) by (apply Z.div_lt_upper_bound; lia).
    lia.
  - intros p q Hp Hq. unfold valid_position in *.
    rewrite !get_coords_div_mod by lia.
    intros [= Hdiv Hmod].
    pose proof (Z.div_mod (p - 1) 3). pose proof (Z.div_mod (q - 1) 3). lia.
  - intros [r c] [Hr Hc]. simpl in *. exists (3 * r + c + 1). split.
    + unfold valid_position. lia.
    + rewrite get_coords_div_mod by lia.
      replace (3 * r + c + 1 - 1) with (c + r * 3) by lia.
      rewrite Z.div_add, Z.mod_add by lia.
      rewrite Z.div_small, Z.mod_small by lia. reflexivity.
Qed.

(** C2.  In each variant the conversion of a position in 1..9 is the
    quotient and the remainder of the position less one by three, both
    within 0..2, and it maps the nine positions one-to-one onto the nine
    grid coordinates. *)
Theorem C2_position_to_coords_bijection :
  position_mapping Functional.linear_position_to_coords ∧
  position_mapping Oop.Board.get_coords ∧
  position_mapping OopNpc.Board.get_coords.
Proof.
  split; [|split]; exact get_coords_position_mapping.
Qed.

Lemma C2_position_to_coords_bijection_witness :
  Functional.linear_position_to_coords 6 = ((6 - 1) / 3, (6 - 1) mod 3) ∧
  valid_coords (OopNpc.Board.get_coords 6).
Proof.
  destruct C2_position_to_coords_bijection as [[Hf _] [_ [Hn _]]].
  split.
  - apply Hf. unfold valid_position. lia.
  - apply Hn. unfold valid_position. lia.
Defined.

(** ** Player rotation *)

(** C6.  [Players.switch] flips [_current] and returns the player that
    [Players.current] returns afterwards; two calls in a row bring the
    rotation back to the player, and the state, it started from. *)
Theorem C6_switch_flips_and_returns_current :
  (∀ cls : Oop.Players.state,
      let '(p, cls') := Oop.Players.switch cls in
      Oop.Players._current cls' = negb (Oop.Players._current cls) ∧
      p = Oop.Players.current cls' ∧
      let '(p2, cls'') := Oop.Players.switch cls' in
      p2 = Oop.Players.current cls ∧
      Oop.Players.current cls'' = Oop.Players.current cls ∧ cls'' = cls) ∧
  (∀ cls : OopNpc.Players.state,
      let '(p, cls') := OopNpc.Players.switch cls in
      OopNpc.Players._current cls' = negb (OopNpc.Players._current cls) ∧
      p = OopNpc.Players.current cls' ∧
      let '(p2, cls'') := OopNpc.Players.switch cls' in
      p2 = OopNpc.Players.current cls ∧
      OopNpc.Players.current cls'' = OopNpc.Players.current cls ∧
      cls'' = cls).
Proof.
  split; intros [[]]; repeat split.
Qed.

(** ** Input validation *)

Lemma numeric_type_range py c d :
  numeric_type py c = Decimal d → 0 ≤ d ≤ 9.
Proof.
  unfold numeric_type. destruct (N.ltb_spec c 128).
  - destruct (N.leb_spec 48 c), (N.leb_spec c 57); simpl;
      try discriminate.
    intros [= <-]. lia.
  - apply unicode_decimal_range.
Qed.

Lemma casefold_char_ascii py c :
  (c < 128)%N →
  casefold_char py c = [if ((65 <=? c) && (c <=? 90))%N then (c + 32)%N
                        else c].
Proof.
  intros Hc. unfold casefold_char. by destruct (N.ltb_spec c 128); [|lia].
Qed.

Lemma casefold_char_nonempty py c : casefold_char py c ≠ [].
Proof.
  unfold casefold_char. destruct (N.ltb_spec c 128); [discriminate|].
  by apply unicode_casefold_q.
Qed.

Lemma casefold_nil py s : casefold py s = [] → s = [].
Proof.
  destruct s as [|c s]; [done|]. simpl.
  intros [Hc _]%app_eq_nil. by apply casefold_char_nonempty in Hc.
Qed.

Lemma casefold_char_q py c :
  casefold_char py c = [113%N] → c = 113%N ∨ c = 81%N.
Proof.
  unfold casefold_char. destruct (N.ltb_spec c 128) as [Hc|Hc].
  - destruct (N.leb_spec 65 c), (N.leb_spec c 90); simpl;
      intros [= ?]; lia.
  - intros Hq. by apply (unicode_casefold_q py c Hc) in Hq.
Qed.

(** Only the lines "q" and "Q" fold to "q". *)
Lemma casefold_q_iff py s :
  casefold py s = text "q" ↔ s = text "q" ∨ s = text "Q".
Proof.
  split; [|by intros [-> | ->]].
  destruct s as [|c s]; [discriminate|]. simpl casefold.
  change (text "q") with [113%N]. intros Hq.
  pose proof (casefold_char_nonempty py c) as Hne.
  destruct (casefold_char py c) as [|x [|y l]] eqn:Hc; [done| |].
  - simpl in Hq. injection Hq as -> Hs. apply casefold_nil in Hs as ->.
    apply casefold_char_q in Hc as [-> | ->]; auto.
  - simpl in Hq. discriminate.
Qed.

Lemma isnumeric_not_quit py s :
  isnumeric py s = true → casefold py s ≠ text "q".
Proof.
  intros Hnum [-> | ->]%casefold_q_iff; discriminate.
Qed.

Lemma get_user_input_as_int_eq py s :
  Functional.get_user_input_as_int py s = Oop.get_user_input py s.
Proof.
  unfold Functional.get_user_input_as_int, Oop.get_user_input.
  repeat case_bool_decide; try reflexivity.
  destruct (negb (isnumeric py s)); [reflexivity|].
  destruct (int py s) as [n|e]; [|reflexivity]. simpl.
  destruct (Z.ltb_spec n 1), (Z.gtb_spec n 9),
    (Z.leb_spec 1 n), (Z.leb_spec n 9);
    try reflexivity; lia.
Qed.

(** *** What [int] returns and raises *)

Lemma int_acc_raises py s : ∀ acc e,
  int_acc py acc s = Raise e → e = ValueError.
Proof.
  induction s as [|c s IH]; intros acc e; simpl; [discriminate|].
  destruct (numeric_type py c); [apply IH|congruence..].
Qed.

Lemma int_raises py s e : int py s = Raise e → e = ValueError.
Proof.
  unfold int. destruct s; [congruence|].
  destruct (too_long py _); [congruence|]. apply int_acc_raises.
Qed.

Lemma int_acc_lower py s : ∀ acc n,
  0 ≤ acc → int_acc py acc s = Ok n → acc ≤ n.
Proof.
  induction s as [|c s IH]; intros acc n Hacc; simpl.
  - intros [= <-]. lia.
  - destruct (numeric_type py c) as [d| |] eqn:Hc; try discriminate.
    apply numeric_type_range in Hc. intros Hn%IH; lia.
Qed.

Lemma int_nonneg py s n : int py s = Ok n → 0 ≤ n.
Proof.
  unfold int. destruct s; [discriminate|].
  destruct (too_long py _); [discriminate|]. by apply int_acc_lower.
Qed.

Lemma int_acc_non_decimal py s : ∀ acc,
  int_acc py acc s = Raise ValueError ↔ has_non_decimal py s.
Proof.
  unfold has_non_decimal.
  induction s as [|c s IH]; intros acc; simpl.
  - split; [discriminate|]. by intros (c & ?%elem_of_nil & _).
  - destruct (numeric_type py c) as [d| |] eqn:Hc.
    + rewrite IH. split.
      * intros (c' & Hin & Hd). exists c'. split; [by right|done].
      * intros (c' & [-> | Hin]%elem_of_cons & Hd);
          [by destruct (Hd d)|by exists c'].
    + split; [|done]. intros _. exists c. split; [by left|].
      intros d. by rewrite Hc.
    + split; [|done]. intros _. exists c. split; [by left|].
      intros d. by rewrite Hc.
Qed.

Lemma int_ValueError py s :
  s ≠ [] →
  int py s = Raise ValueError ↔
  has_non_decimal py s ∨ too_long py s = true.
Proof.
  intros Hs. unfold int. destruct s as [|c s]; [done|].
  destruct (too_long py (c :: s)).
  - split; auto.
  - rewrite int_acc_non_decimal. split; [auto|]. by intros [|].
Qed.

Lemma isnumeric_nonempty py s : isnumeric py s = true → s ≠ [].
Proof. by destruct s. Qed.

(** *** The tests of the routine, one after the other *)

Lemma get_user_input_cases py s :
  (casefold py s = text "q" ∧ Oop.get_user_input py s = Raise UserExit) ∨
  (casefold py s ≠ text "q" ∧ isnumeric py s = false ∧
   Oop.get_user_input py s = Raise InvalidInput) ∨
  (casefold py s ≠ text "q" ∧ isnumeric py s = true ∧
   int py s = Raise ValueError ∧
   Oop.get_user_input py s = Raise ValueError) ∨
  (casefold py s ≠ text "q" ∧ isnumeric py s = true ∧
   ∃ n, int py s = Ok n ∧ ¬ 1 ≤ n ≤ 9 ∧
        Oop.get_user_input py s = Raise InputOutOfBounds) ∨
  (casefold py s ≠ text "q" ∧ isnumeric py s = true ∧
   ∃ n, int py s = Ok n ∧ 1 ≤ n ≤ 9 ∧ Oop.get_user_input py s = Ok n).
Proof.
  unfold Oop.get_user_input. case_bool_decide as Hq; [by left|]. right.
  destruct (isnumeric py s); simpl; [|by left]. right.
  destruct (int py s) as [n|e] eqn:Hint; simpl.
  - right.
    destruct (Z.leb_spec 1 n), (Z.leb_spec n 9); simpl;
      [right|left..]; (split; [done|]); (split; [done|]); exists n;
      (split; [done|]); (split; [lia|done]).
  - left. apply int_raises in Hint as ->. done.
Qed.

Lemma get_user_input_valid py s n :
  Oop.get_user_input py s = Ok n → valid_position n.
Proof.
  intros Hn.
  destruct (get_user_input_cases py s)
    as [[_ H]|[(_ & _ & H)|[(_ & _ & _ & H)|[(_ & _ & m & _ & _ & H)
        |(_ & _ & m & _ & Hr & H)]]]];
    rewrite H in Hn; try discriminate.
  by injection Hn as <-.
Qed.

Lemma get_user_input_raises py s e :
  Oop.get_user_input py s = Raise e →
  e = UserExit ∨ e = InvalidInput ∨ e = InputOutOfBounds ∨ e = ValueError.
Proof.
  intros He.
  destruct (get_user_input_cases py s)
    as [[_ H]|[(_ & _ & H)|[(_ & _ & _ & H)|[(_ & _ & m & _ & _ & H)
        |(_ & _ & m & _ & Hr & H)]]]];
    rewrite H in He; try discriminate; injection He as <-; auto.
Qed.





(** ** Lines of a three by three grid *)

Section Lines.
Context {A : Type}.
Implicit Types (a b c d e f h j k x : A).

Lemma index3_cases (i : Z) : 0 ≤ i ≤ 2 → i = 0 ∨ i = 1 ∨ i = 2.
Proof. lia. Qed.

Lemma full_row_3x3 a b c d e f h j k x :
  full_row [[a; b; c]; [d; e; f]; [h; j; k]] x ↔
  (a = x ∧ b = x ∧ c = x) ∨ (d = x ∧ e = x ∧ f = x) ∨
  (h = x ∧ j = x ∧ k = x).
Proof.
  split.
  - intros (r & Hr & Hcells).
    pose proof (Hcells 0 ltac:(lia)) as H0.
    pose proof (Hcells 1 ltac:(lia)) as H1.
    pose proof (Hcells 2 ltac:(lia)) as H2.
    destruct (index3_cases r Hr) as [-> | [-> | ->]];
      injection H0 as <-; injection H1 as <-; injection H2 as <-; tauto.
  - intros [(-> & -> & ->) | [(-> & -> & ->) | (-> & -> & ->)]];
      [exists 0 | exists 1 | exists 2]; (split; [lia|]);
      intros i Hi; destruct (index3_cases i Hi) as [-> | [-> | ->]];
      reflexivity.
Qed.

Lemma full_col_3x3 a b c d e f h j k x :
  full_col [[a; b; c]; [d; e; f]; [h; j; k]] x ↔
  (a = x ∧ d = x ∧ h = x) ∨ (b = x ∧ e = x ∧ j = x) ∨
  (c = x ∧ f = x ∧ k = x).
Proof.
  split.
  - intros (i & Hi & Hcells).
    pose proof (Hcells 0 ltac:(lia)) as H0.
    pose proof (Hcells 1 ltac:(lia)) as H1.
    pose proof (Hcells 2 ltac:(lia)) as H2.
    destruct (index3_cases i Hi) as [-> | [-> | ->]];
      injection H0 as <-; injection H1 as <-; injection H2 as <-; tauto.
  - intros [(-> & -> & ->) | [(-> & -> & ->) | (-> & -> & ->)]];
      [exists 0 | exists 1 | exists 2]; (split; [lia|]);
      intros i Hi; destruct (index3_cases i Hi) as [-> | [-> | ->]];
      reflexivity.
Qed.

Lemma full_diag_3x3 a b c d e f h j k x :
  full_diag [[a; b; c]; [d; e; f]; [h; j; k]] x ↔
  (a = x ∧ e = x ∧ k = x) ∨ (c = x ∧ e = x ∧ h = x).
Proof.
  split.
  - intros [Hcells | Hcells];
      pose proof (Hcells 0 ltac:(lia)) as H0;
      pose proof (Hcells 1 ltac:(lia)) as H1;
      pose proof (Hcells 2 ltac:(lia)) as H2;
      injection H0 as <-; injection H1 as <-; injection H2 as <-; tauto.
  - intros [(-> & -> & ->) | (-> & -> & ->)]; [left | right];
      intros i Hi; destruct (index3_cases i Hi) as [-> | [-> | ->]];
      reflexivity.
Qed.

End Lines.

(** ** The win check *)

(** Case analysis on every comparison of cells in the goal. *)
Ltac case_cells :=
  repeat (case_bool_decide; simpl); simplify_eq.

Lemma functional_check_rows_3x3 player a b c d e f h j k :
  ∃ r, Functional.check_rows_loop player None
         [[a; b; c]; [d; e; f]; [h; j; k]] = Ok r ∧
       (r = true ↔
        full_row [[a; b; c]; [d; e; f]; [h; j; k]] (Some player)).
Proof.
  simpl.
  case_cells; (eexists; split; [reflexivity|]);
    rewrite full_row_3x3; intuition congruence.
Qed.

Lemma functional_check_cols_3x3 player a b c d e f h j k :
  ∃ r, Functional.check_cols_loop [[a; b; c]; [d; e; f]; [h; j; k]] player
         None (range Functional._BOARD_COLS) = Ok r ∧
       (r = true ↔
        full_col [[a; b; c]; [d; e; f]; [h; j; k]] (Some player)).
Proof.
  simpl.
  case_cells; (eexists; split; [reflexivity|]);
    rewrite full_col_3x3; intuition congruence.
Qed.

Lemma plain_diags_3x3 {A} `{EqDecision A} (a b c d e f h j k x : A) :
  ∃ r, plain_diags [[a; b; c]; [d; e; f]; [h; j; k]] x = Ok r ∧
       (r = true ↔ full_diag [[a; b; c]; [d; e; f]; [h; j; k]] x).
Proof.
  unfold plain_diags. simpl.
  case_cells; (eexists; split; [reflexivity|]);
    rewrite full_diag_3x3; intuition congruence.
Qed.

Lemma functional_check_diags_plain g player :
  shape3 (Functional.board g) →
  Functional.check_diags player g
  = (plain_diags (Functional.board g) (Some player), g).
Proof.
  destruct g as [G n]. simpl.
  intros (a & b & c & d & e & f & h & j & k & ->)%shape3_inv.
  unfold Functional.check_diags, plain_diags, reads. simpl.
  case_cells; try reflexivity; exfalso; intuition congruence.
Qed.

Lemma oop_check_diags_plain self player :
  shape3 (Oop.Board.grid self) →
  Oop.Board._check_diags player self
  = (plain_diags (Oop.Board.grid self) player, self).
Proof.
  destruct self as [G n]. simpl.
  intros (a & b & c & d & e & f & h & j & k & ->)%shape3_inv.
  unfold Oop.Board._check_diags, plain_diags, reads. simpl.
  case_cells; try reflexivity; exfalso; intuition congruence.
Qed.

Lemma npc_check_diags_plain self player :
  shape3 (OopNpc.Board.grid self) →
  OopNpc.Board._check_diags player self
  = (plain_diags (OopNpc.Board.grid self) player, self).
Proof.
  destruct self as [G n]. simpl.
  intros (a & b & c & d & e & f & h & j & k & ->)%shape3_inv.
  unfold OopNpc.Board._check_diags, plain_diags, reads. simpl.
  case_cells; try reflexivity; exfalso; intuition congruence.
Qed.

(** C7.  On a three by three grid the diagonal check, which looks at the
    centre cell first, returns what the plain check of the two diagonals
    returns, and leaves the board as it was. *)
Theorem C7_centre_prefilter_changes_nothing :
  (∀ g player, shape3 (Functional.board g) →
     Functional.check_diags player g
     = (plain_diags (Functional.board g) (Some player), g)) ∧
  (∀ self player, shape3 (Oop.Board.grid self) →
     Oop.Board._check_diags player self
     = (plain_diags (Oop.Board.grid self) player, self)) ∧
  (∀ self player, shape3 (OopNpc.Board.grid self) →
     OopNpc.Board._check_diags player self
     = (plain_diags (OopNpc.Board.grid self) player, self)).
Proof.
  split; [|split].
  - exact functional_check_diags_plain.
  - exact oop_check_diags_plain.
  - exact npc_check_diags_plain.
Qed.

Lemma C7_centre_prefilter_changes_nothing_witness :
  shape3 (Oop.Board.grid Oop.Board.__init__) ∧
  Oop.Board._check_diags Oop.PRIMARY Oop.Board.__init__
  = (plain_diags (Oop.Board.grid Oop.Board.__init__) Oop.PRIMARY,
     Oop.Board.__init__).
Proof.
  assert (Hshape : shape3 (Oop.Board.grid Oop.Board.__init__)).
  { split; [reflexivity|]. simpl. repeat constructor. }
  split; [exact Hshape|].
  destruct C7_centre_prefilter_changes_nothing as (_ & Hoop & _).
  apply Hoop. exact Hshape.
Defined.

(** *** [functional.py] *)

Lemma functional_chicken_dinner_3x3 g player :
  shape3 (Functional.board g) →
  ∃ r, Functional.chicken_dinner player g = (Ok r, g) ∧
       (r = true ↔ three_in_line (Functional.board g) (Some player)).
Proof.
  intros Hshape. pose proof (functional_check_diags_plain g player Hshape).
  destruct g as [G n]. simpl in Hshape.
  destruct (shape3_inv G Hshape)
    as (a & b & c & d & e & f & h & j & k & ->).
  destruct (functional_check_rows_3x3 player a b c d e f h j k)
    as (rr & Err & Hrows).
  destruct (functional_check_cols_3x3 player a b c d e f h j k)
    as (rc & Erc & Hcols).
  destruct (plain_diags_3x3 a b c d e f h j k (Some player))
    as (rd & Erd & Hdiags).
  cbv beta iota zeta delta
    [Functional.chicken_dinner mbind M_bind mret M_ret Functional.check_rows
     Functional.check_cols reads Functional.board].
  unfold three_in_line. rewrite Err. destruct rr.
  { eexists; split; [reflexivity|]. intuition congruence. }
  rewrite Erc. destruct rc.
  { eexists; split; [reflexivity|]. intuition congruence. }
  rewrite H. cbn [Functional.board]. rewrite Erd.
  eexists; split; [reflexivity|]. destruct rd; intuition congruence.
Qed.

(** *** [oop.py] *)

Lemma oop_check_rows_3x3 player a b c d e f h j k :
  Oop.Board._check_rows_loop player [[a; b; c]; [d; e; f]; [h; j; k]] = true
  ↔ full_row [[a; b; c]; [d; e; f]; [h; j; k]] player.
Proof.
  rewrite full_row_3x3. simpl. case_cells; intuition congruence.
Qed.

Lemma oop_check_cols_3x3 player a b c d e f h j k :
  ∃ r, Oop.Board._check_cols_loop [[a; b; c]; [d; e; f]; [h; j; k]] player
         (range Oop.Board._COLS) = Ok r ∧
       (r = true ↔ full_col [[a; b; c]; [d; e; f]; [h; j; k]] player).
Proof.
  simpl.
  case_cells; (eexists; split; [reflexivity|]);
    rewrite full_col_3x3; intuition congruence.
Qed.

Lemma oop_is_winner_3x3 self player :
  shape3 (Oop.Board.grid self) →
  (three_in_line (Oop.Board.grid self) player ∧
   Oop.Board.is_winner player self = (Raise WinnerWinnerChickenDinner, self))
  ∨
  (¬ three_in_line (Oop.Board.grid self) player ∧
   Oop.Board.is_winner player self = (Ok (), self)).
Proof.
  intros Hshape. pose proof (oop_check_diags_plain self player Hshape).
  destruct self as [G n]. simpl in Hshape.
  destruct (shape3_inv G Hshape)
    as (a & b & c & d & e & f & h & j & k & ->).
  pose proof (oop_check_rows_3x3 player a b c d e f h j k) as Hrows.
  destruct (oop_check_cols_3x3 player a b c d e f h j k)
    as (rc & Erc & Hcols).
  destruct (plain_diags_3x3 a b c d e f h j k player)
    as (rd & Erd & Hdiags).
  cbv beta iota zeta delta
    [Oop.Board.is_winner mbind M_bind mret M_ret Oop.Board._check_rows
     Oop.Board._check_cols reads raise Oop.Board.grid].
  unfold three_in_line.
  destruct (Oop.Board._check_rows_loop _ _).
  { left. split; [|reflexivity]. intuition congruence. }
  rewrite Erc. destruct rc.
  { left. split; [|reflexivity]. intuition congruence. }
  rewrite H. cbn [Oop.Board.grid]. rewrite Erd.
  destruct rd; [left | right]; (split; [|reflexivity]); intuition congruence.
Qed.

(** *** [oop_npc.py] *)

Lemma npc_check_rows_3x3 (player a b c d e f h j k : OopNpc.Player) :
  replicate OopNpc.Board._SIZE player ∈ [[a; b; c]; [d; e; f]; [h; j; k]]
  ↔ full_row [[a; b; c]; [d; e; f]; [h; j; k]] player.
Proof.
  rewrite full_row_3x3. simpl. rewrite !elem_of_cons, elem_of_nil. split.
  - intros [[= -> -> ->] | [[= -> -> ->] | [[= -> -> ->] | []]]]; tauto.
  - intros [(-> & -> & ->) | [(-> & -> & ->) | (-> & -> & ->)]]; tauto.
Qed.

Lemma npc_check_cols_3x3 player a b c d e f h j k :
  ∃ r, OopNpc.Board._check_cols_loop [[a; b; c]; [d; e; f]; [h; j; k]] player
         (range OopNpc.Board._SIZE) = Ok r ∧
       (r = true ↔ full_col [[a; b; c]; [d; e; f]; [h; j; k]] player).
Proof.
  simpl.
  case_cells; (eexists; split; [reflexivity|]);
    rewrite full_col_3x3; intuition congruence.
Qed.

Lemma npc_is_winner_3x3 self player :
  shape3 (OopNpc.Board.grid self) →
  (three_in_line (OopNpc.Board.grid self) player ∧
   OopNpc.Board.is_winner player self
   = (Raise WinnerWinnerChickenDinner, self))
  ∨
  (¬ three_in_line (OopNpc.Board.grid self) player ∧
   OopNpc.Board.is_winner player self = (Ok (), self)).
Proof.
  intros Hshape. pose proof (npc_check_diags_plain self player Hshape).
  destruct self as [G n]. simpl in Hshape.
  destruct (shape3_inv G Hshape)
    as (a & b & c & d & e & f & h & j & k & ->).
  pose proof (npc_check_rows_3x3 player a b c d e f h j k) as Hrows.
  destruct (npc_check_cols_3x3 player a b c d e f h j k)
    as (rc & Erc & Hcols).
  destruct (plain_diags_3x3 a b c d e f h j k player)
    as (rd & Erd & Hdiags).
  cbv beta iota zeta delta
    [OopNpc.Board.is_winner mbind M_bind mret M_ret OopNpc.Board._check_rows
     OopNpc.Board._check_cols reads raise OopNpc.Board.grid].
  unfold three_in_line. case_bool_decide.
  { left. split; [|reflexivity]. intuition congruence. }
  rewrite Erc. destruct rc.
  { left. split; [|reflexivity]. intuition congruence. }
  rewrite H. cbn [OopNpc.Board.grid]. rewrite Erd.
  destruct rd; [left | right]; (split; [|reflexivity]); intuition congruence.
Qed.

(** C1.  On a three by three grid the win check reports a win for a
    player exactly when a full row, a full column or a full diagonal
    holds that player's mark: [chicken_dinner] returns [True] then and
    [False] otherwise, and [is_winner] raises
    [WinnerWinnerChickenDinner] then and returns otherwise.  The check
    leaves the board as it was. *)
Theorem C1_win_check_iff_three_in_line :
  (∀ g player, shape3 (Functional.board g) →
     ∃ r, Functional.chicken_dinner player g = (Ok r, g) ∧
          (r = true ↔ three_in_line (Functional.board g) (Some player))) ∧
  (∀ self player, shape3 (Oop.Board.grid self) →
     (three_in_line (Oop.Board.grid self) player ∧
      Oop.Board.is_winner player self
      = (Raise WinnerWinnerChickenDinner, self))
     ∨
     (¬ three_in_line (Oop.Board.grid self) player ∧
      Oop.Board.is_winner player self = (Ok (), self))) ∧
  (∀ self player, shape3 (OopNpc.Board.grid self) →
     (three_in_line (OopNpc.Board.grid self) player ∧
      OopNpc.Board.is_winner player self
      = (Raise WinnerWinnerChickenDinner, self))
     ∨
     (¬ three_in_line (OopNpc.Board.grid self) player ∧
      OopNpc.Board.is_winner player self = (Ok (), self))).
Proof.
  split; [|split].
  - exact functional_chicken_dinner_3x3.
  - exact oop_is_winner_3x3.
  - exact npc_is_winner_3x3.
Qed.

Lemma C1_win_check_iff_three_in_line_witness :
  let g := {| Functional.board :=
                [[Some true; Some false; None];
                 [Some false; Some true; None];
                 [None; None; Some true]];
              Functional.turn := 4 |} in
  shape3 (Functional.board g) ∧
  ∃ r, Functional.chicken_dinner true g = (Ok r, g) ∧
       (r = true ↔ three_in_line (Functional.board g) (Some true)).
Proof.
  intros g.
  assert (Hshape : shape3 (Functional.board g)).
  { split; [reflexivity|]. simpl. repeat constructor. }
  split; [exact Hshape|].
  destruct C1_win_check_iff_three_in_line as (Hf & _ & _).
  apply Hf. exact Hshape.
Defined.

(** ** Stores into the grid *)

Section Store.
Context {A : Type}.
Implicit Types (l : list A) (g : list (list A)) (i : Z) (n : nat).

Lemma setitem_Ok_nonneg l i x l' :
  0 ≤ i → setitem l i x = Ok l' →
  (Z.to_nat i < length l)%nat ∧ l' = <[Z.to_nat i:=x]> l.
Proof.
  intros Hi. unfold setitem.
  destruct (py_index (length l) i) as [n|e] eqn:E; [|discriminate].
  apply py_index_Ok in E as [Hn [-> | ->]]; [|lia].
  rewrite Nat2Z.id. simpl. intros [= <-]. done.
Qed.

Lemma getitem_insert_same l i x :
  0 ≤ i → (Z.to_nat i < length l)%nat →
  getitem (<[Z.to_nat i:=x]> l) i = Ok x.
Proof.
  intros Hi Hn. apply getitem_nonneg; [done|].
  by apply list_lookup_insert_eq.
Qed.

Lemma getitem_insert_other l n x i :
  0 ≤ i → Z.to_nat i ≠ n → getitem (<[n:=x]> l) i = getitem l i.
Proof.
  intros Hi Hne. unfold getitem. rewrite length_insert.
  destruct (py_index (length l) i) as [m|e] eqn:E; [|reflexivity].
  apply py_index_Ok in E as [Hm [-> | ->]]; [|lia].
  rewrite Nat2Z.id in Hne. simpl.
  by rewrite list_lookup_insert_ne.
Qed.

End Store.

Section Store2.
Context {A : Type}.
Implicit Types (g : list (list A)).

(** A store at non-negative coordinates is read back at those
    coordinates and seen at no others. *)
Lemma getitem2_setitem2_same g r c x g' :
  0 ≤ r → 0 ≤ c → setitem2 g r c x = Ok g' → getitem2 g' r c = Ok x.
Proof.
  intros Hr Hc. unfold setitem2, getitem2.
  destruct (getitem g r) as [row|e] eqn:Erow; [|discriminate]. simpl.
  destruct (setitem row c x) as [row'|e] eqn:Eset; [|discriminate]. simpl.
  intros Hg.
  apply setitem_Ok_nonneg in Eset as [Hlen ->]; [|done].
  apply setitem_Ok_nonneg in Hg as [Hlen' ->]; [|done].
  rewrite getitem_insert_same by done. simpl.
  by apply getitem_insert_same.
Qed.

Lemma getitem2_setitem2_other g r c x g' r' c' :
  0 ≤ r → 0 ≤ c → 0 ≤ r' → 0 ≤ c' → (r', c') ≠ (r, c) →
  setitem2 g r c x = Ok g' → getitem2 g' r' c' = getitem2 g r' c'.
Proof.
  intros Hr Hc Hr' Hc' Hne. unfold setitem2, getitem2.
  destruct (getitem g r) as [row|e] eqn:Erow; [|discriminate]. simpl.
  destruct (setitem row c x) as [row'|e] eqn:Eset; [|discriminate]. simpl.
  intros Hg.
  apply setitem_Ok_nonneg in Eset as [Hlen ->]; [|done].
  apply setitem_Ok_nonneg in Hg as [Hlen' ->]; [|done].
  destruct (decide (r' = r)) as [->|Hrow].
  - rewrite getitem_insert_same by done. rewrite Erow. simpl.
    apply getitem_insert_other; [done|].
    intros Heq. apply Hne. f_equal. lia.
  - rewrite getitem_insert_other; [done|done|lia].
Qed.

Lemma setitem2_shape3 g r c x g' :
  shape3 g → setitem2 g r c x = Ok g' → shape3 g'.
Proof.
  intros [Hlen Hrows]. unfold setitem2, getitem, setitem.
  destruct (py_index (length g) r) as [n|e] eqn:En; [|discriminate]. simpl.
  destruct (g !! n) as [row|] eqn:Erow; [|discriminate]. simpl.
  destruct (py_index (length row) c) as [m|e]; [|discriminate]. simpl.
  intros [= <-]. split.
  - by rewrite length_insert.
  - apply Forall_insert; [done|].
    rewrite length_insert.
    by apply (Forall_lookup_1 _ _ _ _ Hrows Erow).
Qed.

Lemma setitem2_3x3_Ok g r c x :
  shape3 g → valid_coords (r, c) → ∃ g', setitem2 g r c x = Ok g'.
Proof.
  intros (a & b & c' & d & e & f & h & j & k & ->)%shape3_inv [Hr Hc].
  simpl in Hr, Hc.
  destruct (index3_cases r Hr) as [-> | [-> | ->]],
    (index3_cases c Hc) as [-> | [-> | ->]]; eexists; reflexivity.
Qed.

Lemma getitem2_3x3_Ok g r c :
  shape3 g → valid_coords (r, c) → ∃ x, getitem2 g r c = Ok x.
Proof.
  intros (a & b & c' & d & e & f & h & j & k & ->)%shape3_inv [Hr Hc].
  simpl in Hr, Hc.
  destruct (index3_cases r Hr) as [-> | [-> | ->]],
    (index3_cases c Hc) as [-> | [-> | ->]]; eexists; reflexivity.
Qed.

End Store2.

(** ** Placing a mark *)

Lemma setitem2_stores_only_at {A} (g : list (list A)) rc x :
  shape3 g → valid_coords rc →
  ∃ g', setitem2 g rc.1 rc.2 x = Ok g' ∧ stores_only_at g g' rc x.
Proof.
  intros Hshape Hrc. destruct rc as [r c].
  destruct (setitem2_3x3_Ok g r c x Hshape Hrc) as [g' Hg'].
  destruct Hrc as [Hr Hc]. simpl in *.
  exists g'. split; [done|]. unfold stores_only_at. simpl.
  split; [|split].
  - by eapply setitem2_shape3.
  - apply (getitem2_setitem2_same g); [lia..|done].
  - intros [r' c'] [Hr' Hc'] Hne. simpl in *.
    apply (getitem2_setitem2_other g r c x); [lia..|done|done].
Qed.

Lemma valid_position_coords p :
  valid_position p → valid_coords (Oop.Board.get_coords p).
Proof. intros Hp. by apply get_coords_position_mapping. Qed.

Lemma functional_add_to_board_stores g p player :
  shape3 (Functional.board g) → valid_position p →
  ∃ b', Functional.add_to_board (Functional.linear_position_to_coords p)
          player g
        = (Ok (), {| Functional.board := b'; Functional.turn := Functional.turn g |}) ∧
        stores_only_at (Functional.board g) b'
          (Functional.linear_position_to_coords p) (Some player).
Proof.
  intros Hshape Hp%valid_position_coords.
  change Oop.Board.get_coords with Functional.linear_position_to_coords in Hp.
  destruct (setitem2_stores_only_at _ _ (Some player) Hshape Hp)
    as (b' & Hset & Hstore).
  exists b'. split; [|done]. unfold Functional.add_to_board.
  destruct (Functional.linear_position_to_coords p) as [row col].
  simpl in Hset. cbv beta iota. unfold Functional.cell in *. by rewrite Hset.
Qed.

Lemma oop_add_stores self p player :
  shape3 (Oop.Board.grid self) → valid_position p →
  ∃ g', Oop.Board.add p player self
        = (Ok (), {| Oop.Board.grid := g'; Oop.Board.turn := Oop.Board.turn self |}) ∧
        stores_only_at (Oop.Board.grid self) g' (Oop.Board.get_coords p) player.
Proof.
  intros Hshape Hp%valid_position_coords.
  destruct (setitem2_stores_only_at _ _ player Hshape Hp)
    as (g' & Hset & Hstore).
  exists g'. split; [|done]. unfold Oop.Board.add.
  destruct (Oop.Board.get_coords p) as [row col].
  simpl in Hset. cbv beta iota. by rewrite Hset.
Qed.

Lemma npc_add_stores self p player :
  shape3 (OopNpc.Board.grid self) → valid_position p →
  ∃ g', OopNpc.Board.add p player self
        = (Ok (), {| OopNpc.Board.grid := g';
                     OopNpc.Board.turn := OopNpc.Board.turn self |}) ∧
        stores_only_at (OopNpc.Board.grid self) g'
          (OopNpc.Board.get_coords p) player.
Proof.
  intros Hshape Hp%valid_position_coords.
  change Oop.Board.get_coords with OopNpc.Board.get_coords in Hp.
  destruct (setitem2_stores_only_at _ _ player Hshape Hp)
    as (g' & Hset & Hstore).
  exists g'. split; [|done]. unfold OopNpc.Board.add.
  destruct (OopNpc.Board.get_coords p) as [row col].
  simpl in Hset. cbv beta iota. by rewrite Hset.
Qed.

(** C9.  Placing a mark at a position in 1..9 of a three by three board
    succeeds whatever the cell held before, stores the mark in the one
    cell the position maps to, and leaves every other cell and the move
    counter as they were. *)
Theorem C9_place_changes_one_cell :
  (∀ g p player, shape3 (Functional.board g) → valid_position p →
     ∃ b', Functional.add_to_board (Functional.linear_position_to_coords p)
             player g
           = (Ok (), {| Functional.board := b';
                        Functional.turn := Functional.turn g |}) ∧
           stores_only_at (Functional.board g) b'
             (Functional.linear_position_to_coords p) (Some player)) ∧
  (∀ self p player, shape3 (Oop.Board.grid self) → valid_position p →
     ∃ g', Oop.Board.add p player self
           = (Ok (), {| Oop.Board.grid := g';
                        Oop.Board.turn := Oop.Board.turn self |}) ∧
           stores_only_at (Oop.Board.grid self) g'
             (Oop.Board.get_coords p) player) ∧
  (∀ self p player, shape3 (OopNpc.Board.grid self) → valid_position p →
     ∃ g', OopNpc.Board.add p player self
           = (Ok (), {| OopNpc.Board.grid := g';
                        OopNpc.Board.turn := OopNpc.Board.turn self |}) ∧
           stores_only_at (OopNpc.Board.grid self) g'
             (OopNpc.Board.get_coords p) player).
Proof.
  split; [|split].
  - exact functional_add_to_board_stores.
  - exact oop_add_stores.
  - exact npc_add_stores.
Qed.

(** An occupied centre cell is overwritten and the counter stays at 1. *)
Lemma C9_place_changes_one_cell_witness :
  let self := {| Oop.Board.grid :=
                   [[Oop.EMPTY; Oop.EMPTY; Oop.EMPTY];
                    [Oop.EMPTY; Oop.PRIMARY; Oop.EMPTY];
                    [Oop.EMPTY; Oop.EMPTY; Oop.EMPTY]];
                 Oop.Board.turn := 1 |} in
  shape3 (Oop.Board.grid self) ∧ valid_position 5 ∧
  ∃ g', Oop.Board.add 5 Oop.SECONDARY self
        = (Ok (), {| Oop.Board.grid := g'; Oop.Board.turn := 1 |}) ∧
        stores_only_at (Oop.Board.grid self) g' (Oop.Board.get_coords 5)
          Oop.SECONDARY.
Proof.
  intros self.
  assert (Hshape : shape3 (Oop.Board.grid self)).
  { split; [reflexivity|]. simpl. repeat constructor. }
  assert (Hp : valid_position 5) by (unfold valid_position; lia).
  split; [exact Hshape|]. split; [exact Hp|].
  destruct C9_place_changes_one_cell as (_ & Hoop & _).
  exact (Hoop self 5 Oop.SECONDARY Hshape Hp).
Defined.

(** ** Occupied cells *)

Lemma functional_is_taken_cell g rc c :
  getitem2 (Functional.board g) rc.1 rc.2 = Ok c →
  Functional.is_taken rc g = (Ok (bool_decide (c ≠ None)), g).
Proof.
  destruct rc as [row col]. simpl. intros Hc.
  unfold Functional.is_taken, reads. unfold Functional.cell in *.
  by rewrite Hc.
Qed.

Lemma oop_is_taken_cell self p c :
  getitem2 (Oop.Board.grid self)
    (Oop.Board.get_coords p).1 (Oop.Board.get_coords p).2 = Ok c →
  Oop.Board.is_taken p self = (Ok (bool_decide (c ≠ Oop.EMPTY)), self).
Proof.
  unfold Oop.Board.is_taken, reads.
  destruct (Oop.Board.get_coords p) as [row col]. simpl. by intros ->.
Qed.

Lemma npc_is_taken_cell self p c :
  getitem2 (OopNpc.Board.grid self)
    (OopNpc.Board.get_coords p).1 (OopNpc.Board.get_coords p).2 = Ok c →
  OopNpc.Board.is_taken p self
  = (Ok (bool_decide (c ≠ OopNpc.EMPTY)), self).
Proof.
  unfold OopNpc.Board.is_taken, reads.
  destruct (OopNpc.Board.get_coords p) as [row col]. simpl. by intros ->.
Qed.

(** C8.  After a player's mark is placed at a position in 1..9 of a
    three by three board, [is_taken] at that position is [True]; on a
    fresh board it is [False] at every position in 1..9.  In the object
    variants a player is one of the two members of [Player] that
    [Players] rotates between, not [EMPTY]. *)
Theorem C8_place_then_is_taken :
  ((∀ g p player, shape3 (Functional.board g) → valid_position p →
      ∃ g', Functional.add_to_board (Functional.linear_position_to_coords p)
              player g = (Ok (), g') ∧
            Functional.is_taken (Functional.linear_position_to_coords p) g'
            = (Ok true, g')) ∧
   (∀ p, valid_position p →
      Functional.is_taken (Functional.linear_position_to_coords p)
        Functional.init = (Ok false, Functional.init))) ∧
  ((∀ self p player, shape3 (Oop.Board.grid self) → valid_position p →
      player ≠ Oop.EMPTY →
      ∃ self', Oop.Board.add p player self = (Ok (), self') ∧
               Oop.Board.is_taken p self' = (Ok true, self')) ∧
   (∀ p, valid_position p →
      Oop.Board.is_taken p Oop.Board.__init__
      = (Ok false, Oop.Board.__init__))) ∧
  ((∀ self p player, shape3 (OopNpc.Board.grid self) → valid_position p →
      player ≠ OopNpc.EMPTY →
      ∃ self', OopNpc.Board.add p player self = (Ok (), self') ∧
               OopNpc.Board.is_taken p self' = (Ok true, self')) ∧
   (∀ p, valid_position p →
      OopNpc.Board.is_taken p OopNpc.Board.__init__
      = (Ok false, OopNpc.Board.__init__))).
Proof.
  split; [|split]; split.
  - intros g p player Hshape Hp.
    destruct (functional_add_to_board_stores g p player Hshape Hp)
      as (b' & Hadd & _ & Hcell & _).
    eexists. split; [exact Hadd|].
    by rewrite (functional_is_taken_cell _ _ (Some player)).
  - intros p Hp.
    destruct (valid_position_cases p Hp)
      as [->|[->|[->|[->|[->|[->|[->|[->| ->]]]]]]]]; reflexivity.
  - intros self p player Hshape Hp Hplayer.
    destruct (oop_add_stores self p player Hshape Hp)
      as (g' & Hadd & _ & Hcell & _).
    eexists. split; [exact Hadd|].
    rewrite (oop_is_taken_cell _ _ player) by done.
    by rewrite bool_decide_eq_true_2.
  - intros p Hp.
    destruct (valid_position_cases p Hp)
      as [->|[->|[->|[->|[->|[->|[->|[->| ->]]]]]]]]; reflexivity.
  - intros self p player Hshape Hp Hplayer.
    destruct (npc_add_stores self p player Hshape Hp)
      as (g' & Hadd & _ & Hcell & _).
    eexists. split; [exact Hadd|].
    rewrite (npc_is_taken_cell _ _ player) by done.
    by rewrite bool_decide_eq_true_2.
  - intros p Hp.
    destruct (valid_position_cases p Hp)
      as [->|[->|[->|[->|[->|[->|[->|[->| ->]]]]]]]]; reflexivity.
Qed.

Lemma C8_place_then_is_taken_witness :
  (shape3 (Oop.Board.grid Oop.Board.__init__) ∧ valid_position 9 ∧
   Oop.PRIMARY ≠ Oop.EMPTY ∧
   ∃ self', Oop.Board.add 9 Oop.PRIMARY Oop.Board.__init__ = (Ok (), self') ∧
            Oop.Board.is_taken 9 self' = (Ok true, self')) ∧
  Functional.is_taken (Functional.linear_position_to_coords 9)
    Functional.init = (Ok false, Functional.init).
Proof.
  assert (Hshape : shape3 (Oop.Board.grid Oop.Board.__init__)).
  { split; [reflexivity|]. simpl. repeat constructor. }
  assert (Hp : valid_position 9) by (unfold valid_position; lia).
  assert (Hplayer : Oop.PRIMARY ≠ Oop.EMPTY) by discriminate.
  destruct C8_place_then_is_taken as ((_ & Hfresh) & (Hoop & _) & _).
  split.
  - split; [exact Hshape|]. split; [exact Hp|]. split; [exact Hplayer|].
    exact (Hoop Oop.Board.__init__ 9 Oop.PRIMARY Hshape Hp Hplayer).
  - exact (Hfresh 9 Hp).
Defined.

(** The hypothesis on the player is needed: [EMPTY] is a member of
    [Player] too, and a cell it is stored in is not taken. *)
Lemma add_EMPTY_not_taken :
  ∃ self', Oop.Board.add 5 Oop.EMPTY Oop.Board.__init__ = (Ok (), self') ∧
           Oop.Board.is_taken 5 self' = (Ok false, self').
Proof. eexists. split; reflexivity. Qed.

(** ** Positions outside 1..9 *)

Lemma small_position_cases p :
  -8 ≤ p ≤ 0 →
  p = -8 ∨ p = -7 ∨ p = -6 ∨ p = -5 ∨ p = -4 ∨ p = -3 ∨ p = -2 ∨ p = -1 ∨
  p = 0.
Proof. lia. Qed.

(** Which positions name a cell of a three by three grid: row and column
    indices down to -3 are wrapped, so the positions -2..0 reach the last
    row from its end. *)
Lemma getitem2_position_range {A} (g : list (list A)) p :
  shape3 g →
  (-2 ≤ p ≤ 9 →
   ∃ c, getitem2 g (Oop.Board.get_coords p).1 (Oop.Board.get_coords p).2
        = Ok c) ∧
  (p < -2 ∨ 9 < p →
   getitem2 g (Oop.Board.get_coords p).1 (Oop.Board.get_coords p).2
   = Raise IndexError).
Proof.
  intros (a & b & c & d & e & f & h & j & k & ->)%shape3_inv. split.
  - intros Hp. destruct (Z.le_gt_cases 1 p) as [Hpos|Hneg].
    + destruct (valid_position_cases p ltac:(unfold valid_position; lia))
        as [->|[->|[->|[->|[->|[->|[->|[->| ->]]]]]]]];
        eexists; reflexivity.
    + destruct (small_position_cases p ltac:(lia))
        as [->|[->|[->|[->|[->|[->|[->|[->| ->]]]]]]]];
        first [lia | eexists; reflexivity].
  - intros [Hlow|Hhigh].
    + destruct (Z.le_gt_cases (-8) p) as [Hnear|Hfar].
      * destruct (small_position_cases p ltac:(lia))
          as [->|[->|[->|[->|[->|[->|[->|[->| ->]]]]]]]];
          first [lia | reflexivity].
      * unfold getitem2, getitem, Oop.Board.get_coords. cbv zeta.
        cbn [fst snd length].
        rewrite py_index_outside; [reflexivity|].
        left. apply Z.div_lt_upper_bound; lia.
    + unfold getitem2, getitem, Oop.Board.get_coords. cbv zeta.
      cbn [fst snd length].
      rewrite py_index_outside; [reflexivity|].
      right. apply Z.div_le_lower_bound; lia.
Qed.

Lemma functional_is_taken_unfold g rc :
  Functional.is_taken rc g
  = (c ← getitem2 (Functional.board g) rc.1 rc.2;
     Ok (bool_decide (c ≠ None)), g).
Proof. by destruct rc. Qed.

Lemma oop_is_taken_unfold self p :
  Oop.Board.is_taken p self
  = (c ← getitem2 (Oop.Board.grid self)
           (Oop.Board.get_coords p).1 (Oop.Board.get_coords p).2;
     Ok (bool_decide (c ≠ Oop.EMPTY)), self).
Proof.
  unfold Oop.Board.is_taken. by destruct (Oop.Board.get_coords p).
Qed.

Lemma npc_is_taken_unfold self p :
  OopNpc.Board.is_taken p self
  = (c ← getitem2 (OopNpc.Board.grid self)
           (OopNpc.Board.get_coords p).1 (OopNpc.Board.get_coords p).2;
     Ok (bool_decide (c ≠ OopNpc.EMPTY)), self).
Proof.
  unfold OopNpc.Board.is_taken. by destruct (OopNpc.Board.get_coords p).
Qed.

(** C10, as the code has it.  The conversion is defined on every integer
    and maps position 0 to (-1, -1); [is_taken] at position 0 does not
    fail but reads the bottom-right cell.  The board checks no range:
    on a three by three grid [is_taken] returns for the positions -2..9
    and raises [IndexError] for every other position. *)
Theorem C10_is_taken_outside_positions :
  (Functional.linear_position_to_coords 0 = (-1, -1) ∧
   ∀ g p, shape3 (Functional.board g) →
     (∀ c, getitem2 (Functional.board g) 2 2 = Ok c →
        Functional.is_taken (Functional.linear_position_to_coords 0) g
        = (Ok (bool_decide (c ≠ None)), g)) ∧
     (-2 ≤ p ≤ 9 →
      ∃ r, Functional.is_taken (Functional.linear_position_to_coords p) g
           = (Ok r, g)) ∧
     (p < -2 ∨ 9 < p →
      Functional.is_taken (Functional.linear_position_to_coords p) g
      = (Raise IndexError, g))) ∧
  (Oop.Board.get_coords 0 = (-1, -1) ∧
   ∀ self p, shape3 (Oop.Board.grid self) →
     (∀ c, getitem2 (Oop.Board.grid self) 2 2 = Ok c →
        Oop.Board.is_taken 0 self
        = (Ok (bool_decide (c ≠ Oop.EMPTY)), self)) ∧
     (-2 ≤ p ≤ 9 → ∃ r, Oop.Board.is_taken p self = (Ok r, self)) ∧
     (p < -2 ∨ 9 < p →
      Oop.Board.is_taken p self = (Raise IndexError, self))) ∧
  (OopNpc.Board.get_coords 0 = (-1, -1) ∧
   ∀ self p, shape3 (OopNpc.Board.grid self) →
     (∀ c, getitem2 (OopNpc.Board.grid self) 2 2 = Ok c →
        OopNpc.Board.is_taken 0 self
        = (Ok (bool_decide (c ≠ OopNpc.EMPTY)), self)) ∧
     (-2 ≤ p ≤ 9 → ∃ r, OopNpc.Board.is_taken p self = (Ok r, self)) ∧
     (p < -2 ∨ 9 < p →
      OopNpc.Board.is_taken p self = (Raise IndexError, self))).
Proof.
  split; [|split]; (split; [reflexivity|]).
  - intros g p Hshape.
    destruct (getitem2_position_range (Functional.board g) p Hshape)
      as [Hin Hout].
    change Oop.Board.get_coords
      with Functional.linear_position_to_coords in Hin, Hout.
    split; [|split].
    + intros c Hc. rewrite functional_is_taken_unfold.
      destruct (shape3_inv _ Hshape)
        as (? & ? & ? & ? & ? & ? & ? & ? & k & Hg).
      rewrite Hg in Hc |- *. by injection Hc as ->.
    + intros Hp. destruct (Hin Hp) as [c Hc].
      rewrite functional_is_taken_unfold. unfold Functional.cell in *.
      rewrite Hc. by eexists.
    + intros Hp. rewrite functional_is_taken_unfold.
      unfold Functional.cell in *. by rewrite (Hout Hp).
  - intros self p Hshape.
    destruct (getitem2_position_range (Oop.Board.grid self) p Hshape)
      as [Hin Hout].
    split; [|split].
    + intros c Hc. rewrite oop_is_taken_unfold.
      destruct (shape3_inv _ Hshape)
        as (? & ? & ? & ? & ? & ? & ? & ? & k & Hg).
      rewrite Hg in Hc |- *. by injection Hc as ->.
    + intros Hp. destruct (Hin Hp) as [c Hc].
      rewrite oop_is_taken_unfold, Hc. by eexists.
    + intros Hp. by rewrite oop_is_taken_unfold, (Hout Hp).
  - intros self p Hshape.
    destruct (getitem2_position_range (OopNpc.Board.grid self) p Hshape)
      as [Hin Hout].
    change Oop.Board.get_coords with OopNpc.Board.get_coords in Hin, Hout.
    split; [|split].
    + intros c Hc. rewrite npc_is_taken_unfold.
      destruct (shape3_inv _ Hshape)
        as (? & ? & ? & ? & ? & ? & ? & ? & k & Hg).
      rewrite Hg in Hc |- *. by injection Hc as ->.
    + intros Hp. destruct (Hin Hp) as [c Hc].
      rewrite npc_is_taken_unfold, Hc. by eexists.
    + intros Hp. by rewrite npc_is_taken_unfold, (Hout Hp).
Qed.

Lemma C10_is_taken_outside_positions_witness :
  shape3 (Oop.Board.grid Oop.Board.__init__) ∧
  Oop.Board.is_taken 0 Oop.Board.__init__
  = (Ok (bool_decide (Oop.EMPTY ≠ Oop.EMPTY)), Oop.Board.__init__) ∧
  Oop.Board.is_taken (-3) Oop.Board.__init__
  = (Raise IndexError, Oop.Board.__init__).
Proof.
  assert (Hshape : shape3 (Oop.Board.grid Oop.Board.__init__)).
  { split; [reflexivity|]. simpl. repeat constructor. }
  split; [exact Hshape|].
  destruct C10_is_taken_outside_positions as (_ & (_ & Hoop) & _).
  destruct (Hoop Oop.Board.__init__ (-3) Hshape) as (Hzero & _ & Hout).
  split.
  - apply Hzero. reflexivity.
  - apply Hout. left. lia.
Defined.

(** [is_taken] is not defined on every integer: position 10 maps to row 3,
    which a three by three grid does not have. *)
Lemma C10_is_taken_10_raises :
  (¬ ∃ r, (Oop.Board.is_taken 10 Oop.Board.__init__).1 = Ok r) ∧
  Oop.Board.is_taken 10 Oop.Board.__init__
  = (Raise IndexError, Oop.Board.__init__) ∧
  Functional.is_taken (Functional.linear_position_to_coords 10)
    Functional.init = (Raise IndexError, Functional.init).
Proof.
  split; [|split]; [|reflexivity..].
  intros [r Hr]. discriminate Hr.
Qed.

(** ** The computer's move *)

Lemma npc_is_taken_state board p :
  OopNpc.Board.is_taken p board
  = ((OopNpc.Board.is_taken p board).1, board).
Proof. by rewrite npc_is_taken_unfold. Qed.

Lemma sample_loop_unfold board location samples :
  OopNpc.sample_loop board location samples
  = match (OopNpc.Board.is_taken location board).1 with
    | Raise e => Some (Raise e, samples)
    | Ok false => Some (Ok location, samples)
    | Ok true =>
        match samples with
        | [] => None
        | location' :: samples' =>
            OopNpc.sample_loop board location' samples'
        end
    end.
Proof. by destruct samples. Qed.

(** Whatever the loop returns was drawn and is free. *)
Lemma sample_loop_returns_open board samples :
  ∀ location p rest,
    valid_position location → Forall valid_position samples →
    OopNpc.sample_loop board location samples = Some (Ok p, rest) →
    open_position board p.
Proof.
  induction samples as [|s samples IH]; intros location p rest Hloc Hall;
    rewrite sample_loop_unfold;
    destruct (OopNpc.Board.is_taken location board).1 as [[]|e] eqn:Etaken;
    try discriminate.
  - intros [= <- <-]. split; [done|].
    by rewrite npc_is_taken_state, Etaken.
  - apply Forall_cons in Hall as [Hs Hall]. by apply IH.
  - intros [= <- <-]. split; [done|].
    by rewrite npc_is_taken_state, Etaken.
Qed.

Lemma npc_is_taken_Ok board p :
  shape3 (OopNpc.Board.grid board) → valid_position p →
  ∃ r, OopNpc.Board.is_taken p board = (Ok r, board).
Proof.
  intros Hshape Hp.
  destruct (getitem2_position_range _ p Hshape) as [Hin _].
  change Oop.Board.get_coords with OopNpc.Board.get_coords in Hin.
  destruct Hin as [c Hc]; [unfold valid_position in Hp; lia|].
  rewrite npc_is_taken_unfold, Hc. by eexists.
Qed.

(** On a three by three board the loop raises nothing. *)
Lemma sample_loop_no_raise board samples :
  shape3 (OopNpc.Board.grid board) →
  ∀ location e rest,
    valid_position location → Forall valid_position samples →
    OopNpc.sample_loop board location samples ≠ Some (Raise e, rest).
Proof.
  intros Hshape.
  induction samples as [|s samples IH]; intros location e rest Hloc Hall;
    rewrite sample_loop_unfold;
    destruct (npc_is_taken_Ok board location Hshape Hloc) as [[] ->];
    simpl; try discriminate.
  apply Forall_cons in Hall as [Hs Hall]. by apply IH.
Qed.

(** The loop returns as soon as a free position is drawn. *)
Lemma sample_loop_returns board samples :
  shape3 (OopNpc.Board.grid board) →
  ∀ location,
    valid_position location → Forall valid_position samples →
    Exists (open_position board) (location :: samples) →
    ∃ p rest, OopNpc.sample_loop board location samples = Some (Ok p, rest).
Proof.
  intros Hshape.
  induction samples as [|s samples IH]; intros location Hloc Hall Hopen;
    rewrite sample_loop_unfold;
    destruct (npc_is_taken_Ok board location Hshape Hloc) as [[] Htaken];
    rewrite Htaken; simpl; eauto.
  - apply Exists_cons in Hopen as [[_ Hfree]|Hopen%Exists_nil]; [|done].
    rewrite Htaken in Hfree. discriminate.
  - apply Forall_cons in Hall as [Hs Hall]. apply IH; [done..|].
    apply Exists_cons in Hopen as [[_ Hfree]|Hopen]; [|done].
    rewrite Htaken in Hfree. discriminate.
Qed.

(** C5.  On a three by three board that is not full, with every sample
    of [random.randint(1, 9)] within 1..9: the computer's move returns
    once a free position has been drawn, so some sequence of samples makes
    it return; and whenever it returns, it returns a position of 1..9 that
    is not taken on that board, and it raises nothing. *)
Theorem C5_computer_move_is_open :
  ∀ py board line, shape3 (OopNpc.Board.grid board) → non_full board →
    (∃ samples p rest,
       Forall valid_position samples ∧
       OopNpc.get_location py board OopNpc.COMPUTER samples line
       = Some (Ok p, rest)) ∧
    (∀ samples, Forall valid_position samples →
       Exists (open_position board) samples →
       ∃ p rest, OopNpc.get_location py board OopNpc.COMPUTER samples line
                 = Some (Ok p, rest)) ∧
    (∀ samples r rest, Forall valid_position samples →
       OopNpc.get_location py board OopNpc.COMPUTER samples line
       = Some (r, rest) →
       ∃ p, r = Ok p ∧ valid_position p ∧
            OopNpc.Board.is_taken p board = (Ok false, board)).
Proof.
  intros py board line Hshape [q Hq].
  assert (Hreturns : ∀ samples, Forall valid_position samples →
            Exists (open_position board) samples →
            ∃ p rest, OopNpc.get_location py board OopNpc.COMPUTER samples line
                      = Some (Ok p, rest)).
  { intros [|s samples] Hall Hopen; [by apply Exists_nil in Hopen|].
    apply Forall_cons in Hall as [Hs Hall].
    by apply sample_loop_returns. }
  split; [|split; [exact Hreturns|]].
  - destruct (Hreturns [q]) as (p & rest & Hp).
    + constructor; [apply Hq | constructor].
    + by constructor.
    + exists [q], p, rest. split; [|done].
      constructor; [apply Hq | constructor].
  - intros [|s samples] r rest Hall; [discriminate|].
    apply Forall_cons in Hall as [Hs Hall].
    unfold OopNpc.get_location. simpl. intros Hloop.
    destruct r as [p|e].
    + exists p. split; [done|].
      by apply (sample_loop_returns_open board samples s p rest).
    + by apply sample_loop_no_raise in Hloop.
Qed.

Lemma C5_computer_move_is_open_witness :
  let board := {| OopNpc.Board.grid :=
                    [[OopNpc.EMPTY; OopNpc.EMPTY; OopNpc.PLAYER];
                     [OopNpc.EMPTY; OopNpc.EMPTY; OopNpc.EMPTY];
                     [OopNpc.EMPTY; OopNpc.EMPTY; OopNpc.EMPTY]];
                  OopNpc.Board.turn := 1 |} in
  shape3 (OopNpc.Board.grid board) ∧ non_full board ∧
  Forall valid_position [3; 7; 2] ∧
  OopNpc.get_location sample_interpreter board OopNpc.COMPUTER [3; 7; 2]
    (text "") = Some (Ok 7, [2]) ∧
  ∃ p, Ok 7 = Ok p ∧ valid_position p ∧
       OopNpc.Board.is_taken p board = (Ok false, board).
Proof.
  intros board.
  assert (Hshape : shape3 (OopNpc.Board.grid board)).
  { split; [reflexivity|]. simpl. repeat constructor. }
  assert (Hopen : non_full board).
  { exists 1. split; [unfold valid_position; lia | reflexivity]. }
  assert (Hall : Forall valid_position [3; 7; 2]).
  { repeat constructor; unfold valid_position; lia. }
  assert (Hloc : OopNpc.get_location sample_interpreter board
                   OopNpc.COMPUTER [3; 7; 2] (text "")
                 = Some (Ok 7, [2])) by reflexivity.
  split; [exact Hshape|]. split; [exact Hopen|]. split; [exact Hall|].
  split; [exact Hloc|].
  destruct (C5_computer_move_is_open sample_interpreter board (text "")
              Hshape Hopen) as (_ & _ & Hright).
  exact (Hright [3; 7; 2] (Ok 7) [2] Hall Hloc).
Defined.

(** ** The steps of one iteration *)

Lemma M_bind_Ok {S A B} (m : M S A) (k : A → M S B) s a s' :
  m s = (Ok a, s') → (m ≫= k) s = k a s'.
Proof. unfold mbind, M_bind. by intros ->. Qed.

Lemma M_bind_Raise {S A B} (m : M S A) (k : A → M S B) s e s' :
  m s = (Raise e, s') → (m ≫= k) s = (Raise e, s').
Proof. unfold mbind, M_bind. by intros ->. Qed.

Section Marks.
Context {A : Type} `{EqDecision A} (empty : A).

Lemma row_marks_3 (a b c : A) :
  row_marks empty [a; b; c]
  = row_marks empty [a] + row_marks empty [b] + row_marks empty [c].
Proof.
  unfold row_marks. rewrite !filter_cons, filter_nil.
  repeat case_decide; reflexivity.
Qed.

Lemma row_marks_empty : row_marks empty [empty] = 0.
Proof.
  unfold row_marks. rewrite filter_cons, filter_nil.
  case_decide; [congruence|reflexivity].
Qed.

Lemma row_marks_mark (x : A) : x ≠ empty → row_marks empty [x] = 1.
Proof.
  intros Hx. unfold row_marks. rewrite filter_cons, filter_nil.
  case_decide; [reflexivity|congruence].
Qed.

(** A mark stored in a free cell is one mark more. *)
Lemma marks_store (g g' : list (list A)) rc x :
  shape3 g → valid_coords rc → x ≠ empty →
  getitem2 g rc.1 rc.2 = Ok empty →
  setitem2 g rc.1 rc.2 x = Ok g' →
  marks empty g' = marks empty g + 1.
Proof.
  intros (a & b & c & d & e & f & h & j & k & ->)%shape3_inv.
  destruct rc as [row col]. intros [Hr Hc] Hx. simpl in Hr, Hc |- *.
  pose proof (row_marks_mark x Hx) as Hmark.
  pose proof row_marks_empty as Hempty.
  destruct (index3_cases row Hr) as [-> | [-> | ->]],
    (index3_cases col Hc) as [-> | [-> | ->]];
    intros [= ->] [= <-]; unfold marks; simpl;
    rewrite !row_marks_3; lia.
Qed.

Lemma marks_fresh (g : list (list A)) :
  g = (fun _ => (fun _ => empty) <$> range 3) <$> range 3 →
  marks empty g = 0.
Proof.
  intros ->. unfold marks. simpl. rewrite !row_marks_3, row_marks_empty.
  reflexivity.
Qed.

End Marks.

(** *** [functional.py] *)

Lemma functional_is_taken_Ok g p :
  shape3 (Functional.board g) → valid_position p →
  ∃ c, getitem2 (Functional.board g)
         (Functional.linear_position_to_coords p).1
         (Functional.linear_position_to_coords p).2 = Ok c ∧
       Functional.is_taken (Functional.linear_position_to_coords p) g
       = (Ok (bool_decide (c ≠ None)), g).
Proof.
  intros Hshape Hp.
  destruct (getitem2_position_range _ p Hshape) as [Hin _].
  change Oop.Board.get_coords
    with Functional.linear_position_to_coords in Hin.
  destruct Hin as [c Hc]; [unfold valid_position in Hp; lia|].
  exists c. split; [done|].
  rewrite functional_is_taken_unfold. unfold Functional.cell in *.
  by rewrite Hc.
Qed.

Lemma functional_add_to_board_inv rc player g g' :
  Functional.add_to_board rc player g = (Ok (), g') →
  setitem2 (Functional.board g) rc.1 rc.2 (Some player)
  = Ok (Functional.board g') ∧
  Functional.turn g' = Functional.turn g.
Proof.
  destruct rc as [row col]. unfold Functional.add_to_board. simpl.
  destruct (setitem2 _ _ _ _); [|discriminate]. by intros [= <-].
Qed.

Lemma functional_check_tie_eq g :
  Functional.check_tie g
  = (Ok (Functional.turn g + 1 =? 9),
     {| Functional.board := Functional.board g;
        Functional.turn := Functional.turn g + 1 |}).
Proof. reflexivity. Qed.

(** *** [oop.py] *)

Lemma on_board_eq {A} (m : M Oop.Board.t A) cls b r b' :
  m b = (r, b') →
  Oop.on_board m {| Oop.players := cls; Oop.board := b |}
  = (r, {| Oop.players := cls; Oop.board := b' |}).
Proof. unfold Oop.on_board. simpl. by intros ->. Qed.

Lemma oop_is_taken_Ok self p :
  shape3 (Oop.Board.grid self) → valid_position p →
  ∃ c, getitem2 (Oop.Board.grid self)
         (Oop.Board.get_coords p).1 (Oop.Board.get_coords p).2 = Ok c ∧
       Oop.Board.is_taken p self = (Ok (bool_decide (c ≠ Oop.EMPTY)), self).
Proof.
  intros Hshape Hp.
  destruct (getitem2_position_range _ p Hshape) as [Hin _].
  destruct Hin as [c Hc]; [unfold valid_position in Hp; lia|].
  exists c. split; [done|]. by rewrite oop_is_taken_unfold, Hc.
Qed.

Lemma oop_add_inv p player self self' :
  Oop.Board.add p player self = (Ok (), self') →
  setitem2 (Oop.Board.grid self)
    (Oop.Board.get_coords p).1 (Oop.Board.get_coords p).2 player
  = Ok (Oop.Board.grid self') ∧
  Oop.Board.turn self' = Oop.Board.turn self.
Proof.
  unfold Oop.Board.add. destruct (Oop.Board.get_coords p) as [row col].
  simpl. destruct (setitem2 _ _ _ _); [|discriminate]. by intros [= <-].
Qed.

Lemma oop_is_tie_eq self :
  Oop.Board.is_tie self
  = (if Oop.Board.turn self + 1 =? 9 then Raise YouAllLose else Ok (),
     {| Oop.Board.grid := Oop.Board.grid self;
        Oop.Board.turn := Oop.Board.turn self + 1 |}).
Proof. unfold Oop.Board.is_tie. simpl. by destruct (_ =? _). Qed.

(** ** More on input validation *)

Lemma oop_returns_validated py : returns_validated py (Oop.get_user_input py).
Proof.
  intros s. split; [|split].
  - intros n Hn.
    destruct (get_user_input_cases py s)
      as [[_ H]|[(_ & _ & H)|[(_ & _ & _ & H)|[(_ & _ & m & _ & _ & H)
          |(_ & Hnum & m & Hint & Hr & H)]]]];
      rewrite H in Hn; try discriminate.
    by injection Hn as <-.
  - apply get_user_input_raises.
  - destruct (get_user_input_cases py s)
      as [[Hq H]|[(_ & Hnum & H)|[(_ & Hnum & Hint & H)
          |[(_ & Hnum & m & Hint & _ & H)|(_ & Hnum & m & Hint & _ & H)]]]];
      rewrite H.
    + split; [discriminate|]. intros [Hnum _].
      by apply isnumeric_not_quit in Hnum.
    + split; [discriminate|]. intros [? _]. congruence.
    + split; [|done]. intros _. split; [done|].
      by apply int_ValueError; [apply (isnumeric_nonempty py)|].
    + split; [discriminate|]. intros [_ Hv].
      apply int_ValueError in Hv; [congruence|].
      by apply (isnumeric_nonempty py).
    + split; [discriminate|]. intros [_ Hv].
      apply int_ValueError in Hv; [congruence|].
      by apply (isnumeric_nonempty py).
Qed.

Lemma oop_quits_on_q_only py : quits_on_q_only py (Oop.get_user_input py).
Proof.
  intros s. rewrite <- (casefold_q_iff py). split.
  - intros He.
    destruct (get_user_input_cases py s)
      as [[Hq _]|[(_ & _ & H)|[(_ & _ & _ & H)|[(_ & _ & m & _ & _ & H)
          |(_ & _ & m & _ & _ & H)]]]];
      [done|rewrite H in He; discriminate..].
  - intros Hq.
    destruct (get_user_input_cases py s)
      as [[_ H]|[(Hn & _)|[(Hn & _)|[(Hn & _)|(Hn & _)]]]]; done.
Qed.

Lemma oop_out_of_bounds_values py :
  out_of_bounds_values py (Oop.get_user_input py).
Proof.
  intros s.
  destruct (get_user_input_cases py s)
    as [[Hq H]|[(_ & Hnum & H)|[(_ & Hnum & Hint & H)
        |[(_ & Hnum & m & Hint & Hr & H)|(_ & Hnum & m & Hint & Hr & H)]]]];
    rewrite H.
  - split; [discriminate|]. intros [Hnum _].
    by apply isnumeric_not_quit in Hnum.
  - split; [discriminate|]. intros [? _]. congruence.
  - split; [discriminate|]. intros (_ & n & ? & _). congruence.
  - split; [|done]. intros _. split; [done|]. exists m. split; [done|].
    pose proof (int_nonneg py s m Hint). lia.
  - split; [discriminate|]. intros (_ & n & Hn & Hr').
    assert (n = m) as -> by congruence. lia.
Qed.

Lemma int_acc_zeros py k s acc :
  acc = 0 → int_acc py acc (zeros k ++ s) = int_acc py 0 s.
Proof.
  intros ->. induction k as [|k IH]; [done|]. exact IH.
Qed.

Lemma isnumeric_forallb py s :
  isnumeric py s = true → forallb (is_numeric_char py) s = true.
Proof. by destruct s. Qed.

Lemma isnumeric_zeros_app py k s :
  isnumeric py s = true → isnumeric py (zeros k ++ s) = true.
Proof.
  intros Hs. pose proof (isnumeric_forallb py s Hs) as Hd.
  assert (Hall : forallb (is_numeric_char py) (zeros k ++ s) = true).
  { induction k as [|k IH]; [done|]. exact IH. }
  destruct k; [done|]. exact Hall.
Qed.

Lemma too_long_zeros_app py k s :
  too_long py (zeros k ++ s) = false → too_long py s = false.
Proof.
  unfold too_long. rewrite length_app.
  destruct (N.ltb_spec 0 (int_max_str_digits py)); [|done]. simpl.
  intros Hle%N.ltb_ge. apply N.ltb_ge. lia.
Qed.

Lemma oop_ignores_leading_zeros py :
  ignores_leading_zeros py (Oop.get_user_input py).
Proof.
  intros k s Hs. pose proof (isnumeric_zeros_app py k s Hs) as Hks.
  unfold Oop.get_user_input.
  rewrite !bool_decide_eq_false_2 by (by apply isnumeric_not_quit).
  rewrite Hs, Hks. simpl negb. cbv iota. split.
  - intros Hlen. pose proof (too_long_zeros_app py k s Hlen) as Hlen'.
    assert (int py (zeros k ++ s) = int py s) as ->; [|done].
    unfold int. rewrite Hlen, Hlen'.
    destruct s as [|c s]; [done|].
    destruct (zeros k ++ c :: s) eqn:Hz.
    { by apply app_eq_nil in Hz as [_ ?]. }
    rewrite <- Hz. by apply int_acc_zeros.
  - intros Hlen. unfold int. rewrite Hlen.
    by destruct (zeros k ++ s).
Qed.

(** X1.  An input routine returns a number only for a numeric line, the
    number is the one [int] gives for the line and lies within 1..9.  It
    raises nothing but [UserExit], [InvalidInput], [InputOutOfBounds] and
    [ValueError]; and it raises [ValueError], which [main] does not
    catch, exactly for the numeric lines that hold a character that is no
    decimal digit or that are longer than [int] converts. *)
Theorem input_returns_validated :
  ∀ py,
    returns_validated py (Functional.get_user_input_as_int py) ∧
    returns_validated py (Oop.get_user_input py) ∧
    returns_validated py (OopNpc.get_user_input py).
Proof.
  intros py. split; [|split]; [|exact (oop_returns_validated py)..].
  intros s. rewrite get_user_input_as_int_eq.
  by apply oop_returns_validated.
Qed.

Lemma input_returns_validated_witness :
  (∀ n, Functional.get_user_input_as_int sample_interpreter fullwidth_five
        = Ok n →
        isnumeric sample_interpreter fullwidth_five = true ∧
        int sample_interpreter fullwidth_five = Ok n ∧ 1 ≤ n ≤ 9) ∧
  (Oop.get_user_input sample_interpreter superscript_two = Raise ValueError ↔
   isnumeric sample_interpreter superscript_two = true ∧
   (has_non_decimal sample_interpreter superscript_two
    ∨ too_long sample_interpreter superscript_two = true)).
Proof.
  destruct (input_returns_validated sample_interpreter) as (Hf & Ho & _).
  split.
  - exact (proj1 (Hf fullwidth_five)).
  - exact (proj2 (proj2 (Ho superscript_two))).
Defined.

(** X2.  [UserExit] is raised for the lines "q" and "Q" and for no other
    line: a longer word or a space around the letter is not the quit
    word. *)
Theorem input_quits_on_q_only :
  ∀ py,
    quits_on_q_only py (Functional.get_user_input_as_int py) ∧
    quits_on_q_only py (Oop.get_user_input py) ∧
    quits_on_q_only py (OopNpc.get_user_input py).
Proof.
  intros py. split; [|split]; [|exact (oop_quits_on_q_only py)..].
  intros s. rewrite get_user_input_as_int_eq.
  by apply oop_quits_on_q_only.
Qed.

Lemma input_quits_on_q_only_witness :
  Oop.get_user_input sample_interpreter (text "quit") = Raise UserExit ↔
  text "quit" = text "q" ∨ text "quit" = text "Q".
Proof.
  destruct (input_quits_on_q_only sample_interpreter) as (_ & Ho & _).
  exact (Ho (text "quit")).
Defined.

(** X3.  [InputOutOfBounds] is raised exactly for the numeric lines that
    [int] converts to 0 or to a number of at least 10.  [int] gives no
    negative number for a numeric line, so the lower bound of the range
    test is met at 0 only. *)
Theorem input_out_of_bounds_values :
  ∀ py,
    out_of_bounds_values py (Functional.get_user_input_as_int py) ∧
    out_of_bounds_values py (Oop.get_user_input py) ∧
    out_of_bounds_values py (OopNpc.get_user_input py).
Proof.
  intros py. split; [|split]; [|exact (oop_out_of_bounds_values py)..].
  intros s. rewrite get_user_input_as_int_eq.
  by apply oop_out_of_bounds_values.
Qed.

Lemma input_out_of_bounds_values_witness :
  Oop.get_user_input sample_interpreter (text "12") = Raise InputOutOfBounds ↔
  isnumeric sample_interpreter (text "12") = true ∧
  ∃ n, int sample_interpreter (text "12") = Ok n ∧ (n = 0 ∨ 10 ≤ n).
Proof.
  destruct (input_out_of_bounds_values sample_interpreter) as (_ & Ho & _).
  exact (Ho (text "12")).
Defined.

(** X4.  Zeros in front of a numeric line change nothing while the line
    stays within the length that [int] converts: "05" is accepted as 5
    and "010" is out of bounds as "10" is.  Past that length the line
    raises [ValueError]. *)
Theorem input_ignores_leading_zeros :
  ∀ py,
    ignores_leading_zeros py (Functional.get_user_input_as_int py) ∧
    ignores_leading_zeros py (Oop.get_user_input py) ∧
    ignores_leading_zeros py (OopNpc.get_user_input py).
Proof.
  intros py. split; [|split]; [|exact (oop_ignores_leading_zeros py)..].
  intros k s Hnum. rewrite !get_user_input_as_int_eq.
  by apply oop_ignores_leading_zeros.
Qed.

Lemma input_ignores_leading_zeros_witness :
  isnumeric sample_interpreter (text "5") = true ∧
  too_long sample_interpreter (zeros 2 ++ text "5") = false ∧
  Functional.get_user_input_as_int sample_interpreter (zeros 2 ++ text "5")
  = Functional.get_user_input_as_int sample_interpreter (text "5") ∧
  too_long sample_interpreter (zeros 4300 ++ text "5") = true ∧
  Functional.get_user_input_as_int sample_interpreter
    (zeros 4300 ++ text "5") = Raise ValueError.
Proof.
  assert (Hnum : isnumeric sample_interpreter (text "5") = true)
    by reflexivity.
  assert (Hlen : too_long sample_interpreter (zeros 2 ++ text "5") = false)
    by reflexivity.
  assert (Hlen' : too_long sample_interpreter (zeros 4300 ++ text "5")
                  = true) by (vm_compute; reflexivity).
  destruct (input_ignores_leading_zeros sample_interpreter) as (Hf & _ & _).
  split; [exact Hnum|]. split; [exact Hlen|].
  split; [exact (proj1 (Hf 2%nat (text "5") Hnum) Hlen)|].
  split; [exact Hlen'|].
  exact (proj2 (Hf 4300%nat (text "5") Hnum) Hlen').
Defined.

(** X5.  The three variants classify every line alike, although
    [functional.py] writes the range test as [< 1 or > 9] and the other
    two as [not 1 <= n <= 9]. *)
Theorem input_routines_agree :
  ∀ py s,
    Functional.get_user_input_as_int py s = Oop.get_user_input py s ∧
    OopNpc.get_user_input py s = Oop.get_user_input py s.
Proof.
  intros py s. split; [apply get_user_input_as_int_eq|reflexivity].
Qed.

(** ** The row check on boards of any shape *)

Lemma oop_row_scan_Forall player row :
  Oop.Board.row_scan player row = true ↔ Forall (fun c => c = player) row.
Proof.
  induction row as [|c row IH]; simpl; [by split|].
  case_bool_decide as Hc.
  - split; [discriminate|]. intros [? _]%Forall_cons. done.
  - rewrite IH, Forall_cons. split; [|tauto].
    intros Hrow. split; [|done]. by destruct (decide (c = player)).
Qed.

Lemma oop_check_rows_loop_Exists player rows :
  Oop.Board._check_rows_loop player rows = true
  ↔ Exists (Forall (fun c => c = player)) rows.
Proof.
  induction rows as [|row rows IH]; simpl.
  - split; [discriminate|]. by intros ?%Exists_nil.
  - rewrite Exists_cons, <- IH, <- oop_row_scan_Forall.
    destruct (Oop.Board.row_scan player row); split; auto.
    by intros [?|?].
Qed.

Lemma functional_row_scan_Forall player row :
  Functional.row_scan player row = true
  ↔ Forall (fun c => c = Some player) row.
Proof.
  induction row as [|c row IH]; simpl; [by split|].
  case_bool_decide as Hc.
  - split; [discriminate|]. intros [? _]%Forall_cons. done.
  - rewrite IH, Forall_cons. split; [|tauto].
    intros Hrow. split; [|done]. by destruct (decide (c = Some player)).
Qed.

(** Once a row has been scanned, [retval] is bound and the loop returns. *)
Lemma functional_check_rows_loop_bound player rows :
  ∀ v, ∃ r, Functional.check_rows_loop player (Some v) rows = Ok r ∧
            (r = true ↔
             (rows = [] ∧ v = true) ∨
             Exists (Forall (fun c => c = Some player)) rows).
Proof.
  induction rows as [|row rows IH]; intros v; simpl.
  - exists v. split; [done|]. split; [auto|].
    intros [[_ ?]|?%Exists_nil]; done.
  - pose proof (functional_row_scan_Forall player row) as Hrow.
    destruct (Functional.row_scan player row) eqn:Escan.
    + exists true. split; [done|]. split; [|done].
      intros _. right. apply Exists_cons. left. by apply Hrow.
    + destruct (IH false) as (r & -> & Hr). exists r. split; [done|].
      rewrite Hr, Exists_cons. split.
      * intros [[_ ?]|?]; [done|auto].
      * intros [[? _]|[Hfull|?]]; [done| |auto].
        apply Hrow in Hfull. discriminate.
Qed.

(** X6.  The row checks on a board of any number of rows of any width.
    The loops of [functional.py] and [oop.py] report a row exactly when
    some row holds the player's mark in all its cells (a row without cells
    counts); the membership test of [oop_npc.py] asks in addition that the
    row has [_SIZE] cells.  On a board without rows [oop.py] returns
    [False], and [functional.py] raises [UnboundLocalError], its [retval]
    never having been bound. *)
Theorem row_checks_on_any_board :
  (∀ g player,
     Functional.board g ≠ [] →
     ∃ r, Functional.check_rows player g = (Ok r, g) ∧
          (r = true ↔
           Exists (Forall (fun c => c = Some player)) (Functional.board g))) ∧
  (∀ g player,
     Functional.board g = [] →
     Functional.check_rows player g = (Raise UnboundLocalError, g)) ∧
  (∀ self player,
     ∃ r, Oop.Board._check_rows player self = (Ok r, self) ∧
          (r = true ↔
           Exists (Forall (fun c => c = player)) (Oop.Board.grid self))) ∧
  (∀ self player,
     ∃ r, OopNpc.Board._check_rows player self = (Ok r, self) ∧
          (r = true ↔
           Exists (fun row => length row = OopNpc.Board._SIZE ∧
                              Forall (fun c => c = player) row)
                  (OopNpc.Board.grid self))).
Proof.
  split; [|split; [|split]].
  - intros [[|row rows] n] player Hrows; [done|].
    unfold Functional.check_rows, reads. simpl.
    pose proof (functional_row_scan_Forall player row) as Hrow.
    destruct (Functional.row_scan player row) eqn:Escan.
    + exists true. split; [done|]. split; [|done].
      intros _. apply Exists_cons. left. by apply Hrow.
    + destruct (functional_check_rows_loop_bound player rows false)
        as (r & -> & Hr).
      exists r. split; [done|]. rewrite Hr, Exists_cons. split.
      * intros [[_ ?]|?]; [done|auto].
      * intros [Hfull|?]; [|auto]. apply Hrow in Hfull. discriminate.
  - intros [b n] player. simpl. by intros ->.
  - intros self player. eexists. split; [reflexivity|].
    apply oop_check_rows_loop_Exists.
  - intros self player. eexists. split; [reflexivity|].
    rewrite bool_decide_eq_true, Exists_exists. split.
    + intros Hin. exists (replicate OopNpc.Board._SIZE player).
      split; [done|]. split; [by rewrite length_replicate|].
      apply Forall_forall. by intros c ->%elem_of_replicate_inv.
    + intros (row & Hin & Hlen & Hall).
      replace (replicate OopNpc.Board._SIZE player) with row; [done|].
      rewrite <- Hlen. symmetry. apply replicate_as_elem_of.
      split; [done|]. intros y Hy. rewrite Forall_forall in Hall.
      by apply Hall.
Qed.

Lemma row_checks_on_any_board_witness :
  let g := {| Functional.board := [[Some true]; []]; Functional.turn := 0 |} in
  Functional.board g ≠ [] ∧
  ∃ r, Functional.check_rows false g = (Ok r, g) ∧
       (r = true ↔
        Exists (Forall (fun c => c = Some false)) (Functional.board g)).
Proof.
  intros g.
  assert (Hrows : Functional.board g ≠ []) by discriminate.
  split; [exact Hrows|].
  destruct row_checks_on_any_board as (Hf & _).
  exact (Hf g false Hrows).
Defined.

(** ** Printed boards *)

Lemma string_app_cons x (a b : string) :
  (String x a ++ b = String x (a ++ b))%string.
Proof. reflexivity. Qed.

Lemma string_app_empty (b : string) : ("" ++ b = b)%string.
Proof. reflexivity. Qed.

Lemma string_app_assoc (a b c : string) :
  ((a ++ b) ++ c = a ++ (b ++ c))%string.
Proof.
  induction a as [|x a IH]; [done|].
  rewrite !string_app_cons. by f_equal.
Qed.

Section Rendered.
Context {A : Type} (glyph : A → string).

(** No glyph is the start of another: a glyph is read back from the
    front of a text. *)
Hypothesis glyph_read_back :
  ∀ a b s s', (glyph a ++ s = glyph b ++ s')%string → a = b ∧ s = s'.

Lemma rendered_row_3_inj (a b c a' b' c' : A) s s' :
  (rendered_row glyph [a; b; c] ++ s
   = rendered_row glyph [a'; b'; c'] ++ s')%string →
  a = a' ∧ b = b' ∧ c = c' ∧ s = s'.
Proof.
  unfold rendered_row. simpl. rewrite !string_app_assoc.
  intros [-> H]%glyph_read_back. apply (inj (String.app " ")) in H.
  apply glyph_read_back in H as [-> H]. apply (inj (String.app " ")) in H.
  apply glyph_read_back in H as [-> H]. apply (inj (String.app " ")) in H.
  by apply (inj (String.app newline)) in H as ->.
Qed.

Lemma rendered_inj (g g' : list (list A)) :
  shape3 g → shape3 g' → rendered glyph g = rendered glyph g' → g = g'.
Proof.
  intros (a & b & c & d & e & f & h & j & k & ->)%shape3_inv.
  intros (a' & b' & c' & d' & e' & f' & h' & j' & k' & ->)%shape3_inv.
  unfold rendered. simpl. intros H%(inj (String.app newline)).
  apply rendered_row_3_inj in H as (-> & -> & -> & H).
  apply rendered_row_3_inj in H as (-> & -> & -> & H).
  by apply rendered_row_3_inj in H as (-> & -> & -> & _).
Qed.

End Rendered.

Lemma oop_value_read_back a b s s' :
  (Oop.value a ++ s = Oop.value b ++ s')%string → a = b ∧ s = s'.
Proof.
  destruct a, b; cbv [Oop.value String.append]; intros [=]; by subst.
Qed.

Lemma npc_value_read_back a b s s' :
  (OopNpc.value a ++ s = OopNpc.value b ++ s')%string → a = b ∧ s = s'.
Proof.
  destruct a, b; cbv [OopNpc.value String.append]; intros [=]; by subst.
Qed.

Lemma player_map_read_back a b s s' :
  (Functional.player_map a ++ s = Functional.player_map b ++ s')%string →
  a = b ∧ s = s'.
Proof.
  destruct a as [[]|], b as [[]|];
    cbv [Functional.player_map String.append]; intros [=]; by subst.
Qed.

Lemma oop_display_rendered self out :
  shape3 (Oop.Board.grid self) →
  Oop.Board.display self out
  = (Ok (), (out ++ rendered Oop.value (Oop.Board.grid self))%string).
Proof.
  destruct self as [G n]. simpl.
  intros (a & b & c & d & e & f & h & j & k & ->)%shape3_inv.
  cbv -[String.append Oop.value newline].
  repeat rewrite string_app_assoc. reflexivity.
Qed.

Lemma npc_display_rendered self out :
  shape3 (OopNpc.Board.grid self) →
  OopNpc.Board.display self out
  = (Ok (), (out ++ rendered OopNpc.value (OopNpc.Board.grid self))%string).
Proof.
  destruct self as [G n]. simpl.
  intros (a & b & c & d & e & f & h & j & k & ->)%shape3_inv.
  cbv -[String.append OopNpc.value newline].
  repeat rewrite string_app_assoc. reflexivity.
Qed.

Lemma functional_display_rendered g out :
  shape3 (Functional.board g) →
  Functional.display_board g out
  = (Ok (),
     (out ++ rendered Functional.player_map (Functional.board g))%string).
Proof.
  destruct g as [G n]. simpl.
  intros (a & b & c & d & e & f & h & j & k & ->)%shape3_inv.
  cbv -[String.append Functional.player_map newline].
  repeat rewrite string_app_assoc. reflexivity.
Qed.

(** X7.  Printing a three by three board raises nothing and appends to
    the output an empty line, one line for each row with a space after
    each glyph, and an empty line; and the printed text tells the boards
    apart: two boards printed after the same output give the same text
    only if they hold the same marks. *)
Theorem display_prints_the_grid :
  ((∀ g out, shape3 (Functional.board g) →
      Functional.display_board g out
      = (Ok (),
         (out ++ rendered Functional.player_map (Functional.board g))%string))
   ∧
   (∀ g g' out,
      shape3 (Functional.board g) → shape3 (Functional.board g') →
      Functional.display_board g out = Functional.display_board g' out →
      Functional.board g = Functional.board g')) ∧
  ((∀ self out, shape3 (Oop.Board.grid self) →
      Oop.Board.display self out
      = (Ok (), (out ++ rendered Oop.value (Oop.Board.grid self))%string)) ∧
   (∀ self self' out,
      shape3 (Oop.Board.grid self) → shape3 (Oop.Board.grid self') →
      Oop.Board.display self out = Oop.Board.display self' out →
      Oop.Board.grid self = Oop.Board.grid self')) ∧
  ((∀ self out, shape3 (OopNpc.Board.grid self) →
      OopNpc.Board.display self out
      = (Ok (),
         (out ++ rendered OopNpc.value (OopNpc.Board.grid self))%string)) ∧
   (∀ self self' out,
      shape3 (OopNpc.Board.grid self) → shape3 (OopNpc.Board.grid self') →
      OopNpc.Board.display self out = OopNpc.Board.display self' out →
      OopNpc.Board.grid self = OopNpc.Board.grid self')).
Proof.
  split; [|split]; split.
  - exact functional_display_rendered.
  - intros g g' out Hg Hg'.
    rewrite !functional_display_rendered by done.
    intros [= H%(inj (String.app out))].
    by apply (rendered_inj _ player_map_read_back).
  - exact oop_display_rendered.
  - intros self self' out Hg Hg'.
    rewrite !oop_display_rendered by done.
    intros [= H%(inj (String.app out))].
    by apply (rendered_inj _ oop_value_read_back).
  - exact npc_display_rendered.
  - intros self self' out Hg Hg'.
    rewrite !npc_display_rendered by done.
    intros [= H%(inj (String.app out))].
    by apply (rendered_inj _ npc_value_read_back).
Qed.

Lemma display_prints_the_grid_witness :
  shape3 (Oop.Board.grid Oop.Board.__init__) ∧
  Oop.Board.display Oop.Board.__init__ ""%string
  = (Ok (),
     ("" ++ rendered Oop.value (Oop.Board.grid Oop.Board.__init__))%string).
Proof.
  assert (Hshape : shape3 (Oop.Board.grid Oop.Board.__init__)).
  { split; [reflexivity|]. simpl. repeat constructor. }
  split; [exact Hshape|].
  destruct display_prints_the_grid as (_ & (Hoop & _) & _).
  exact (Hoop Oop.Board.__init__ ""%string Hshape).
Defined.

(** ** Invariants of the game *)

Section Counting.
Context {A : Type} `{EqDecision A}.
Implicit Types (a b c d e f h j k x : A).

Lemma three_in_line_3x3 a b c d e f h j k x :
  three_in_line [[a; b; c]; [d; e; f]; [h; j; k]] x ↔
  (a = x ∧ b = x ∧ c = x) ∨ (d = x ∧ e = x ∧ f = x) ∨
  (h = x ∧ j = x ∧ k = x) ∨ (a = x ∧ d = x ∧ h = x) ∨
  (b = x ∧ e = x ∧ j = x) ∨ (c = x ∧ f = x ∧ k = x) ∨
  (a = x ∧ e = x ∧ k = x) ∨ (c = x ∧ e = x ∧ h = x).
Proof.
  unfold three_in_line. rewrite full_row_3x3, full_col_3x3, full_diag_3x3.
  tauto.
Qed.

Lemma count_row_3 x a b c :
  count_row x [a; b; c]
  = count_row x [a] + count_row x [b] + count_row x [c].
Proof.
  unfold count_row. rewrite !filter_cons, filter_nil.
  repeat case_decide; reflexivity.
Qed.

Lemma count_row_same x : count_row x [x] = 1.
Proof.
  unfold count_row. rewrite filter_cons, filter_nil.
  case_decide; [reflexivity|congruence].
Qed.

Lemma count_row_other x c : c ≠ x → count_row x [c] = 0.
Proof.
  intros Hc. unfold count_row. rewrite filter_cons, filter_nil.
  case_decide; [congruence|reflexivity].
Qed.

Lemma row_marks_le_1 (empty : A) c : 0 ≤ row_marks empty [c] ≤ 1.
Proof.
  unfold row_marks. rewrite filter_cons, filter_nil.
  case_decide; simpl; lia.
Qed.

(** A mark stored over another mark is one more of its kind, and changes
    the number of no third kind. *)
Lemma count_mark_store (g g' : list (list A)) rc old p :
  shape3 g → valid_coords rc → old ≠ p →
  getitem2 g rc.1 rc.2 = Ok old →
  setitem2 g rc.1 rc.2 p = Ok g' →
  count_mark p g' = count_mark p g + 1 ∧
  ∀ q, q ≠ p → q ≠ old → count_mark q g' = count_mark q g.
Proof.
  intros (a & b & c & d & e & f & h & j & k & ->)%shape3_inv.
  destruct rc as [row col]. intros [Hr Hc] Hold. simpl in Hr, Hc |- *.
  pose proof (count_row_same p) as Hsame.
  pose proof (count_row_other p old Hold) as Hother.
  destruct (index3_cases row Hr) as [-> | [-> | ->]],
    (index3_cases col Hc) as [-> | [-> | ->]];
    intros [= ->] [= <-]; (split; [|intros q Hqp Hqo]);
    unfold count_mark; simpl; rewrite !count_row_3;
    rewrite ?(count_row_other q p), ?(count_row_other q old) by done; lia.
Qed.

(** A mark stored for one player completes no line of another mark. *)
Lemma store_no_new_line (g g' : list (list A)) rc p q :
  shape3 g → valid_coords rc → q ≠ p →
  setitem2 g rc.1 rc.2 p = Ok g' →
  three_in_line g' q → three_in_line g q.
Proof.
  intros (a & b & c & d & e & f & h & j & k & ->)%shape3_inv.
  destruct rc as [row col]. intros [Hr Hc] Hq. simpl in Hr, Hc |- *.
  destruct (index3_cases row Hr) as [-> | [-> | ->]],
    (index3_cases col Hc) as [-> | [-> | ->]];
    intros [= <-]; rewrite !three_in_line_3x3; intuition congruence.
Qed.

(** With fewer than nine marks a three by three grid has a free cell, and
    with nine it has none. *)
Lemma marks_free_cell (empty : A) (g : list (list A)) :
  shape3 g → marks empty g < 9 →
  ∃ rc, valid_coords rc ∧ getitem2 g rc.1 rc.2 = Ok empty.
Proof.
  intros (a & b & c & d & e & f & h & j & k & ->)%shape3_inv.
  unfold marks. simpl. rewrite !row_marks_3. intros Hlt.
  destruct (decide (a = empty)) as [->|Ha];
    [by exists (0, 0); split; [split|]|].
  destruct (decide (b = empty)) as [->|Hb];
    [by exists (0, 1); split; [split|]|].
  destruct (decide (c = empty)) as [->|Hc];
    [by exists (0, 2); split; [split|]|].
  destruct (decide (d = empty)) as [->|Hd];
    [by exists (1, 0); split; [split|]|].
  destruct (decide (e = empty)) as [->|He];
    [by exists (1, 1); split; [split|]|].
  destruct (decide (f = empty)) as [->|Hf];
    [by exists (1, 2); split; [split|]|].
  destruct (decide (h = empty)) as [->|Hh];
    [by exists (2, 0); split; [split|]|].
  destruct (decide (j = empty)) as [->|Hj];
    [by exists (2, 1); split; [split|]|].
  destruct (decide (k = empty)) as [->|Hk];
    [by exists (2, 2); split; [split|]|].
  rewrite !(row_marks_mark empty) in Hlt by done. lia.
Qed.

Lemma marks_full (empty : A) (g : list (list A)) rc c :
  shape3 g → marks empty g = 9 → valid_coords rc →
  getitem2 g rc.1 rc.2 = Ok c → c ≠ empty.
Proof.
  intros (a & b & c' & d & e & f & h & j & k & ->)%shape3_inv.
  unfold marks. simpl. rewrite !row_marks_3. intros Hnine.
  destruct rc as [row col]. intros [Hr Hc]. simpl in Hr, Hc |- *.
  pose proof (row_marks_le_1 empty a). pose proof (row_marks_le_1 empty b).
  pose proof (row_marks_le_1 empty c'). pose proof (row_marks_le_1 empty d).
  pose proof (row_marks_le_1 empty e). pose proof (row_marks_le_1 empty f).
  pose proof (row_marks_le_1 empty h). pose proof (row_marks_le_1 empty j).
  pose proof (row_marks_le_1 empty k).
  pose proof (row_marks_empty empty) as Hempty.
  destruct (index3_cases row Hr) as [-> | [-> | ->]],
    (index3_cases col Hc) as [-> | [-> | ->]];
    intros [= <-] ->; lia.
Qed.

End Counting.

Section GameInvariant.
Context {A : Type} `{EqDecision A} (empty x o : A) (other : A → A).
Hypothesis Hx : x ≠ empty.
Hypothesis Ho : o ≠ empty.
Hypothesis Hxo : x ≠ o.
Hypothesis Hother_x : other x = o.
Hypothesis Hother_o : other o = x.

Lemma move_shape3 v v' :
  move empty other v v' → shape3 (g_grid v) → shape3 (g_grid v').
Proof.
  intros Hmove Hshape.
  destruct Hmove; simpl in *; try done;
    by apply (setitem2_shape3 g rc.1 rc.2 p).
Qed.

Lemma marks_kept_refl (v : game A) : marks_kept empty v v.
Proof. by intros rc c _ _. Qed.

Lemma marks_kept_trans (u v w : game A) :
  marks_kept empty u v → marks_kept empty v w → marks_kept empty u w.
Proof. intros Huv Hvw rc c Hrc Hc Hu. apply Hvw; [done..|]. by apply Huv. Qed.

Lemma store_marks_kept (g g' : list (list A)) rc p :
  valid_coords rc → getitem2 g rc.1 rc.2 = Ok empty →
  setitem2 g rc.1 rc.2 p = Ok g' →
  ∀ rc' c, valid_coords rc' → c ≠ empty →
    getitem2 g rc'.1 rc'.2 = Ok c → getitem2 g' rc'.1 rc'.2 = Ok c.
Proof.
  intros [Hr Hc] Hfree Hset rc' c [Hr' Hc'] Hmark Hcell.
  rewrite <- Hcell.
  apply (getitem2_setitem2_other g rc.1 rc.2 p); [lia..| |done].
  intros [= Hrow Hcol]. rewrite Hrow, Hcol, Hfree in Hcell. congruence.
Qed.

Lemma move_marks_kept v v' : move empty other v v' → marks_kept empty v v'.
Proof.
  intros Hmove.
  destruct Hmove; intros rc' c; simpl;
    [auto|auto|by eapply store_marks_kept..].
Qed.

(** What placing the mark of [x] or of [o] in a free cell does to the
    numbers of marks and to the lines. *)
Lemma placed_facts (g g' : list (list A)) rc p :
  shape3 g → valid_coords rc → p = x ∨ p = o →
  getitem2 g rc.1 rc.2 = Ok empty →
  setitem2 g rc.1 rc.2 p = Ok g' →
  shape3 g' ∧ marks empty g' = marks empty g + 1 ∧
  count_mark p g' = count_mark p g + 1 ∧
  count_mark (other p) g' = count_mark (other p) g ∧
  (three_in_line g' (other p) → three_in_line g (other p)) ∧
  (other p = x ∨ other p = o) ∧ other p ≠ p.
Proof.
  intros Hshape Hrc Hp Hfree Hset.
  assert (p ≠ empty) by (by destruct Hp as [-> | ->]).
  assert (other p ≠ p ∧ other p ≠ empty ∧ (other p = x ∨ other p = o))
    as (Hop & Hoe & Hoxo).
  { destruct Hp as [-> | ->]; rewrite ?Hother_x, ?Hother_o; auto. }
  destruct (count_mark_store g g' rc empty p) as [Hcount Hrest];
    [done..|].
  split; [exact (setitem2_shape3 _ _ _ _ _ Hshape Hset)|].
  split; [by apply (marks_store empty g g' rc p)|].
  split; [done|]. split; [by apply Hrest|].
  split; [by apply (store_no_new_line g g' rc p)|]. done.
Qed.

Lemma move_game_inv v v' :
  move empty other v v' → game_inv empty x o v → game_inv empty x o v'.
Proof.
  intros Hmove (Hshape & Hcounter & Hbound & Hbalance & Hlines).
  destruct Hmove as [g n p|g n p|g n p rc g' Hrc Hfree Hset Hline
                    |g n p rc g' Hrc Hfree Hset Hline Hnine
                    |g n p rc g' Hrc Hfree Hset Hline Hnine];
    unfold game_inv, counter_rule, counter_bound, balance_rule, lines_rule
      in *; simpl in *; try done.
  all: destruct Hbalance as [Hturn Hbalance].
  all: assert (Hp : p = x ∨ p = o) by (destruct Hbalance as [[? _]|[? _]]; auto).
  all: destruct (placed_facts g g' rc p Hshape Hrc Hp Hfree Hset)
         as (Hshape' & Hmarks & Hcp & Hco & Hnoline & Hoxo & Hop).
  all: destruct Hlines as [Hnx Hno].
  all: destruct Hbalance as [[-> Heq]|[-> Heq]];
         rewrite ?Hother_x, ?Hother_o in *.
  all: repeat split; try done; try lia; try tauto; try apply Hshape'.
  all: first [ left; repeat split; (done || lia || tauto)
             | right; repeat split; (done || lia || tauto) ].
Qed.

Lemma moves_game_inv v v' :
  rtc (move empty other) v v' → game_inv empty x o v → game_inv empty x o v'.
Proof.
  induction 1 as [|u v w Hmove _ IH]; [done|].
  intros Hu. apply IH. by eapply move_game_inv.
Qed.

Lemma moves_marks_kept v v' :
  rtc (move empty other) v v' → marks_kept empty v v'.
Proof.
  induction 1 as [|u v w Hmove _ IH]; [apply marks_kept_refl|].
  eapply marks_kept_trans; [by apply move_marks_kept|done].
Qed.

Lemma moves_shape3 v v' :
  rtc (move empty other) v v' → shape3 (g_grid v) → shape3 (g_grid v').
Proof.
  induction 1 as [|u v w Hmove _ IH]; [done|].
  intros Hu. apply IH. by eapply move_shape3.
Qed.

Lemma game_inv_fresh :
  game_inv empty x o
    (Game ((fun _ => (fun _ => empty) <$> range 3) <$> range 3) 0 x Running).
Proof.
  assert (Hcx : count_row x [empty] = 0) by (by apply count_row_other).
  assert (Hco : count_row o [empty] = 0) by (by apply count_row_other).
  unfold game_inv, counter_rule, counter_bound, balance_rule, lines_rule.
  simpl. repeat split.
  - repeat constructor.
  - symmetry. by apply marks_fresh.
  - done.
  - unfold count_mark. simpl. rewrite !count_row_3, Hcx, Hco. done.
  - left. split; [done|]. unfold count_mark. simpl.
    rewrite !count_row_3, Hcx, Hco. done.
  - rewrite three_in_line_3x3. intuition congruence.
  - rewrite three_in_line_3x3. intuition congruence.
Qed.

End GameInvariant.

(** ** The variants refine the game *)

(** *** [functional.py] *)

(** One iteration either makes a move of the game, or the line makes the
    input routine raise [ValueError], which no [except] clause catches. *)
Lemma functional_iteration_move py line pl g :
  shape3 (Functional.board g) →
  (Oop.get_user_input py line = Raise ValueError ∧
   Functional.iteration py line pl g = (Raise ValueError, g)) ∨
  (Oop.get_user_input py line ≠ Raise ValueError ∧
   ∃ c p g',
     Functional.iteration py line pl g = (Ok (c, p), g') ∧
     move None functional_other
       (Game (Functional.board g) (Functional.turn g) (Some pl) Running)
       (Game (Functional.board g') (Functional.turn g') (Some p)
             (functional_phase c))).
Proof.
  intros Hshape. unfold Functional.iteration, Functional.try_block.
  destruct (Functional.get_user_input_as_int py line)
    as [location|e] eqn:Ein.
  2: { rewrite (M_bind_Raise _ _ g e g) by reflexivity.
       rewrite get_user_input_as_int_eq in Ein.
       destruct (get_user_input_raises _ _ _ Ein) as [-> | [-> | [-> | ->]]];
         [right; (split; [by rewrite Ein|]); eexists _, _, _;
          (split; [reflexivity|]); constructor..
         |by left]. }
  rewrite (M_bind_Ok _ _ g location g) by reflexivity.
  cbv zeta.
  rewrite get_user_input_as_int_eq in Ein.
  apply get_user_input_valid in Ein as Hloc.
  right. split; [by rewrite Ein|].
  destruct (functional_is_taken_Ok g location Hshape Hloc)
    as (c & Hcell & Htaken).
  rewrite (M_bind_Ok _ _ _ _ _ Htaken).
  case_bool_decide as Hc.
  { eexists _, _, _. split; [reflexivity|]. constructor. }
  assert (c = None) as -> by (by destruct c; [destruct Hc|]).
  destruct (functional_add_to_board_stores g location pl Hshape Hloc)
    as (b' & Hadd & Hshape' & _).
  rewrite (M_bind_Ok _ _ _ _ _ Hadd).
  apply functional_add_to_board_inv in Hadd as [Hset _].
  cbn [Functional.board] in Hset.
  assert (Hrc : valid_coords (Functional.linear_position_to_coords location)).
  { change (valid_coords (Oop.Board.get_coords location)).
    by apply valid_position_coords. }
  set (g1 := {| Functional.board := b'; Functional.turn := _ |}).
  destruct (functional_chicken_dinner_3x3 g1 pl Hshape') as (r & Hwin & Hr).
  rewrite (M_bind_Ok _ _ _ _ _ Hwin).
  destruct r.
  { eexists _, _, _. split; [reflexivity|].
    apply (move_win _ _ _ _ _ _ b' Hrc Hcell Hset). by apply Hr. }
  assert (Hnoline : ¬ three_in_line b' (Some pl)).
  { intros Hline. by apply Hr in Hline. }
  rewrite (M_bind_Ok _ _ _ _ _ (functional_check_tie_eq g1)).
  destruct (Functional.turn g1 + 1 =? 9) eqn:Enine;
    (eexists _, _, _; split; [reflexivity|]).
  - apply (move_tie _ _ _ _ _ _ b' Hrc Hcell Hset Hnoline).
    subst g1. simpl in *. lia.
  - apply (move_next None functional_other _ _ (Some pl) _ b'
             Hrc Hcell Hset Hnoline).
    subst g1. simpl in *. lia.
Qed.

Lemma functional_run_moves py lines :
  ∀ ls, shape3 (Functional.board (Functional.globs ls)) →
        (∃ ls', Functional.run py lines ls = Ok ls' ∧
                rtc (move None functional_other)
                  (functional_view ls) (functional_view ls')) ∨
        (Functional.run py lines ls = Raise ValueError ∧
         refused py lines).
Proof.
  induction lines as [|line lines IH]; intros [g pl c] Hshape;
    simpl in *; [left; by eexists|].
  destruct c as [|why]; [|left; by eexists].
  destruct (functional_iteration_move py line pl g Hshape)
    as [[Hline ->]|(Hline & c' & p' & g' & -> & Hmove)].
  { right. split; [done|]. by apply Exists_cons_hd. }
  destruct (IH {| Functional.globs := g'; Functional.player := p';
                  Functional.ctl := c' |})
    as [(ls' & Hrun & Hmoves)|[Hrun Hlines]].
  { by apply (move_shape3 _ _ _ _ Hmove). }
  - left. exists ls'. split; [done|]. by eapply rtc_l.
  - right. split; [done|]. by apply Exists_cons_tl.
Qed.

Lemma functional_start_inv :
  game_inv None (Some true) (Some false) (functional_view Functional.start).
Proof. by apply game_inv_fresh. Qed.

Lemma functional_start_shape3 :
  shape3 (Functional.board (Functional.globs Functional.start)).
Proof. apply functional_start_inv. Qed.

Lemma functional_reachable_moves py lines ls :
  Functional.run py lines Functional.start = Ok ls →
  rtc (move None functional_other)
    (functional_view Functional.start) (functional_view ls).
Proof.
  intros Hrun.
  destruct (functional_run_moves py lines Functional.start
              functional_start_shape3)
    as [(ls' & Hrun' & Hmoves)|[Hrun' _]]; congruence.
Qed.

Lemma functional_reachable_inv py lines ls :
  Functional.run py lines Functional.start = Ok ls →
  game_inv None (Some true) (Some false) (functional_view ls).
Proof.
  intros Hmoves%functional_reachable_moves.
  by apply (moves_game_inv None (Some true) (Some false) functional_other
              ltac:(done) ltac:(done) ltac:(done) eq_refl eq_refl
              _ _ Hmoves functional_start_inv).
Qed.


Lemma converted_not_refused py lines :
  converted py lines → ¬ refused py lines.
Proof.
  unfold converted, refused. induction 1 as [|s lines Hs _ IH].
  - by intros ?%Exists_nil.
  - by intros [?|?]%Exists_cons.
Qed.

Lemma functional_run_converted py lines :
  converted py lines →
  ∃ ls, Functional.run py lines Functional.start = Ok ls.
Proof.
  intros Hlines%converted_not_refused.
  destruct (functional_run_moves py lines Functional.start
              functional_start_shape3)
    as [(ls' & Hrun' & _)|[_ Hrefused]]; [by exists ls'|done].
Qed.

(** *** [oop.py] *)

Lemma oop_current_cases cls :
  (Oop.Players.current cls = Oop.PRIMARY ∨
   Oop.Players.current cls = Oop.SECONDARY) ∧
  (Oop.Players.switch cls).1
  = Oop.Players.current (Oop.Players.switch cls).2 ∧
  Oop.Players.current (Oop.Players.switch cls).2
  = oop_other (Oop.Players.current cls).
Proof. destruct cls as [[]]; simpl; auto. Qed.

(** One iteration started with the local [current_player] equal to
    [Players.current()] ends with the two equal again. *)
Lemma oop_iteration_move py line cls b :
  shape3 (Oop.Board.grid b) →
  (Oop.get_user_input py line = Raise ValueError ∧
   Oop.iteration py line (Oop.Players.current cls)
     {| Oop.players := cls; Oop.board := b |}
   = (Raise ValueError, {| Oop.players := cls; Oop.board := b |})) ∨
  (Oop.get_user_input py line ≠ Raise ValueError ∧
   ∃ c cls' b',
     Oop.iteration py line (Oop.Players.current cls)
       {| Oop.players := cls; Oop.board := b |}
     = (Ok (c, Oop.Players.current cls'),
        {| Oop.players := cls'; Oop.board := b' |}) ∧
     move Oop.EMPTY oop_other
       (Game (Oop.Board.grid b) (Oop.Board.turn b)
             (Oop.Players.current cls) Running)
       (Game (Oop.Board.grid b') (Oop.Board.turn b')
             (Oop.Players.current cls') (oop_phase c))).
Proof.
  intros Hshape.
  assert (Hcp : Oop.Players.current cls ≠ Oop.EMPTY).
  { by destruct (oop_current_cases cls) as [[-> | ->] _]. }
  set (cp := Oop.Players.current cls) in *.
  unfold Oop.iteration, Oop.try_block.
  destruct (Oop.get_user_input py line) as [location|e] eqn:Ein.
  2: { rewrite (M_bind_Raise _ _ _ e _) by reflexivity.
       destruct (get_user_input_raises _ _ _ Ein) as [-> | [-> | [-> | ->]]];
         [right; (split; [done|]); eexists _, cls, b;
          (split; [reflexivity|]); constructor..
         |by left]. }
  rewrite (M_bind_Ok _ _ _ location _) by reflexivity.
  apply get_user_input_valid in Ein as Hloc.
  right. split; [done|].
  destruct (oop_is_taken_Ok _ location Hshape Hloc) as (c & Hcell & Htaken).
  rewrite (M_bind_Ok _ _ _ _ _ (on_board_eq _ cls _ _ _ Htaken)).
  case_bool_decide as Hc.
  { eexists _, cls, b. split; [reflexivity|]. constructor. }
  assert (c = Oop.EMPTY) as -> by (by destruct (decide (c = Oop.EMPTY))).
  destruct (oop_add_stores b location cp Hshape Hloc)
    as (g' & Hadd & Hshape' & _).
  rewrite (M_bind_Ok _ _ _ _ _ (on_board_eq _ cls _ _ _ Hadd)).
  apply oop_add_inv in Hadd as [Hset _]. cbn [Oop.Board.grid] in Hset.
  pose proof (valid_position_coords location Hloc) as Hrc.
  set (b1 := {| Oop.Board.grid := g'; Oop.Board.turn := _ |}).
  destruct (oop_is_winner_3x3 b1 cp Hshape') as [[Hline Hwin]|[Hline Hwin]].
  { rewrite (M_bind_Raise _ _ _ _ _ (on_board_eq _ cls _ _ _ Hwin)).
    eexists _, cls, b1. split; [reflexivity|].
    by apply (move_win _ _ _ _ _ _ g' Hrc Hcell Hset). }
  rewrite (M_bind_Ok _ _ _ _ _ (on_board_eq _ cls _ _ _ Hwin)).
  pose proof (on_board_eq _ cls _ _ _ (oop_is_tie_eq b1)) as Htie.
  destruct (Oop.Board.turn b1 + 1 =? 9) eqn:Enine.
  { rewrite (M_bind_Raise _ _ _ _ _ Htie).
    eexists _, cls, _. split; [reflexivity|].
    apply (move_tie _ _ _ _ _ _ g' Hrc Hcell Hset Hline).
    subst b1. simpl in *. lia. }
  rewrite (M_bind_Ok _ _ _ _ _ Htie).
  unfold Oop.on_players. cbn [Oop.players Oop.board].
  destruct (oop_current_cases cls) as (_ & Hret & Hnext).
  destruct (Oop.Players.switch cls) as [p cls'] eqn:Eswitch.
  simpl in Hret, Hnext. subst p.
  eexists _, cls', _. split; [reflexivity|].
  rewrite Hnext.
  apply (move_next Oop.EMPTY oop_other _ _ cp _ g' Hrc Hcell Hset Hline).
  subst b1. simpl in *. lia.
Qed.

(** The states of [main] in which the local [current_player] is
    [Players.current()]. *)
Lemma oop_run_moves py lines :
  ∀ cls b c,
    shape3 (Oop.Board.grid b) →
    (∃ cls' b' c',
       Oop.run py lines
         {| Oop.wld := {| Oop.players := cls; Oop.board := b |};
            Oop.current_player := Oop.Players.current cls; Oop.ctl := c |}
       = Ok {| Oop.wld := {| Oop.players := cls'; Oop.board := b' |};
               Oop.current_player := Oop.Players.current cls';
               Oop.ctl := c' |} ∧
       rtc (move Oop.EMPTY oop_other)
         (Game (Oop.Board.grid b) (Oop.Board.turn b)
               (Oop.Players.current cls) (oop_phase c))
         (Game (Oop.Board.grid b') (Oop.Board.turn b')
               (Oop.Players.current cls') (oop_phase c'))) ∨
    (Oop.run py lines
       {| Oop.wld := {| Oop.players := cls; Oop.board := b |};
          Oop.current_player := Oop.Players.current cls; Oop.ctl := c |}
     = Raise ValueError ∧ refused py lines).
Proof.
  induction lines as [|line lines IH]; intros cls b c Hshape;
    simpl; [left; by eexists _, _, _|].
  destruct c as [|why]; [|left; by eexists _, _, _].
  destruct (oop_iteration_move py line cls b Hshape)
    as [[Hline ->]|(Hline & c' & cls' & b' & -> & Hmove)].
  { right. split; [done|]. by apply Exists_cons_hd. }
  destruct (IH cls' b' c')
    as [(cls'' & b'' & c'' & Hrun & Hmoves)|[Hrun Hlines]].
  { by apply (move_shape3 _ _ _ _ Hmove). }
  - left. eexists _, _, _. split; [exact Hrun|]. by eapply rtc_l.
  - right. split; [done|]. by apply Exists_cons_tl.
Qed.

Lemma oop_start_inv :
  game_inv Oop.EMPTY Oop.PRIMARY Oop.SECONDARY (oop_view Oop.start).
Proof. by apply game_inv_fresh. Qed.

Lemma oop_start_moves py lines :
  (∃ ls, Oop.run py lines Oop.start = Ok ls ∧
         rtc (move Oop.EMPTY oop_other) (oop_view Oop.start) (oop_view ls) ∧
         Oop.current_player ls
         = Oop.Players.current (Oop.players (Oop.wld ls))) ∨
  (Oop.run py lines Oop.start = Raise ValueError ∧ refused py lines).
Proof.
  destruct (oop_run_moves py lines Oop.Players.init Oop.Board.__init__
              Oop.Continue)
    as [(cls' & b' & c' & Hrun & Hmoves)|Hraise].
  - split; [reflexivity|]. simpl. repeat constructor.
  - left. eexists. split; [exact Hrun|]. split; [exact Hmoves|reflexivity].
  - by right.
Qed.

Lemma oop_reachable_moves py lines ls :
  Oop.run py lines Oop.start = Ok ls →
  rtc (move Oop.EMPTY oop_other) (oop_view Oop.start) (oop_view ls) ∧
  Oop.current_player ls = Oop.Players.current (Oop.players (Oop.wld ls)).
Proof.
  intros Hrun.
  destruct (oop_start_moves py lines)
    as [(ls' & Hrun' & Hmoves)|[Hrun' _]]; [|congruence].
  assert (ls' = ls) as -> by congruence. done.
Qed.

Lemma oop_reachable_inv py lines ls :
  Oop.run py lines Oop.start = Ok ls →
  game_inv Oop.EMPTY Oop.PRIMARY Oop.SECONDARY (oop_view ls).
Proof.
  intros [Hmoves _]%oop_reachable_moves.
  by apply (moves_game_inv Oop.EMPTY Oop.PRIMARY Oop.SECONDARY oop_other
              ltac:(done) ltac:(done) ltac:(done) eq_refl eq_refl
              _ _ Hmoves oop_start_inv).
Qed.


Lemma oop_run_converted py lines :
  converted py lines → ∃ ls, Oop.run py lines Oop.start = Ok ls.
Proof.
  intros Hlines%converted_not_refused.
  destruct (oop_start_moves py lines)
    as [(ls' & Hrun' & _)|[_ Hrefused]]; [by exists ls'|done].
Qed.

(** *** [oop_npc.py] *)

Lemma npc_on_board_eq {A} (m : M OopNpc.Board.t A) cls b r b' :
  m b = (r, b') →
  OopNpc.on_board m {| OopNpc.players := cls; OopNpc.board := b |}
  = (r, {| OopNpc.players := cls; OopNpc.board := b' |}).
Proof. unfold OopNpc.on_board. simpl. by intros ->. Qed.

Lemma npc_is_taken_cell_Ok self p :
  shape3 (OopNpc.Board.grid self) → valid_position p →
  ∃ c, getitem2 (OopNpc.Board.grid self)
         (OopNpc.Board.get_coords p).1 (OopNpc.Board.get_coords p).2 = Ok c ∧
       OopNpc.Board.is_taken p self
       = (Ok (bool_decide (c ≠ OopNpc.EMPTY)), self).
Proof.
  intros Hshape Hp.
  destruct (getitem2_position_range _ p Hshape) as [Hin _].
  change Oop.Board.get_coords with OopNpc.Board.get_coords in Hin.
  destruct Hin as [c Hc]; [unfold valid_position in Hp; lia|].
  exists c. split; [done|]. by rewrite npc_is_taken_unfold, Hc.
Qed.

Lemma npc_add_inv p player self self' :
  OopNpc.Board.add p player self = (Ok (), self') →
  setitem2 (OopNpc.Board.grid self)
    (OopNpc.Board.get_coords p).1 (OopNpc.Board.get_coords p).2 player
  = Ok (OopNpc.Board.grid self') ∧
  OopNpc.Board.turn self' = OopNpc.Board.turn self.
Proof.
  unfold OopNpc.Board.add.
  destruct (OopNpc.Board.get_coords p) as [row col].
  simpl. destruct (setitem2 _ _ _ _); [|discriminate]. by intros [= <-].
Qed.

Lemma npc_is_tie_eq self :
  OopNpc.Board.is_tie self
  = (if OopNpc.Board.turn self + 1 =? 9 then Raise YouAllLose else Ok (),
     {| OopNpc.Board.grid := OopNpc.Board.grid self;
        OopNpc.Board.turn := OopNpc.Board.turn self + 1 |}).
Proof. unfold OopNpc.Board.is_tie. simpl. by destruct (_ =? _). Qed.

Lemma npc_current_cases cls :
  (OopNpc.Players.current cls = OopNpc.PLAYER ∨
   OopNpc.Players.current cls = OopNpc.COMPUTER) ∧
  (OopNpc.Players.switch cls).1
  = OopNpc.Players.current (OopNpc.Players.switch cls).2 ∧
  OopNpc.Players.current (OopNpc.Players.switch cls).2
  = npc_other (OopNpc.Players.current cls).
Proof. destruct cls as [[]]; simpl; auto. Qed.

(** What [get_location] hands to the loop: for the computer a free
    position, for the player what the input routine gives. *)
Lemma npc_get_location_cases py board cp samples line r rest :
  shape3 (OopNpc.Board.grid board) → Forall valid_position samples →
  OopNpc.get_location py board cp samples line = Some (r, rest) →
  (cp = OopNpc.COMPUTER ∧ ∃ p, r = Ok p ∧ open_position board p) ∨
  (cp ≠ OopNpc.COMPUTER ∧ r = OopNpc.get_user_input py line).
Proof.
  intros Hshape Hall. unfold OopNpc.get_location.
  case_bool_decide as Hcp; [|intros [= <- <-]; by right].
  destruct samples as [|s samples]; [discriminate|].
  apply Forall_cons in Hall as [Hs Hall]. intros Hloop. left.
  split; [done|]. destruct r as [p|e].
  - exists p. split; [done|].
    by apply (sample_loop_returns_open board samples s p rest).
  - by apply sample_loop_no_raise in Hloop.
Qed.

(** One iteration that comes to an end either makes a move of the game,
    or it is the player's turn and the line makes the input routine raise
    [ValueError]. *)
Lemma npc_iteration_move py i cls b r w' :
  shape3 (OopNpc.Board.grid b) → Forall valid_position (OopNpc.samples i) →
  OopNpc.iteration py i (OopNpc.Players.current cls)
    {| OopNpc.players := cls; OopNpc.board := b |} = Some (r, w') →
  (OopNpc.Players.current cls ≠ OopNpc.COMPUTER ∧
   OopNpc.get_user_input py (OopNpc.line i) = Raise ValueError ∧
   r = Raise ValueError ∧
   w' = {| OopNpc.players := cls; OopNpc.board := b |}) ∨
  (∃ c cls' b',
     r = Ok (c, OopNpc.Players.current cls') ∧
     w' = {| OopNpc.players := cls'; OopNpc.board := b' |} ∧
     move OopNpc.EMPTY npc_other
       (Game (OopNpc.Board.grid b) (OopNpc.Board.turn b)
             (OopNpc.Players.current cls) Running)
       (Game (OopNpc.Board.grid b') (OopNpc.Board.turn b')
             (OopNpc.Players.current cls') (npc_phase c)) ∧
     (OopNpc.Players.current cls = OopNpc.COMPUTER →
      marks OopNpc.EMPTY (OopNpc.Board.grid b')
      = marks OopNpc.EMPTY (OopNpc.Board.grid b) + 1)).
Proof.
  intros Hshape Hall.
  assert (Hcp : OopNpc.Players.current cls ≠ OopNpc.EMPTY).
  { by destruct (npc_current_cases cls) as [[-> | ->] _]. }
  set (cp := OopNpc.Players.current cls) in *.
  unfold OopNpc.iteration, OopNpc.try_block. cbn [OopNpc.board].
  destruct (OopNpc.get_location py b cp (OopNpc.samples i) (OopNpc.line i))
    as [[r0 rest]|] eqn:Eloc; [|discriminate].
  apply npc_get_location_cases in Eloc as Hcases; [|done..].
  assert (Hr0 : (∃ e, r0 = Raise e ∧ cp ≠ OopNpc.COMPUTER ∧
                      OopNpc.get_user_input py (OopNpc.line i) = Raise e ∧
                      (e = UserExit ∨ e = InvalidInput ∨
                       e = InputOutOfBounds ∨ e = ValueError)) ∨
                (∃ location, r0 = Ok location ∧ valid_position location ∧
                   (cp = OopNpc.COMPUTER →
                    OopNpc.Board.is_taken location b = (Ok false, b)))).
  { destruct Hcases as [[Hc (p & -> & Hp & Hfree)]|[Hc ->]].
    - right. by exists p.
    - destruct (OopNpc.get_user_input py (OopNpc.line i))
        as [n|e] eqn:Ein.
      + right. exists n. split; [done|].
        split; [by apply (get_user_input_valid py (OopNpc.line i))|done].
      + left. exists e. split; [done|]. split; [done|]. split; [done|].
        by apply (get_user_input_raises py (OopNpc.line i)). }
  clear Hcases Eloc.
  destruct Hr0
    as [(e & -> & Hhuman & Hin & He)|(location & -> & Hloc & Hopen)].
  { rewrite (M_bind_Raise _ _ _ e _) by reflexivity.
    destruct He as [-> | [-> | [-> | ->]]]; intros [= <- <-];
      [right; eexists _, cls, b; (split; [reflexivity|]);
       (split; [reflexivity|]); (split; [constructor|done])..
      |by left]. }
  rewrite (M_bind_Ok _ _ _ location _) by reflexivity.
  intros Hit. right. revert Hit.
  destruct (npc_is_taken_cell_Ok _ location Hshape Hloc)
    as (c & Hcell & Htaken).
  rewrite (M_bind_Ok _ _ _ _ _ (npc_on_board_eq _ cls _ _ _ Htaken)).
  case_bool_decide as Hc.
  { intros [= <- <-]. eexists _, cls, b. split; [reflexivity|].
    split; [reflexivity|]. split; [constructor|].
    intros Hcomputer. rewrite (Hopen Hcomputer) in Htaken. discriminate. }
  assert (c = OopNpc.EMPTY) as ->
    by (by destruct (decide (c = OopNpc.EMPTY))).
  destruct (npc_add_stores b location cp Hshape Hloc)
    as (g' & Hadd & Hshape' & _).
  rewrite (M_bind_Ok _ _ _ _ _ (npc_on_board_eq _ cls _ _ _ Hadd)).
  apply npc_add_inv in Hadd as [Hset _]. cbn [OopNpc.Board.grid] in Hset.
  assert (Hrc : valid_coords (OopNpc.Board.get_coords location)).
  { change (valid_coords (Oop.Board.get_coords location)).
    by apply valid_position_coords. }
  assert (Hmarks : marks OopNpc.EMPTY g'
                   = marks OopNpc.EMPTY (OopNpc.Board.grid b) + 1).
  { by apply (marks_store OopNpc.EMPTY (OopNpc.Board.grid b) g'
                (OopNpc.Board.get_coords location) cp). }
  set (b1 := {| OopNpc.Board.grid := g'; OopNpc.Board.turn := _ |}).
  destruct (npc_is_winner_3x3 b1 cp Hshape') as [[Hline Hwin]|[Hline Hwin]].
  { rewrite (M_bind_Raise _ _ _ _ _ (npc_on_board_eq _ cls _ _ _ Hwin)).
    intros [= <- <-]. eexists _, cls, b1. split; [reflexivity|].
    split; [reflexivity|]. split; [|done].
    by apply (move_win _ _ _ _ _ _ g' Hrc Hcell Hset). }
  rewrite (M_bind_Ok _ _ _ _ _ (npc_on_board_eq _ cls _ _ _ Hwin)).
  pose proof (npc_on_board_eq _ cls _ _ _ (npc_is_tie_eq b1)) as Htie.
  destruct (OopNpc.Board.turn b1 + 1 =? 9) eqn:Enine.
  { rewrite (M_bind_Raise _ _ _ _ _ Htie).
    intros [= <- <-]. eexists _, cls, _. split; [reflexivity|].
    split; [reflexivity|]. split; [|done].
    apply (move_tie _ _ _ _ _ _ g' Hrc Hcell Hset Hline).
    subst b1. simpl in *. lia. }
  rewrite (M_bind_Ok _ _ _ _ _ Htie).
  unfold OopNpc.on_players. cbn [OopNpc.players OopNpc.board].
  destruct (npc_current_cases cls) as (_ & Hret & Hnext).
  destruct (OopNpc.Players.switch cls) as [p cls'] eqn:Eswitch.
  simpl in Hret, Hnext. subst p.
  intros [= <- <-]. eexists _, cls', _. split; [reflexivity|].
  split; [reflexivity|]. split; [|done].
  rewrite Hnext.
  apply (move_next OopNpc.EMPTY npc_other _ _ cp _ g' Hrc Hcell Hset Hline).
  subst b1. simpl in *. lia.
Qed.

Lemma npc_run_moves py inputs :
  ∀ cls b c r,
    shape3 (OopNpc.Board.grid b) → valid_inputs inputs →
    OopNpc.run py inputs
      {| OopNpc.wld := {| OopNpc.players := cls; OopNpc.board := b |};
         OopNpc.current_player := OopNpc.Players.current cls;
         OopNpc.ctl := c |} = Some r →
    (∃ cls' b' c',
       r = Ok {| OopNpc.wld :=
                   {| OopNpc.players := cls'; OopNpc.board := b' |};
                 OopNpc.current_player := OopNpc.Players.current cls';
                 OopNpc.ctl := c' |} ∧
       rtc (move OopNpc.EMPTY npc_other)
         (Game (OopNpc.Board.grid b) (OopNpc.Board.turn b)
               (OopNpc.Players.current cls) (npc_phase c))
         (Game (OopNpc.Board.grid b') (OopNpc.Board.turn b')
               (OopNpc.Players.current cls') (npc_phase c'))) ∨
    (r = Raise ValueError ∧ refused py (OopNpc.line <$> inputs)).
Proof.
  induction inputs as [|i inputs IH]; intros cls b c r Hshape Hall; simpl.
  { intros [= <-]. left. by eexists _, _, _. }
  destruct c as [|why]; [|intros [= <-]; left; by eexists _, _, _].
  apply Forall_cons in Hall as [Hi Hall].
  destruct (OopNpc.iteration py i (OopNpc.Players.current cls) _)
    as [[r1 w1]|] eqn:Eit; [|discriminate].
  apply npc_iteration_move in Eit
    as [(_ & Hline & -> & _)|(c' & cls' & b' & -> & -> & Hmove & _)];
    [| |done..].
  { intros [= <-]. right. split; [done|]. by apply Exists_cons_hd. }
  intros Hrun.
  apply IH in Hrun as [(cls'' & b'' & c'' & -> & Hmoves)|[-> Hlines]];
    [| |by apply (move_shape3 _ _ _ _ Hmove)|done].
  - left. eexists _, _, _. split; [reflexivity|]. by eapply rtc_l.
  - right. split; [done|]. by apply Exists_cons_tl.
Qed.

Lemma npc_start_inv :
  game_inv OopNpc.EMPTY OopNpc.PLAYER OopNpc.COMPUTER
    (npc_view OopNpc.start).
Proof. by apply game_inv_fresh. Qed.

Lemma npc_start_moves py inputs r :
  valid_inputs inputs → OopNpc.run py inputs OopNpc.start = Some r →
  (∃ ls, r = Ok ls ∧
         rtc (move OopNpc.EMPTY npc_other)
           (npc_view OopNpc.start) (npc_view ls) ∧
         OopNpc.current_player ls
         = OopNpc.Players.current (OopNpc.players (OopNpc.wld ls))) ∨
  (r = Raise ValueError ∧ refused py (OopNpc.line <$> inputs)).
Proof.
  intros Hall Hrun.
  apply (npc_run_moves py inputs OopNpc.Players.init OopNpc.Board.__init__
           OopNpc.Continue) in Hrun
    as [(cls' & b' & c' & -> & Hmoves)|Hraise];
    [| |split; [reflexivity|]; simpl; repeat constructor|done].
  - left. eexists. split; [reflexivity|].
    split; [exact Hmoves|reflexivity].
  - by right.
Qed.

Lemma npc_reachable_moves py inputs ls :
  valid_inputs inputs → OopNpc.run py inputs OopNpc.start = Some (Ok ls) →
  rtc (move OopNpc.EMPTY npc_other) (npc_view OopNpc.start) (npc_view ls) ∧
  OopNpc.current_player ls
  = OopNpc.Players.current (OopNpc.players (OopNpc.wld ls)).
Proof.
  intros Hall Hrun.
  destruct (npc_start_moves py inputs _ Hall Hrun)
    as [(ls' & [= <-] & Hmoves)|[[=] _]]. done.
Qed.

Lemma npc_reachable_inv py inputs ls :
  valid_inputs inputs → OopNpc.run py inputs OopNpc.start = Some (Ok ls) →
  game_inv OopNpc.EMPTY OopNpc.PLAYER OopNpc.COMPUTER (npc_view ls).
Proof.
  intros Hall Hrun.
  destruct (npc_reachable_moves py inputs ls Hall Hrun) as [Hmoves _].
  by apply (moves_game_inv OopNpc.EMPTY OopNpc.PLAYER OopNpc.COMPUTER
              npc_other ltac:(done) ltac:(done) ltac:(done) eq_refl eq_refl
              _ _ Hmoves npc_start_inv).
Qed.


(** ** The move counter in the loop *)

Lemma functional_counter_rule_view ls :
  counter_rule None (functional_view ls) → functional_counter_rule ls.
Proof.
  unfold counter_rule, functional_counter_rule, functional_view.
  simpl. by destruct (Functional.ctl ls) as [|[]].
Qed.

Lemma oop_counter_rule_view ls :
  counter_rule Oop.EMPTY (oop_view ls) → oop_counter_rule ls.
Proof.
  unfold counter_rule, oop_counter_rule, oop_view.
  simpl. by destruct (Oop.ctl ls) as [|[]].
Qed.

(** C4, as the code has it.  In every state the loop of [main] reaches
    from a fresh board between two iterations, or after it was left by a
    tie or by the user's exit, the move counter equals the number of cells
    that are not empty.  After the loop was left by a win the counter is
    one less than that number: the winning move is placed but not
    counted.  The loop reaches such a state on all lines of which none
    makes the input routine raise [ValueError]. *)
Theorem C4_counter_tracks_marks :
  ∀ py lines,
    (∀ ls, Functional.run py lines Functional.start = Ok ls →
           functional_counter_rule ls) ∧
    (∀ ls, Oop.run py lines Oop.start = Ok ls → oop_counter_rule ls) ∧
    (converted py lines →
     (∃ ls, Functional.run py lines Functional.start = Ok ls) ∧
     (∃ ls, Oop.run py lines Oop.start = Ok ls)).
Proof.
  intros py lines. split; [|split].
  - intros ls Hrun. apply functional_counter_rule_view.
    by destruct (functional_reachable_inv py lines ls Hrun) as (_ & ? & _).
  - intros ls Hrun. apply oop_counter_rule_view.
    by destruct (oop_reachable_inv py lines ls Hrun) as (_ & ? & _).
  - intros Hlines. split.
    + by apply functional_run_converted.
    + by apply oop_run_converted.
Qed.

Lemma C4_counter_tracks_marks_witness :
  let lines := [text "1"; text "x"; text "4"; text "2"] in
  converted sample_interpreter lines ∧
  ∃ ls, Functional.run sample_interpreter lines Functional.start = Ok ls ∧
        functional_counter_rule ls.
Proof.
  intros lines.
  assert (Hlines : converted sample_interpreter lines)
    by (repeat constructor; discriminate).
  split; [exact Hlines|].
  destruct (C4_counter_tracks_marks sample_interpreter lines)
    as (Hrule & _ & Hruns).
  destruct (proj1 (Hruns Hlines)) as [ls Hrun].
  exists ls. split; [exact Hrun|]. exact (Hrule ls Hrun).
Defined.

(** After X wins with 1, 2, 3 against 4, 5 the board holds five marks and
    the counter stands at 4. *)
Lemma C4_counter_behind_after_win :
  (∃ ls, Oop.run sample_interpreter
           [text "1"; text "4"; text "2"; text "5"; text "3"] Oop.start
         = Ok ls ∧
         Oop.ctl ls = Oop.Break Oop.Win ∧
         Oop.Board.turn (Oop.board (Oop.wld ls)) = 4 ∧
         marks Oop.EMPTY (Oop.Board.grid (Oop.board (Oop.wld ls))) = 5 ∧
         Oop.Board.turn (Oop.board (Oop.wld ls))
         ≠ marks Oop.EMPTY (Oop.Board.grid (Oop.board (Oop.wld ls)))) ∧
  (∃ ls, Functional.run sample_interpreter
           [text "1"; text "4"; text "2"; text "5"; text "3"]
           Functional.start = Ok ls ∧
         Functional.ctl ls = Functional.Break Functional.Win ∧
         Functional.turn (Functional.globs ls) = 4 ∧
         marks None (Functional.board (Functional.globs ls)) = 5 ∧
         Functional.turn (Functional.globs ls)
         ≠ marks None (Functional.board (Functional.globs ls))).
Proof.
  split; (eexists; split; [vm_compute; reflexivity|]);
    vm_compute; repeat split; discriminate.
Qed.

(** ** What every game keeps *)

(** X8.  In every state [main] reaches from a fresh board, whatever was
    typed, the move counter is below 9 while the game runs and after a win
    or an exit, and it is 9 after a tie: a game is over with the ninth
    accepted move at the latest. *)
Theorem game_ends_by_ninth_move :
  ∀ py,
    (∀ lines ls, Functional.run py lines Functional.start = Ok ls →
       counter_bound (functional_view ls)) ∧
    (∀ lines ls, Oop.run py lines Oop.start = Ok ls →
       counter_bound (oop_view ls)) ∧
    (∀ inputs ls, valid_inputs inputs →
       OopNpc.run py inputs OopNpc.start = Some (Ok ls) →
       counter_bound (npc_view ls)).
Proof.
  intros py. split; [|split].
  - intros lines ls Hrun.
    by destruct (functional_reachable_inv py lines ls Hrun)
      as (_ & _ & Hbound & _).
  - intros lines ls Hrun.
    by destruct (oop_reachable_inv py lines ls Hrun)
      as (_ & _ & Hbound & _).
  - intros inputs ls Hall Hrun.
    by destruct (npc_reachable_inv py inputs ls Hall Hrun)
      as (_ & _ & Hbound & _).
Qed.

(** X9.  The players alternate and X moves first: in every state [main]
    reaches from a fresh board while the game runs, the counter is the
    number of marks of the two players together, and the player to move
    is X when both have placed equally many marks and O when X has placed
    one more.  After a win the winner has placed last, and a tie is
    completed by X with five marks against four. *)
Theorem players_alternate :
  ∀ py,
    (∀ lines ls, Functional.run py lines Functional.start = Ok ls →
       balance_rule (Some true) (Some false) (functional_view ls)) ∧
    (∀ lines ls, Oop.run py lines Oop.start = Ok ls →
       balance_rule Oop.PRIMARY Oop.SECONDARY (oop_view ls) ∧
       Oop.current_player ls
       = Oop.Players.current (Oop.players (Oop.wld ls))) ∧
    (∀ inputs ls, valid_inputs inputs →
       OopNpc.run py inputs OopNpc.start = Some (Ok ls) →
       balance_rule OopNpc.PLAYER OopNpc.COMPUTER (npc_view ls) ∧
       OopNpc.current_player ls
       = OopNpc.Players.current (OopNpc.players (OopNpc.wld ls))).
Proof.
  intros py. split; [|split].
  - intros lines ls Hrun.
    by destruct (functional_reachable_inv py lines ls Hrun)
      as (_ & _ & _ & Hbalance & _).
  - intros lines ls Hrun.
    destruct (oop_reachable_moves py lines ls Hrun) as [_ Hsync].
    split; [|done].
    by destruct (oop_reachable_inv py lines ls Hrun)
      as (_ & _ & _ & Hbalance & _).
  - intros inputs ls Hall Hrun.
    destruct (npc_reachable_moves py inputs ls Hall Hrun) as [_ Hsync].
    split; [|done].
    by destruct (npc_reachable_inv py inputs ls Hall Hrun)
      as (_ & _ & _ & Hbalance & _).
Qed.

(** X10.  The way the loop ends agrees with the board: in every state
    [main] reaches from a fresh board while the game runs, and after an
    exit, neither player has three in line; after a win the player who
    moved last has three in line and the opponent has not; after a tie
    all nine cells hold a mark and neither player has three in line. *)
Theorem outcome_agrees_with_board :
  ∀ py,
    (∀ lines ls, Functional.run py lines Functional.start = Ok ls →
       lines_rule None (Some true) (Some false) (functional_view ls)) ∧
    (∀ lines ls, Oop.run py lines Oop.start = Ok ls →
       lines_rule Oop.EMPTY Oop.PRIMARY Oop.SECONDARY (oop_view ls)) ∧
    (∀ inputs ls, valid_inputs inputs →
       OopNpc.run py inputs OopNpc.start = Some (Ok ls) →
       lines_rule OopNpc.EMPTY OopNpc.PLAYER OopNpc.COMPUTER
         (npc_view ls)).
Proof.
  intros py. split; [|split].
  - intros lines ls Hrun.
    by destruct (functional_reachable_inv py lines ls Hrun)
      as (_ & _ & _ & _ & Hlines).
  - intros lines ls Hrun.
    by destruct (oop_reachable_inv py lines ls Hrun)
      as (_ & _ & _ & _ & Hlines).
  - intros inputs ls Hall Hrun.
    by destruct (npc_reachable_inv py inputs ls Hall Hrun)
      as (_ & _ & _ & _ & Hlines).
Qed.

(** X11.  In [oop_npc.py] too, in every state [main] reaches from a fresh
    board, the move counter equals the number of marks on the board
    between two iterations and after a tie or an exit, and is one less
    after a win. *)
Theorem npc_counter_tracks_marks :
  ∀ py inputs ls, valid_inputs inputs →
    OopNpc.run py inputs OopNpc.start = Some (Ok ls) →
    counter_rule OopNpc.EMPTY (npc_view ls).
Proof.
  intros py inputs ls Hall Hrun.
  by destruct (npc_reachable_inv py inputs ls Hall Hrun)
    as (_ & Hcounter & _).
Qed.

(** A run of [oop_npc.py]: the player takes the centre, the computer
    draws the centre, then the first cell, and the player takes the last
    cell. *)
Lemma npc_sample_run :
  let inputs := [OopNpc.Input [] (text "5"); OopNpc.Input [5; 1] (text "");
                 OopNpc.Input [] (text "9")] in
  valid_inputs inputs ∧
  ∃ ls, OopNpc.run sample_interpreter inputs OopNpc.start = Some (Ok ls).
Proof.
  intros inputs. split.
  - repeat constructor; unfold valid_position; lia.
  - eexists. vm_compute. reflexivity.
Qed.

Lemma game_ends_by_ninth_move_witness :
  let inputs := [OopNpc.Input [] (text "5"); OopNpc.Input [5; 1] (text "");
                 OopNpc.Input [] (text "9")] in
  valid_inputs inputs ∧
  ∃ ls, OopNpc.run sample_interpreter inputs OopNpc.start = Some (Ok ls) ∧
        counter_bound (npc_view ls).
Proof.
  intros inputs. destruct npc_sample_run as [Hall [ls0 Hrun]].
  split; [exact Hall|]. exists ls0. split; [exact Hrun|].
  destruct (game_ends_by_ninth_move sample_interpreter) as (_ & _ & Hnpc).
  exact (Hnpc inputs ls0 Hall Hrun).
Defined.

Lemma players_alternate_witness :
  let inputs := [OopNpc.Input [] (text "5"); OopNpc.Input [5; 1] (text "");
                 OopNpc.Input [] (text "9")] in
  valid_inputs inputs ∧
  ∃ ls, OopNpc.run sample_interpreter inputs OopNpc.start = Some (Ok ls) ∧
        balance_rule OopNpc.PLAYER OopNpc.COMPUTER (npc_view ls) ∧
        OopNpc.current_player ls
        = OopNpc.Players.current (OopNpc.players (OopNpc.wld ls)).
Proof.
  intros inputs. destruct npc_sample_run as [Hall [ls0 Hrun]].
  split; [exact Hall|]. exists ls0. split; [exact Hrun|].
  destruct (players_alternate sample_interpreter) as (_ & _ & Hnpc).
  exact (Hnpc inputs ls0 Hall Hrun).
Defined.

Lemma outcome_agrees_with_board_witness :
  let inputs := [OopNpc.Input [] (text "5"); OopNpc.Input [5; 1] (text "");
                 OopNpc.Input [] (text "9")] in
  valid_inputs inputs ∧
  ∃ ls, OopNpc.run sample_interpreter inputs OopNpc.start = Some (Ok ls) ∧
        lines_rule OopNpc.EMPTY OopNpc.PLAYER OopNpc.COMPUTER (npc_view ls).
Proof.
  intros inputs. destruct npc_sample_run as [Hall [ls0 Hrun]].
  split; [exact Hall|]. exists ls0. split; [exact Hrun|].
  destruct (outcome_agrees_with_board sample_interpreter) as (_ & _ & Hnpc).
  exact (Hnpc inputs ls0 Hall Hrun).
Defined.

Lemma npc_counter_tracks_marks_witness :
  let inputs := [OopNpc.Input [] (text "5"); OopNpc.Input [5; 1] (text "");
                 OopNpc.Input [] (text "9")] in
  valid_inputs inputs ∧
  ∃ ls, OopNpc.run sample_interpreter inputs OopNpc.start = Some (Ok ls) ∧
        counter_rule OopNpc.EMPTY (npc_view ls).
Proof.
  intros inputs. destruct npc_sample_run as [Hall [ls0 Hrun]].
  split; [exact Hall|]. exists ls0. split; [exact Hrun|].
  exact (npc_counter_tracks_marks sample_interpreter inputs ls0 Hall Hrun).
Defined.

(** ** What leaves the loop

    [ValueError] is caught by no [except] clause of [main]. *)







(** ** Marks stay where they are *)

(** X12.  No mark is ever overwritten or removed by the game: a cell that
    holds a mark in some state [main] has reached holds the same mark in
    every state it reaches later. *)
Theorem marks_are_never_overwritten :
  ∀ py,
    (∀ lines lines' ls ls',
       Functional.run py lines Functional.start = Ok ls →
       Functional.run py lines' ls = Ok ls' →
       marks_kept None (functional_view ls) (functional_view ls')) ∧
    (∀ lines lines' ls ls',
       Oop.run py lines Oop.start = Ok ls →
       Oop.run py lines' ls = Ok ls' →
       marks_kept Oop.EMPTY (oop_view ls) (oop_view ls')) ∧
    (∀ inputs inputs' ls ls',
       valid_inputs inputs → valid_inputs inputs' →
       OopNpc.run py inputs OopNpc.start = Some (Ok ls) →
       OopNpc.run py inputs' ls = Some (Ok ls') →
       marks_kept OopNpc.EMPTY (npc_view ls) (npc_view ls')).
Proof.
  intros py. split; [|split].
  - intros lines lines' ls ls' Hrun Hrun'.
    destruct (functional_reachable_inv py lines ls Hrun) as (Hshape & _).
    destruct (functional_run_moves py lines' ls Hshape)
      as [(ls1 & Hrun1 & Hmoves)|[Hrun1 _]]; [|congruence].
    rewrite Hrun' in Hrun1. injection Hrun1 as <-.
    by apply (moves_marks_kept None functional_other).
  - intros lines lines' ls ls' Hrun Hrun'.
    destruct (oop_reachable_moves py lines ls Hrun) as [Hmoves0 Hsync].
    pose proof (moves_shape3 _ _ _ _ Hmoves0) as Hshape.
    destruct ls as [[cls b] cp c]. simpl in Hsync, Hshape. subst cp.
    destruct (oop_run_moves py lines' cls b c)
      as [(cls' & b' & c' & Hrun1 & Hmoves)|[Hrun1 _]].
    { apply Hshape. split; [reflexivity|]. simpl. repeat constructor. }
    + rewrite Hrun' in Hrun1. injection Hrun1 as ->.
      by apply (moves_marks_kept Oop.EMPTY oop_other).
    + congruence.
  - intros inputs inputs' ls ls' Hall Hall' Hrun Hrun'.
    destruct (npc_reachable_moves py inputs ls Hall Hrun)
      as [Hmoves0 Hsync].
    pose proof (moves_shape3 _ _ _ _ Hmoves0) as Hshape.
    destruct ls as [[cls b] cp c]. simpl in Hsync, Hshape. subst cp.
    apply (npc_run_moves py inputs' cls b c) in Hrun'
      as [(cls' & b' & c' & [= ->] & Hmoves)|[[=] _]];
      [|apply Hshape|done].
    + by apply (moves_marks_kept OopNpc.EMPTY npc_other).
    + split; [reflexivity|]. simpl. repeat constructor.
Qed.

Lemma marks_are_never_overwritten_witness :
  let ls :=
    {| Oop.wld :=
         {| Oop.players := {| Oop.Players._current := true |};
            Oop.board :=
              {| Oop.Board.grid :=
                   [[Oop.SECONDARY; Oop.EMPTY; Oop.EMPTY];
                    [Oop.EMPTY; Oop.PRIMARY; Oop.EMPTY];
                    [Oop.EMPTY; Oop.EMPTY; Oop.EMPTY]];
                 Oop.Board.turn := 2 |} |};
       Oop.current_player := Oop.PRIMARY;
       Oop.ctl := Oop.Continue |} in
  ∃ ls',
    Oop.run sample_interpreter [text "5"; text "1"] Oop.start = Ok ls ∧
    Oop.run sample_interpreter [text "1"; text "9"; text "q"] ls = Ok ls' ∧
    marks_kept Oop.EMPTY (oop_view ls) (oop_view ls').
Proof.
  intros ls.
  assert (H1 : Oop.run sample_interpreter [text "5"; text "1"] Oop.start
               = Ok ls)
    by (vm_compute; reflexivity).
  assert (H2 : ∃ ls', Oop.run sample_interpreter
                        [text "1"; text "9"; text "q"] ls = Ok ls')
    by (eexists; vm_compute; reflexivity).
  destruct H2 as [ls' H2].
  exists ls'. split; [exact H1|]. split; [exact H2|].
  destruct (marks_are_never_overwritten sample_interpreter)
    as (_ & Hoop & _).
  exact (Hoop _ _ _ _ H1 H2).
Defined.

(** ** Rejected lines *)

(** X13.  A line that is not accepted costs nothing: after a line that
    is invalid or out of bounds, or that names a taken cell, the loop goes
    round again with the same player, the same board and the same
    counter; and the quit word leaves the loop with all three as they
    were. *)
Theorem rejected_line_changes_nothing :
  ∀ py,
    (∀ line pl g,
       (Functional.get_user_input_as_int py line = Raise UserExit →
        Functional.iteration py line pl g
        = (Ok (Functional.Break Functional.Exit, pl), g)) ∧
       (Functional.get_user_input_as_int py line = Raise InvalidInput ∨
        Functional.get_user_input_as_int py line = Raise InputOutOfBounds →
        Functional.iteration py line pl g
        = (Ok (Functional.Continue, pl), g)) ∧
       (∀ p, Functional.get_user_input_as_int py line = Ok p →
             Functional.is_taken (Functional.linear_position_to_coords p) g
             = (Ok true, g) →
             Functional.iteration py line pl g
             = (Ok (Functional.Continue, pl), g))) ∧
    (∀ line cp w,
       (Oop.get_user_input py line = Raise UserExit →
        Oop.iteration py line cp w = (Ok (Oop.Break Oop.Exit, cp), w)) ∧
       (Oop.get_user_input py line = Raise InvalidInput ∨
        Oop.get_user_input py line = Raise InputOutOfBounds →
        Oop.iteration py line cp w = (Ok (Oop.Continue, cp), w)) ∧
       (∀ p, Oop.get_user_input py line = Ok p →
             Oop.Board.is_taken p (Oop.board w) = (Ok true, Oop.board w) →
             Oop.iteration py line cp w = (Ok (Oop.Continue, cp), w))).
Proof.
  intros py. split.
  - intros line pl g. unfold Functional.iteration, Functional.try_block.
    split; [|split].
    + intros ->. by rewrite (M_bind_Raise _ _ g UserExit g) by reflexivity.
    + intros [-> | ->].
      * by rewrite (M_bind_Raise _ _ g InvalidInput g) by reflexivity.
      * by rewrite (M_bind_Raise _ _ g InputOutOfBounds g) by reflexivity.
    + intros p -> Htaken.
      rewrite (M_bind_Ok _ _ g p g) by reflexivity. cbv zeta.
      by rewrite (M_bind_Ok _ _ _ _ _ Htaken).
  - intros line cp [cls b]. unfold Oop.iteration, Oop.try_block.
    cbn [Oop.board]. split; [|split].
    + intros ->. by rewrite (M_bind_Raise _ _ _ UserExit _) by reflexivity.
    + intros [-> | ->].
      * by rewrite (M_bind_Raise _ _ _ InvalidInput _) by reflexivity.
      * by rewrite (M_bind_Raise _ _ _ InputOutOfBounds _) by reflexivity.
    + intros p -> Htaken.
      rewrite (M_bind_Ok _ _ _ p _) by reflexivity.
      by rewrite (M_bind_Ok _ _ _ _ _ (on_board_eq _ cls _ _ _ Htaken)).
Qed.

Lemma rejected_line_changes_nothing_witness :
  Oop.get_user_input sample_interpreter (text "0") = Raise InputOutOfBounds ∧
  Oop.iteration sample_interpreter (text "0") Oop.PRIMARY (Oop.wld Oop.start)
  = (Ok (Oop.Continue, Oop.PRIMARY), Oop.wld Oop.start).
Proof.
  assert (Hin : Oop.get_user_input sample_interpreter (text "0")
                = Raise InputOutOfBounds)
    by reflexivity.
  split; [exact Hin|].
  destruct (rejected_line_changes_nothing sample_interpreter) as (_ & Hoop).
  destruct (Hoop (text "0") Oop.PRIMARY (Oop.wld Oop.start))
    as (_ & Hbad & _).
  apply Hbad. right. exact Hin.
Defined.

(** ** The computer's turn *)

Lemma npc_free_cell_open board :
  shape3 (OopNpc.Board.grid board) →
  marks OopNpc.EMPTY (OopNpc.Board.grid board) < 9 →
  non_full board.
Proof.
  intros Hshape Hlt.
  destruct (marks_free_cell OopNpc.EMPTY _ Hshape Hlt) as (rc & Hrc & Hfree).
  destruct get_coords_position_mapping as (_ & _ & Honto).
  destruct (Honto rc Hrc) as (p & Hp & Hcoords).
  change Oop.Board.get_coords with OopNpc.Board.get_coords in Hcoords.
  exists p. split; [done|].
  by rewrite npc_is_taken_unfold, Hcoords, Hfree.
Qed.

(** X14.  The computer is never asked to move on a full board: in every
    state of [oop_npc.py] in which the loop goes on, some position of
    1..9 is free, so the sampling loop of [get_location] can return. *)
Theorem npc_running_board_not_full :
  ∀ py inputs ls, valid_inputs inputs →
    OopNpc.run py inputs OopNpc.start = Some (Ok ls) →
    OopNpc.ctl ls = OopNpc.Continue →
    non_full (OopNpc.board (OopNpc.wld ls)).
Proof.
  intros py inputs ls Hall Hrun Hctl.
  destruct (npc_reachable_inv py inputs ls Hall Hrun)
    as (Hshape & Hcounter & Hbound & _).
  unfold counter_rule, counter_bound, npc_view in *. simpl in *.
  rewrite Hctl in *. simpl in *.
  apply npc_free_cell_open; [done|lia].
Qed.

Lemma npc_running_board_not_full_witness :
  let inputs := [OopNpc.Input [] (text "5"); OopNpc.Input [5; 1] (text "");
                 OopNpc.Input [] (text "9")] in
  valid_inputs inputs ∧
  ∃ ls, OopNpc.run sample_interpreter inputs OopNpc.start = Some (Ok ls) ∧
        OopNpc.ctl ls = OopNpc.Continue ∧
        non_full (OopNpc.board (OopNpc.wld ls)).
Proof.
  intros inputs.
  assert (Hall : valid_inputs inputs)
    by (repeat constructor; unfold valid_position; lia).
  split; [exact Hall|]. eexists.
  assert (Hrun : OopNpc.run sample_interpreter inputs OopNpc.start
                 = Some (Ok _))
    by (vm_compute; reflexivity).
  split; [exact Hrun|]. split; [reflexivity|].
  exact (npc_running_board_not_full sample_interpreter inputs _ Hall Hrun
           eq_refl).
Defined.

Lemma npc_iteration_Some py i cp w r w' :
  OopNpc.try_block py i cp w = Some (r, w') →
  ∃ r', OopNpc.iteration py i cp w = Some (r', w').
Proof.
  unfold OopNpc.iteration. intros ->.
  destruct r as [p|[]]; by eexists.
Qed.

(** X15.  The computer never loses its turn.  On a three by three board
    with a free cell, the computer's iteration comes to an end as soon as
    the samples hold a free position; and whenever it comes to an end it
    has placed one mark: the branch for a taken cell is never run for the
    computer. *)
Theorem npc_computer_always_places :
  ∀ py i cls b,
    shape3 (OopNpc.Board.grid b) →
    Forall valid_position (OopNpc.samples i) →
    OopNpc.Players.current cls = OopNpc.COMPUTER →
    (Exists (open_position b) (OopNpc.samples i) →
     ∃ r w', OopNpc.iteration py i OopNpc.COMPUTER
               {| OopNpc.players := cls; OopNpc.board := b |}
             = Some (r, w')) ∧
    (∀ r w', OopNpc.iteration py i OopNpc.COMPUTER
               {| OopNpc.players := cls; OopNpc.board := b |}
             = Some (r, w') →
       marks OopNpc.EMPTY (OopNpc.Board.grid (OopNpc.board w'))
       = marks OopNpc.EMPTY (OopNpc.Board.grid b) + 1).
Proof.
  intros py i cls b Hshape Hall Hcomputer. split.
  - intros Hopen.
    assert (Hloc : ∃ p rest,
              OopNpc.get_location py b OopNpc.COMPUTER (OopNpc.samples i)
                (OopNpc.line i) = Some (Ok p, rest)).
    { destruct (OopNpc.samples i) as [|s samples];
        [by apply Exists_nil in Hopen|].
      apply Forall_cons in Hall as [Hs Hall].
      by apply sample_loop_returns. }
    destruct Hloc as (p & rest & Hloc).
    destruct (OopNpc.try_block py i OopNpc.COMPUTER
                {| OopNpc.players := cls; OopNpc.board := b |})
      as [[r w']|] eqn:Etry.
    + apply npc_iteration_Some in Etry as [r' Hit]. by eexists _, _.
    + unfold OopNpc.try_block in Etry. cbn [OopNpc.board] in Etry.
      by rewrite Hloc in Etry.
  - intros r w' Hit. rewrite <- Hcomputer in Hit.
    apply npc_iteration_move in Hit
      as [(Hhuman & _)|(c & cls' & b' & _ & -> & _ & Hplaced)];
      [done| |done..].
    by apply Hplaced.
Qed.

Lemma npc_computer_always_places_witness :
  let i := OopNpc.Input [5; 5; 3] (text "") in
  let cls := {| OopNpc.Players._current := false |} in
  let b := {| OopNpc.Board.grid :=
                [[OopNpc.EMPTY; OopNpc.EMPTY; OopNpc.EMPTY];
                 [OopNpc.EMPTY; OopNpc.PLAYER; OopNpc.EMPTY];
                 [OopNpc.EMPTY; OopNpc.EMPTY; OopNpc.EMPTY]];
              OopNpc.Board.turn := 1 |} in
  shape3 (OopNpc.Board.grid b) ∧
  Forall valid_position (OopNpc.samples i) ∧
  OopNpc.Players.current cls = OopNpc.COMPUTER ∧
  Exists (open_position b) (OopNpc.samples i) ∧
  ∃ r w', OopNpc.iteration sample_interpreter i OopNpc.COMPUTER
            {| OopNpc.players := cls; OopNpc.board := b |} = Some (r, w').
Proof.
  intros i cls b.
  assert (Hshape : shape3 (OopNpc.Board.grid b)).
  { split; [reflexivity|]. simpl. repeat constructor. }
  assert (Hall : Forall valid_position (OopNpc.samples i)).
  { repeat constructor; unfold valid_position; lia. }
  assert (Hcomputer : OopNpc.Players.current cls = OopNpc.COMPUTER)
    by reflexivity.
  assert (Hopen : Exists (open_position b) (OopNpc.samples i)).
  { do 2 apply Exists_cons_tl. apply Exists_cons_hd.
    split; [unfold valid_position; lia|reflexivity]. }
  split; [exact Hshape|]. split; [exact Hall|]. split; [exact Hcomputer|].
  split; [exact Hopen|].
  exact (proj1 (npc_computer_always_places sample_interpreter i cls b
                  Hshape Hall Hcomputer) Hopen).
Defined.

(** X16.  On a full board the sampling loop never returns: whatever
    values in 1..9 are drawn, and however many, [get_location] is still
    drawing for the computer. *)
Theorem npc_full_board_never_returns :
  ∀ py board samples line,
    full_board board → Forall valid_position samples →
    OopNpc.get_location py board OopNpc.COMPUTER samples line = None.
Proof.
  intros py board samples line Hfull Hall.
  unfold OopNpc.get_location. simpl.
  destruct samples as [|s samples]; [done|].
  apply Forall_cons in Hall as [Hs Hall]. revert s Hs.
  induction samples as [|s' samples IH]; intros s Hs;
    rewrite sample_loop_unfold, (Hfull s Hs); simpl; [done|].
  apply Forall_cons in Hall as [Hs' Hall]. by apply IH.
Qed.

Lemma npc_full_board_never_returns_witness :
  let board := {| OopNpc.Board.grid :=
                    [[OopNpc.PLAYER; OopNpc.COMPUTER; OopNpc.PLAYER];
                     [OopNpc.PLAYER; OopNpc.COMPUTER; OopNpc.COMPUTER];
                     [OopNpc.COMPUTER; OopNpc.PLAYER; OopNpc.PLAYER]];
                  OopNpc.Board.turn := 9 |} in
  full_board board ∧ Forall valid_position [4; 9; 1] ∧
  OopNpc.get_location sample_interpreter board OopNpc.COMPUTER [4; 9; 1]
    (text "") = None.
Proof.
  intros board.
  assert (Hfull : full_board board).
  { intros p Hp.
    destruct (valid_position_cases p Hp)
      as [->|[->|[->|[->|[->|[->|[->|[->| ->]]]]]]]]; reflexivity. }
  assert (Hall : Forall valid_position [4; 9; 1]).
  { repeat constructor; unfold valid_position; lia. }
  split; [exact Hfull|]. split; [exact Hall|].
  exact (npc_full_board_never_returns sample_interpreter board [4; 9; 1]
           (text "") Hfull Hall).
Defined.
